(** * illume: directive interpreter, conversation builder, request assembler
      and streaming-response normaliser

    A shallow embedding of [illume.go] (the current revision), and of the
    tool-calling revision of the conversation builder, together with the
    properties the specification states about them.

    Go strings are byte strings: [string] is a list of 8-bit [ascii].
    [map[string]T] is a [gmap string T].  Functions of the Go standard library
    and of the operating system that the program calls but does not define
    (the JSON codec, Unicode classification, the file system, the process
    environment), and the program's three embedding collaborators, which
    read files into the segment and touch nothing else, are the fields of
    the class [World]; every theorem holds for every world. *)

From Stdlib Require Import String Ascii ZArith Lia List Floats.
From stdpp Require Import base option gmap strings list pretty.

#[global] Set Warnings "-register-all".
#[local] Open Scope string_scope.

(** ** Bytes and the [strings] package *)

Definition LF : ascii := "010"%char.
Definition CR : ascii := "013"%char.
Definition nl : string := String LF EmptyString.

(** [unlines] writes every line followed by a newline, the way
    [LoadProfile] turns a table entry into a body. *)
Fixpoint unlines (lines : list string) : string :=
  match lines with
  | [] => ""
  | line :: rest => line ++ nl ++ unlines rest
  end.

Definition string_rev (s : string) : string :=
  string_of_list_ascii (rev (list_ascii_of_string s)).

Module strings.

(** [len(s) >= len(prefix) && s[:len(prefix)] == prefix] *)
Fixpoint HasPrefix (s prefix : string) {struct prefix} : bool :=
  match prefix with
  | EmptyString => true
  | String a prefix =>
      match s with
      | EmptyString => false
      | String b s => Ascii.eqb a b && HasPrefix s prefix
      end
  end.

Definition HasSuffix (s suffix : string) : bool :=
  HasPrefix (string_rev s) (string_rev suffix).

Fixpoint IndexByte (s : string) (c : ascii) : bool :=
  match s with
  | EmptyString => false
  | String x rest => Ascii.eqb x c || IndexByte rest c
  end.

(** [strings.ContainsAny]: some byte of [s] is in [chars] ([chars] is
    ASCII at every call site). *)
Fixpoint ContainsAny (s chars : string) : bool :=
  match s with
  | EmptyString => false
  | String x rest => IndexByte chars x || ContainsAny rest chars
  end.

Fixpoint TrimLeft (s cutset : string) : string :=
  match s with
  | EmptyString => EmptyString
  | String x rest => if IndexByte cutset x then TrimLeft rest cutset else s
  end.

Definition TrimRight (s cutset : string) : string :=
  string_rev (TrimLeft (string_rev s) cutset).

(** [strings.Trim] for an ASCII cut set: bytes of the set are removed at
    both ends. *)
Definition Trim (s cutset : string) : string :=
  TrimRight (TrimLeft s cutset) cutset.

(** The table [asciiSpace] of the Go library. *)
Definition asciiSpace (c : ascii) : bool :=
  IndexByte (String "009" (String "010" (String "011"
            (String "012" (String "013" " "))))) c.

(** [c >= utf8.RuneSelf] *)
Definition notASCII (c : ascii) : bool := (128 <=? nat_of_ascii c)%nat.

End strings.

(** ** Errors, messages and JSON values *)

(** A Go [error], kept structured; [error_message] is its [Error()] text. *)
Inductive error :=
| ErrUnmatched                                   (* "unmatched '}'" *)
| ErrMissingKey (key : string)                   (* "missing key: %s" *)
| ErrOS (msg : string)                           (* an error of the os *)
| ErrAt (name : string) (lineno : Z) (e : error) (* "%s:%d: %w" *)
| ErrInterpolatingURL (e : error)                (* "interpolating URL: %w" *)
| ErrInfill (e : error)                          (* "!infill: %w" *)
| ErrHTTP (status : Z) (body : string).          (* "HTTP %d: %s" *)

Fixpoint error_message (e : error) : string :=
  match e with
  | ErrUnmatched => "unmatched '}'"
  | ErrMissingKey key => "missing key: " ++ key
  | ErrOS msg => msg
  | ErrAt name lineno e => name ++ ":" ++ pretty lineno ++ ": " ++ error_message e
  | ErrInterpolatingURL e => "interpolating URL: " ++ error_message e
  | ErrInfill e => "!infill: " ++ error_message e
  | ErrHTTP status body => "HTTP " ++ pretty status ++ ": " ++ body
  end.

Inductive result (A : Type) :=
| Ok (a : A)
| Err (e : error).
Arguments Ok {A} a.
Arguments Err {A} e.

Module Message.
Record t := mk { Role : string; Content : string }.
End Message.

(** What an [interface{}] holds in this program: the results of
    [json.Unmarshal] (nil, bool, float64, string, slice, map), the [int] of
    the initial [max_tokens], and the message list of a chat request. *)
Inductive value :=
| VNil
| VBool (b : bool)
| VInt (n : Z)
| VFloat (x : float)
| VString (s : string)
| VArray (l : list value)
| VObject (m : gmap string value)
| VMessages (l : list Message.t).

Definition is_string (v : value) : bool :=
  match v with VString _ => true | _ => false end.

Module Response.
Module Choice.
Record delta := mkdelta { Content : string }.
Record t := mk { Text : string; Delta : delta }.
End Choice.
Module Anthropic.
Record t := mk { Text : string; Thinking : string }.
End Anthropic.
Record t := mk {
  Content : string;
  Choices : list Choice.t;
  Delta : Anthropic.t
}.
(** [var r Response] *)
Definition zero : t := mk "" [] (Anthropic.mk "" "").
End Response.

(** ** The world outside the program *)

Class World := {
  (** [json.Unmarshal] into an [interface{}]; [None] when it returns an error *)
  json_Unmarshal : string -> option value;
  (** [json.Unmarshal] into a [string] variable *)
  json_Unmarshal_string : string -> option string;
  (** [json.Valid]: the syntax check [json.Unmarshal] runs before it stores
      anything *)
  json_Valid : string -> bool;
  (** what [json.Unmarshal] stores into a zero [Response] for valid JSON *)
  json_decode_Response : string -> Response.t;
  (** the JSON text [Encoder.Encode] writes for a value with HTML escaping
      off, without the newline that follows it *)
  json_text : value -> string;
  (** [strings.TrimFunc(s, unicode.IsSpace)] and [strings.TrimRightFunc] *)
  TrimFunc_IsSpace : string -> string;
  TrimRightFunc_IsSpace : string -> string;
  (** [os.ExpandEnv], [os.Getenv], [os.Executable], [ioutil.ReadFile] *)
  ExpandEnv : string -> string;
  Getenv : string -> string;
  Executable : result string;
  ReadFile : string -> result string;
  (** [filepath.Dir] and [path.Join] *)
  Dir : string -> string;
  Join : string -> string -> string;
  (** the embedding collaborators [addcontext], [emitreddit] and
      [emitgithub]: from the buffer and the directive to the buffer they
      leave and their error *)
  addcontext : string -> string -> string * option error;
  emitreddit : string -> string -> bool -> string * option error;
  emitgithub : string -> string -> string * option error
}.

Section Program.
Context {W : World}.

(** [strings.TrimSpace]: the ASCII fast path of the library, which hands
    over to the Unicode functions at the first byte [>= utf8.RuneSelf]. *)
Fixpoint TrimSpace_stop (rs : list ascii) : string :=
  match rs with
  | [] => ""
  | c :: rest =>
      if strings.notASCII c
      then TrimRightFunc_IsSpace (string_of_list_ascii (rev rs))
      else if strings.asciiSpace c then TrimSpace_stop rest
      else string_of_list_ascii (rev rs)
  end.

Fixpoint TrimSpace (s : string) : string :=
  match s with
  | EmptyString => ""
  | String c rest =>
      if strings.notASCII c then TrimFunc_IsSpace s
      else if strings.asciiSpace c then TrimSpace rest
      else TrimSpace_stop (rev (list_ascii_of_string s))
  end.

(** ** [cut], [marshal], [interpolate] *)

(** [cut(s, b)]: the text before the first [b], the text after it, and
    whether there is one. *)
Fixpoint cut (s : string) (b : ascii) : string * string * bool :=
  match s with
  | EmptyString => (EmptyString, EmptyString, false)
  | String c rest =>
      if Ascii.eqb c b then (EmptyString, rest, true)
      else let '(pre, post, ok) := cut rest b in (String c pre, post, ok)
  end.

(** [marshal]: [Encode] writes the JSON text and then a newline. *)
Definition marshal (v : value) : string := json_text v ++ nl.

(** The [for] loop of [interpolate]; [b] is the buffer.  Each turn removes
    at least the brace from [s], so [S (length s)] turns are enough. *)
Fixpoint interpolate_loop (fuel : nat) (s : string) (vars : gmap string value)
    (b : string) : option (result string) :=
  match fuel with
  | O => None
  | S fuel =>
      let '(pre, key, ok) := cut s "{" in
      let b := b ++ pre in
      if negb ok then Some (Ok b)
      else
        let '(key, s, ok) := cut key "}" in
        if negb ok then Some (Err ErrUnmatched)
        else
          match vars !! key with
          | None => Some (Err (ErrMissingKey key))
          | Some (VString svalue) => interpolate_loop fuel s vars (b ++ svalue)
          | Some value => interpolate_loop fuel s vars (b ++ marshal value)
          end
  end.

Definition interpolate (s : string) (vars : gmap string value)
    : option (result string) :=
  interpolate_loop (S (String.length s)) s vars "".

End Program.

(** ** The conversation builder *)

Module Builder.

Record t := mk {
  Messages : list Message.t;
  Role : string;
  Content : string  (* bytes.Buffer *)
}.

(** [Builder{}] *)
Definition zero : t := mk [] "" "".

Definition Append (b : t) (line : string) : t :=
  mk (Messages b) (Role b) (Content b ++ line ++ nl).

(** [New] returns the builder it leaves; the slice it returns is the
    [Messages] of that builder. *)
Definition New (b : t) (role : string) : t :=
  let content := strings.Trim (Content b) (String CR nl) in
  let b :=
    if negb (String.eqb content "") then
      let b := if String.eqb (Role b) "" then mk (Messages b) "system" (Content b)
               else b in
      mk (Messages b ++ [Message.mk (Role b) content]) (Role b) (Content b)
    else b in
  mk (Messages b) role "".

End Builder.

(** ** The request state *)

Inductive ChatType := TypeChat | TypeCompletion | TypeInfill | TypeFim.

Definition InvalidUrl : string := "http://invalid./".
Definition DefaultProfile : string := "llama.cpp".

Module ChatState.

Record t := mk {
  Profile : string;
  Api : string;
  FimTmpl : string;
  Prepend : string;
  Exclude : string;
  Builder : Builder.t;
  Data : gmap string value;
  UserSet : gmap string bool;
  Headers : gmap string string;
  Type_ : ChatType;
  Debug : bool;
  Stats : bool;
  Excluding : bool
}.

Definition set_Profile (s : t) (x : string) : t :=
  mk x (Api s) (FimTmpl s) (Prepend s) (Exclude s) (Builder s) (Data s)
     (UserSet s) (Headers s) (Type_ s) (Debug s) (Stats s) (Excluding s).
Definition set_Api (s : t) (x : string) : t :=
  mk (Profile s) x (FimTmpl s) (Prepend s) (Exclude s) (Builder s) (Data s)
     (UserSet s) (Headers s) (Type_ s) (Debug s) (Stats s) (Excluding s).
Definition set_FimTmpl (s : t) (x : string) : t :=
  mk (Profile s) (Api s) x (Prepend s) (Exclude s) (Builder s) (Data s)
     (UserSet s) (Headers s) (Type_ s) (Debug s) (Stats s) (Excluding s).
Definition set_Prepend (s : t) (x : string) : t :=
  mk (Profile s) (Api s) (FimTmpl s) x (Exclude s) (Builder s) (Data s)
     (UserSet s) (Headers s) (Type_ s) (Debug s) (Stats s) (Excluding s).
Definition set_Exclude (s : t) (x : string) : t :=
  mk (Profile s) (Api s) (FimTmpl s) (Prepend s) x (Builder s) (Data s)
     (UserSet s) (Headers s) (Type_ s) (Debug s) (Stats s) (Excluding s).
Definition set_Builder (s : t) (x : Builder.t) : t :=
  mk (Profile s) (Api s) (FimTmpl s) (Prepend s) (Exclude s) x (Data s)
     (UserSet s) (Headers s) (Type_ s) (Debug s) (Stats s) (Excluding s).
Definition set_Data (s : t) (x : gmap string value) : t :=
  mk (Profile s) (Api s) (FimTmpl s) (Prepend s) (Exclude s) (Builder s) x
     (UserSet s) (Headers s) (Type_ s) (Debug s) (Stats s) (Excluding s).
Definition set_UserSet (s : t) (x : gmap string bool) : t :=
  mk (Profile s) (Api s) (FimTmpl s) (Prepend s) (Exclude s) (Builder s) (Data s)
     x (Headers s) (Type_ s) (Debug s) (Stats s) (Excluding s).
Definition set_Headers (s : t) (x : gmap string string) : t :=
  mk (Profile s) (Api s) (FimTmpl s) (Prepend s) (Exclude s) (Builder s) (Data s)
     (UserSet s) x (Type_ s) (Debug s) (Stats s) (Excluding s).
Definition set_Type (s : t) (x : ChatType) : t :=
  mk (Profile s) (Api s) (FimTmpl s) (Prepend s) (Exclude s) (Builder s) (Data s)
     (UserSet s) (Headers s) x (Debug s) (Stats s) (Excluding s).
Definition set_Debug (s : t) (x : bool) : t :=
  mk (Profile s) (Api s) (FimTmpl s) (Prepend s) (Exclude s) (Builder s) (Data s)
     (UserSet s) (Headers s) (Type_ s) x (Stats s) (Excluding s).
Definition set_Stats (s : t) (x : bool) : t :=
  mk (Profile s) (Api s) (FimTmpl s) (Prepend s) (Exclude s) (Builder s) (Data s)
     (UserSet s) (Headers s) (Type_ s) (Debug s) x (Excluding s).
Definition set_Excluding (s : t) (x : bool) : t :=
  mk (Profile s) (Api s) (FimTmpl s) (Prepend s) (Exclude s) (Builder s) (Data s)
     (UserSet s) (Headers s) (Type_ s) (Debug s) (Stats s) x.

End ChatState.

(** [NewChatState] *)
Definition NewChatState : ChatState.t :=
  ChatState.mk "" InvalidUrl "" "" "" Builder.zero
    {[ "max_tokens" := VInt 2000 ]}
    ∅
    {[ "content-type" := "application/json" ]}
    TypeChat false false false.

(** ** The built-in profiles *)

Definition dq : string := String "034" EmptyString.

Definition Profiles : list (string * list string) := [
  ("llama.cpp", [
    "!api http://localhost:8080/";
    "!:cache_prompt true";
    "!:stop [" ++ dq ++ "<|im_end|>" ++ dq ++ "]" ]);
  ("huggingface.co", [
    "!api https://api-inference.huggingface.co/models/{model}/v1";
    "!>authorization Bearer $HF_TOKEN";
    "!>x-use-cache false";
    "!:model meta-llama/Llama-3.3-70B-Instruct" ]);
  ("qwen3", [
    "/no_think";
    "!:temperature 0.7";
    "!:min_p 0.0";
    "!:top_p 0.8";
    "!:top_k 20";
    "!exclude think" ]);
  ("qwen3-think", [
    "!:temperature 0.6";
    "!:min_p 0.0";
    "!:top_p 0.95";
    "!:top_k 20";
    "!:max_tokens 16384";
    "!exclude think" ]);
  ("qwen3-instruct", [
    "!:temperature 0.7";
    "!:min_p 0.0";
    "!:top_p 0.8";
    "!:top_k 20";
    "!:max_tokens 16384" ]);
  ("gemma-3", [
    "!:temperature 1.0";
    "!:top_k 64";
    "!:top_p 0.95";
    "!:min_p 0.01";
    "!:repeat_penalty 1.0" ]);
  ("gemini", [
    "!api https://generativelanguage.googleapis.com/v1beta";
    "!>authorization Bearer $GEMINI_API_KEY";
    "!:model gemini-2.5-pro-exp-03-25";
    "!:max_tokens 10000" ]);
  ("claude", [
    "!api " ++ dq ++ "https://api.anthropic.com/v1/messages" ++ dq;
    "!>anthropic-version 2023-06-01";
    "!>x-api-key $ANTHROPIC_API_KEY";
    "!:model claude-opus-4-0";
    "!:max_tokens 10000" ]);
  ("claude-extended", [
    "!profile claude";
    "!:max_tokens 20000";
    "!:thinking {" ++ dq ++ "type" ++ dq ++ ": " ++ dq ++ "enabled" ++ dq ++ ", "
      ++ dq ++ "budget_tokens" ++ dq ++ ": 10000}";
    "!exclude think" ]);
  ("openai", [
    "!api https://api.openai.com/v1";
    "!>authorization Bearer $OPENAI_API_KEY";
    "!:model gpt-4.1-mini";
    "!:max_tokens";
    "!:max_completion_tokens 10000" ]);
  ("fim:deepseek", [
    "!infill <｜begin▁of▁sentence｜>" ++
      "<｜fim▁begin｜>{prefix}<｜fim▁hole｜>{suffix}<｜fim▁end｜>" ]);
  ("fim:qwen", [
    "!infill <|fim_prefix|>{prefix}<|fim_suffix|>{suffix}<|fim_middle|>" ]);
  ("fim:granite", [
    "!infill <fim_prefix>{prefix}<fim_suffix>{suffix}<fim_middle>" ]);
  ("fim:mistral", [
    "!infill [SUFFIX]{suffix}[PREFIX]{prefix}" ]);
  ("fim:codellama", [
    "!infill  <PRE> {prefix} <SUF>{suffix} <MID>";
    "!:stop [" ++ dq ++ "<EOT>" ++ dq ++ "]" ])
].

(** [Profiles[profile]] *)
Fixpoint lookup_profile (table : list (string * list string)) (profile : string)
    : option (list string) :=
  match table with
  | [] => None
  | (name, lines) :: rest =>
      if String.eqb name profile then Some lines else lookup_profile rest profile
  end.

(** ** Outcomes of a run

    [Done]: the function returned normally; [Failed]: it returned an error;
    [Panic]: a run-time panic (index out of range); [Timeout]: the model ran
    out of the nesting budget it was given. *)
Inductive run (A : Type) :=
| Done (a : A)
| Failed (e : error)
| Panic
| Timeout.
Arguments Done {A} a.
Arguments Failed {A} e.
Arguments Panic {A}.
Arguments Timeout {A}.

(** ** The directive interpreter *)

Inductive Tag := TagNone | TagOpen | TagClose.

Definition byte_at (s : string) (i : nat) (c : ascii) : bool :=
  match String.get i s with
  | Some x => Ascii.eqb x c
  | None => false
  end.

Definition tagmatch (s tag : string) : Tag :=
  let n := String.length s in
  let m := String.length tag in
  if (2 <? n)%nat && byte_at s 0 "<" && byte_at s (n - 1) ">" then
    if (n =? m + 2)%nat then
      if String.eqb (String.substring 1 m s) tag then TagOpen else TagNone
    else if (n =? m + 3)%nat then
      if String.eqb (String.substring 2 m s) tag && byte_at s 1 "/"
      then TagClose else TagNone
    else TagNone
  else TagNone.

Definition Tag_eqb (a b : Tag) : bool :=
  match a, b with
  | TagNone, TagNone | TagOpen, TagOpen | TagClose, TagClose => true
  | _, _ => false
  end.

(** What one turn of the loop of [Load] does next. *)
Inductive flow (S : Type) :=
| Next (s : S)         (* [continue], or the end of the loop body *)
| Stop (s : S)         (* [break] *)
| Raise (e : error)    (* [return fmt.Errorf(...)] *)
| Stuck.               (* the nested load ran out of budget *)
Arguments Next {S} s.
Arguments Stop {S} s.
Arguments Raise {S} e.
Arguments Stuck {S}.

Section Interpreter.
Context {W : World}.
Import ChatState.

(** [s[:2]] and [s[2:]] for [len(s) > 2] *)
Definition prefix2 (s : string) : string := String.substring 0 2 s.
Definition from2 (s : string) : string :=
  String.substring 2 (String.length s - 2) s.
Definition from1 (s : string) : string :=
  String.substring 1 (String.length s - 1) s.

(** [hard, ok := s.UserSet[key]; ok && hard] *)
Definition hard (userset : gmap string bool) (key : string) : bool :=
  match userset !! key with
  | Some true => true
  | _ => false
  end.

(** The [!:KEY] branch of [Load]. *)
Definition set_body_field (key args : string) (depth : nat) (s : t) : t :=
  if (0 <? depth)%nat && hard (UserSet s) key then s
  else
    let args := TrimSpace args in
    let s :=
      set_Data s
        (if String.eqb args "" then delete key (Data s)
         else
           <[key := match json_Unmarshal args with
                    | None => VString args
                    | Some value => value
                    end]> (Data s)) in
    set_UserSet s (<[key := (depth =? 0)%nat]> (UserSet s)).

(** The value a [!:KEY] directive stores for its arguments, [None] when it
    deletes the key. *)
Definition body_value (args : string) : option value :=
  let args := TrimSpace args in
  if String.eqb args "" then None
  else Some match json_Unmarshal args with
            | None => VString args
            | Some value => value
            end.

(** The [!>KEY] branch of [Load]. *)
Definition set_header (key args : string) (s : t) : t :=
  let args := TrimSpace args in
  set_Headers s
    (if String.eqb args "" then delete key (Headers s)
     else <[key := ExpandEnv args]> (Headers s)).

(** An embedding collaborator writes into [s.Builder.Content]. *)
Definition embed (name : string) (lineno : Z) (s : t)
    (r : string * option error) : flow t :=
  match r with
  | (_, Some err) => Raise (ErrAt name lineno err)
  | (buf, None) =>
      Next (set_Builder s (Builder.mk (Builder.Messages (Builder s))
                                      (Builder.Role (Builder s)) buf))
  end.

(** The exclusion test at the head of the loop body: the state with which
    the line is skipped, or [None] when the line is interpreted. *)
Definition exclude_step (line : string) (s : t) : option t :=
  if (0 <? String.length (Exclude s))%nat then
    let match_ := tagmatch line (Exclude s) in
    if Excluding s
    then Some (set_Excluding s (negb (Tag_eqb match_ TagClose)))
    else if Tag_eqb match_ TagOpen then Some (set_Excluding s true)
    else None
  else None.

Section Loop.
(** [s.LoadProfile(profile, depth)], one nesting level further down. *)
Variable LoadProfile : string -> nat -> t -> run t.

(** The body of the loop of [Load] for one line. *)
Definition do_line (name line : string) (depth : nat) (lineno : Z) (s : t)
    : flow t :=
  let '(command, args, _) := cut line " " in
  match exclude_step line s with
  | Some s => Next s
  | None =>
  if strings.HasPrefix line "!!" then
    Next (set_Builder s (Builder.Append (Builder s) (from1 line)))
  else if String.eqb command "!profile" then
    match LoadProfile (TrimSpace args) depth s with
    | Done s => Next s
    | Failed err => Raise (ErrAt name lineno err)
    | Panic | Timeout => Stuck
    end
  else if String.eqb command "!debug" then Next (set_Debug s true)
  else if String.eqb command "!stats" then Next (set_Stats s true)
  else if String.eqb command "!prepend" then
    let args :=
      if (1 <? String.length args)%nat && byte_at args 0 "034" then
        match json_Unmarshal_string args with
        | Some a => a
        | None => args
        end
      else args in
    Next (set_Prepend s args)
  else if String.eqb command "!completion" then Next (set_Type s TypeCompletion)
  else if String.eqb command "!context" then
    embed name lineno s (addcontext (Builder.Content (Builder s)) line)
  else if String.eqb command "!reddit" then
    embed name lineno s
      (emitreddit (Builder.Content (Builder s)) (TrimSpace args) true)
  else if String.eqb command "!reddit!" then
    embed name lineno s
      (emitreddit (Builder.Content (Builder s)) (TrimSpace args) false)
  else if String.eqb command "!github" then
    embed name lineno s (emitgithub (Builder.Content (Builder s)) line)
  else if String.eqb command "!note" then Next s
  else if String.eqb command "!exclude" then Next (set_Exclude s (TrimSpace args))
  else if String.eqb command "!begin" then Next (set_Builder s Builder.zero)
  else if String.eqb command "!end" then Stop s
  else if String.eqb command "!api" then
    if String.eqb (Api s) InvalidUrl || (depth =? 0)%nat
    then Next (set_Api s (TrimSpace args))
    else Next s
  else if String.eqb command "!assistant" || String.eqb command "!user" then
    Next (set_Builder s (Builder.New (Builder s) (from1 command)))
  else if String.eqb command "!infill" then
    if String.eqb args "" then
      let s := if (0 <? String.length (FimTmpl s))%nat then set_Type s TypeFim
               else set_Type s TypeInfill in
      Next (set_Builder s (Builder.New (Builder s) "infill"))
    else Next (set_FimTmpl s args)
  else if (2 <? String.length command)%nat && String.eqb (prefix2 command) "!>" then
    Next (set_header (from2 command) args s)
  else if (2 <? String.length command)%nat && String.eqb (prefix2 command) "!:" then
    Next (set_body_field (from2 command) args depth s)
  else
    Next (set_Builder s (Builder.Append (Builder s) line))
  end.

(** The loop of [Load].  [n] bounds the turns; a turn removes at least one
    byte from [lines], so [length txt] turns are enough.  [lineno] cannot
    wrap: it is at most [len(txt)]. *)
Fixpoint Load_loop (n : nat) (name lines : string) (depth : nat) (lineno : Z)
    (s : t) : run t :=
  if String.eqb lines "" then Done s
  else
    match n with
    | O => Timeout
    | S n =>
        let '(line, lines, _) := cut lines LF in
        match do_line name line depth lineno s with
        | Next s => Load_loop n name lines depth (lineno + 1) s
        | Stop s => Done s
        | Raise e => Failed e
        | Stuck => Timeout
        end
    end.

End Loop.

(** The first half of [LoadProfile]: the body of a profile, from the table
    or from a file, or the error of the first read. *)
Definition profile_body (profile : string) : result string :=
  match lookup_profile Profiles profile with
  | Some lines => Ok (unlines lines)
  | None =>
      match ReadFile profile with
      | Ok buf => Ok buf
      | Err err =>
          if strings.ContainsAny profile "/\" then Err err
          else
            match Executable with
            | Err _ => Err err
            | Ok exe =>
                match ReadFile (Join (Dir exe) (profile ++ ".profile")) with
                | Err _ => Err err
                | Ok relbuf => Ok relbuf
                end
            end
      end
  end.

(** [LoadProfile], over the [Load] it calls. *)
Definition LoadProfile_body (Load : string -> string -> nat -> t -> run t)
    (profile : string) (depth : nat) (s : t) : run t :=
  match profile_body profile with
  | Err err => Failed err
  | Ok body => Load profile body (S depth) (set_Profile s profile)
  end.

(** [s.Load(name, txt, depth)].  [fuel] bounds how deep profiles may nest:
    Go recurses without a bound. *)
Fixpoint Load (fuel : nat) (name txt : string) (depth : nat) (s : t) : run t :=
  match fuel with
  | O => Timeout
  | S fuel =>
      Load_loop (LoadProfile_body (Load fuel)) (String.length txt)
                name txt depth 1 s
  end.

Definition LoadProfile (fuel : nat) (profile : string) (depth : nat) (s : t)
    : run t :=
  LoadProfile_body (Load fuel) profile depth s.

End Interpreter.

(** ** The request assembler: [query] up to the request it sends *)

Section Assembler.
Context {W : World}.
Import ChatState.

(** [state.Builder.New("")]: the builder it leaves in the state, and the
    slice it returns. *)
Definition flush (state : t) : t * list Message.t :=
  let b := Builder.New (Builder state) "" in
  (set_Builder state b, Builder.Messages b).

Definition set_field (key : string) (v : value) (state : t) : t :=
  set_Data state (<[key := v]> (Data state)).

(** [query] from the interpolation of the URL to [state.Data["stream"] =
    true]: the URL and the state whose [Data] is the body.  Indexing the
    empty slice panics. *)
Definition assemble (state : t) : run (string * t) :=
  match interpolate (Api state) (Data state) with
  | None => Timeout
  | Some (Err err) => Failed (ErrInterpolatingURL err)
  | Some (Ok api) =>
      let n := String.length api in
      let strictapi := (2 <? n)%nat && byte_at api 0 "034"
                       && byte_at api (n - 1) "034" in
      let api := if strictapi then String.substring 1 (n - 2) api else api in
      let api := if negb strictapi && negb (strings.HasSuffix api "/")
                 then api ++ "/" else api in
      let suffix (x : string) := if negb strictapi then api ++ x else api in
      let sent (r : run (string * t)) : run (string * t) :=
        match r with
        | Done (api, state) => Done (api, set_field "stream" (VBool true) state)
        | r => r
        end in
      sent
        match Type_ state with
        | TypeChat =>
            let '(state, messages) := flush state in
            Done (suffix "chat/completions",
                  set_field "messages" (VMessages messages) state)
        | TypeCompletion =>
            let '(state, messages) := flush state in
            match messages with
            | [] => Panic
            | m :: _ =>
                Done (suffix "completions",
                      set_field "prompt" (VString (Message.Content m)) state)
            end
        | TypeInfill =>
            let state := set_field "prompt" (VString "") state in
            let '(state, parts) := flush state in
            match parts with
            | [] => Panic
            | p0 :: rest =>
                let state :=
                  set_field "input_prefix"
                            (VString (Message.Content p0 ++ nl)) state in
                let state :=
                  match rest with
                  | p1 :: _ =>
                      set_field "input_suffix"
                                (VString (nl ++ Message.Content p1)) state
                  | [] => set_field "input_suffix" (VString "") state
                  end in
                Done (suffix "infill", state)
            end
        | TypeFim =>
            let '(state, parts) := flush state in
            match parts with
            | [] => Panic
            | p0 :: rest =>
                let vars : gmap string value :=
                  <["suffix" := VString ""]>
                    {[ "prefix" := VString (Message.Content p0 ++ nl) ]} in
                let vars :=
                  match rest with
                  | p1 :: _ =>
                      <["suffix" := VString (nl ++ Message.Content p1)]> vars
                  | [] => vars
                  end in
                match interpolate (FimTmpl state) vars with
                | None => Timeout
                | Some (Err err) => Failed (ErrInfill err)
                | Some (Ok prompt) =>
                    Done (suffix "completions",
                          set_field "prompt" (VString prompt) state)
                end
            end
        end
  end.

(** [query] up to and including the loading of the default profile. *)
Definition query_load (fuel : nat) (txt : string) : run t :=
  match Load fuel "<stdin>" txt 0 NewChatState with
  | Done state =>
      if String.eqb (Profile state) "" then
        let profile := Getenv "ILLUME_PROFILE" in
        let profile := if String.eqb profile "" then DefaultProfile else profile in
        LoadProfile fuel profile 1 state
      else Done state
  | r => r
  end.

(** The request [query] builds for a document. *)
Definition query_request (fuel : nat) (txt : string) : run (string * t) :=
  match query_load fuel txt with
  | Done state => assemble state
  | Failed err => Failed err
  | Panic => Panic
  | Timeout => Timeout
  end.

(** [body, _ := marshal(state.Data)] *)
Definition request_body (state : t) : string := marshal (VObject (Data state)).

End Assembler.

(** ** The streaming-response normaliser: the scanner loop of [query] *)

(** A Go [int] on a 64-bit platform. *)
Definition wrap64 (n : Z) : Z := ((n + 2^63) mod 2^64 - 2^63)%Z.

Module Stream.
Record t := mk {
  nthinking : Z;
  nevents : Z;
  w : string        (* what has been written to the output *)
}.
Definition init : t := mk 0 0 "".
End Stream.

Section Normaliser.
Context {W : World}.

(** [var r Response; json.Unmarshal(line, &r)]: invalid JSON is reported
    before anything is stored, and the error is dropped. *)
Definition Unmarshal_Response (line : string) : Response.t :=
  if json_Valid line then json_decode_Response line else Response.zero.

(** The body of the loop for the payload of one data frame. *)
Definition do_frame (line : string) (st : Stream.t) : Stream.t :=
  let r := Unmarshal_Response line in
  let '(nthinking, w) :=
    match Response.Choices r with
    | c :: _ =>
        let chat := Response.Choice.Content (Response.Choice.Delta c) in
        if (0 <? String.length chat)%nat then (Stream.nthinking st, Stream.w st ++ chat)
        else (Stream.nthinking st, Stream.w st ++ Response.Choice.Text c)
    | [] =>
        let thinking := Response.Anthropic.Thinking (Response.Delta r) in
        let text := Response.Anthropic.Text (Response.Delta r) in
        if (0 <? String.length thinking)%nat then
          let w := if (Stream.nthinking st =? 0)%Z
                   then Stream.w st ++ "<think>" ++ nl else Stream.w st in
          (wrap64 (Stream.nthinking st + 1), w ++ thinking)
        else if (0 <? String.length text)%nat then
          if (0 <? Stream.nthinking st)%Z
          then (0%Z, (Stream.w st ++ nl ++ "</think>" ++ nl ++ nl) ++ text)
          else (Stream.nthinking st, Stream.w st ++ text)
        else (Stream.nthinking st, Stream.w st ++ Response.Content r)
    end in
  Stream.mk nthinking (wrap64 (Stream.nevents st + 1)) w.

(** [line[6:]] *)
Definition from6 (s : string) : string :=
  String.substring 6 (String.length s - 6) s.

(** The loop over the lines the scanner yields. *)
Fixpoint stream_loop (lines : list string) (st : Stream.t) : Stream.t :=
  match lines with
  | [] => st
  | line :: rest =>
      if negb (strings.HasPrefix line "data: ") then stream_loop rest st
      else
        let line := from6 line in
        if String.eqb line "[DONE]" then st
        else stream_loop rest (do_frame line st)
  end.

(** The text the normaliser writes for a response. *)
Definition normalise (lines : list string) : string :=
  Stream.w (stream_loop lines Stream.init).

(** The line of a data frame with payload [p]. *)
Definition data (p : string) : string := "data: " ++ p.

(** A frame of the reasoning channel: no choices, and a thinking fragment
    [t] that is not empty. *)
Definition thinking_frame (p t : string) : Prop :=
  p <> "[DONE]" /\
  Response.Choices (Unmarshal_Response p) = [] /\
  Response.Anthropic.Thinking (Response.Delta (Unmarshal_Response p)) = t /\
  t <> "".

(** A frame of the text channel: no choices, no thinking, and a text
    fragment [x] that is not empty. *)
Definition text_frame (p x : string) : Prop :=
  p <> "[DONE]" /\
  Response.Choices (Unmarshal_Response p) = [] /\
  Response.Anthropic.Thinking (Response.Delta (Unmarshal_Response p)) = "" /\
  Response.Anthropic.Text (Response.Delta (Unmarshal_Response p)) = x /\
  x <> "".

(** Two states that differ in the event counter only. *)
Definition same_text (a b : Stream.t) : Prop :=
  Stream.w a = Stream.w b /\ Stream.nthinking a = Stream.nthinking b.

End Normaliser.

(** ** The tool-calling revision: builder and interpreter

    The revision of the program with a [tool] role: [Message] carries tool
    calls, [Builder.New] closes and opens tool responses, and [Load] knows
    [!tool], [!tool:NAME] and [!token]. *)

Module Tools.

Module Message.
Record ToolCall := mkToolCall { Name : string; Arguments : string }.
Record Function := mkFunction { Function_ : ToolCall }.
Record t := mk {
  Role : string;
  Content : string;
  ToolCalls : list Function
}.
End Message.

Module Builder.

Record t := mk {
  Messages : list Message.t;
  Role : string;
  Content : string
}.

Definition zero : t := mk [] "" "".

Definition Append (b : t) (line : string) : t :=
  mk (Messages b) (Role b) (Content b ++ line ++ nl).

Definition WriteString (b : t) (text : string) : t :=
  mk (Messages b) (Role b) (Content b ++ text).

Definition New (b : t) (role : string) : t :=
  let b := if String.eqb (Role b) "tool" then WriteString b "</tool_response>"
           else b in
  let content := strings.Trim (Content b) (String CR nl) in
  let b :=
    if negb (String.eqb content "") then
      let b := if String.eqb (Role b) "" then mk (Messages b) "system" (Content b)
               else b in
      mk (Messages b ++ [Message.mk (Role b) content []]) (Role b) (Content b)
    else b in
  let b :=
    if String.eqb role "tool"
    then mk (Messages b ++ [Message.mk "assistant" "" []]) (Role b) (Content b)
    else b in
  mk (Messages b) role "".

(** What [New] adds to the message list, in the words of its contract: the
    segment, closed first when it was a tool response, trimmed, dropped
    when empty, under the role it was written in ([system] when none); and
    the empty assistant message that goes with a switch to the tool role. *)
Definition closed_content (b : t) : string :=
  Content b ++ (if String.eqb (Role b) "tool" then "</tool_response>" else "").

Definition segment (b : t) : list Message.t :=
  let content := strings.Trim (closed_content b) (String CR nl) in
  if String.eqb content "" then []
  else [Message.mk (if String.eqb (Role b) "" then "system" else Role b)
                   content []].

Definition companion (role : string) : list Message.t :=
  if String.eqb role "tool" then [Message.mk "assistant" "" []] else [].

End Builder.

Module ChatState.

Record t := mk {
  Profile : string;
  Api : string;
  FimTmpl : string;
  Builder : Builder.t;
  Data : gmap string value;
  UserSet : gmap string bool;
  Headers : gmap string string;
  Tools : list value;
  Type_ : ChatType;
  Debug : bool;
  Stats : bool
}.

Definition set_Profile (s : t) (x : string) : t :=
  mk x (Api s) (FimTmpl s) (Builder s) (Data s) (UserSet s) (Headers s)
     (Tools s) (Type_ s) (Debug s) (Stats s).
Definition set_Api (s : t) (x : string) : t :=
  mk (Profile s) x (FimTmpl s) (Builder s) (Data s) (UserSet s) (Headers s)
     (Tools s) (Type_ s) (Debug s) (Stats s).
Definition set_FimTmpl (s : t) (x : string) : t :=
  mk (Profile s) (Api s) x (Builder s) (Data s) (UserSet s) (Headers s)
     (Tools s) (Type_ s) (Debug s) (Stats s).
Definition set_Builder (s : t) (x : Builder.t) : t :=
  mk (Profile s) (Api s) (FimTmpl s) x (Data s) (UserSet s) (Headers s)
     (Tools s) (Type_ s) (Debug s) (Stats s).
Definition set_Data (s : t) (x : gmap string value) : t :=
  mk (Profile s) (Api s) (FimTmpl s) (Builder s) x (UserSet s) (Headers s)
     (Tools s) (Type_ s) (Debug s) (Stats s).
Definition set_UserSet (s : t) (x : gmap string bool) : t :=
  mk (Profile s) (Api s) (FimTmpl s) (Builder s) (Data s) x (Headers s)
     (Tools s) (Type_ s) (Debug s) (Stats s).
Definition set_Headers (s : t) (x : gmap string string) : t :=
  mk (Profile s) (Api s) (FimTmpl s) (Builder s) (Data s) (UserSet s) x
     (Tools s) (Type_ s) (Debug s) (Stats s).
Definition set_Tools (s : t) (x : list value) : t :=
  mk (Profile s) (Api s) (FimTmpl s) (Builder s) (Data s) (UserSet s) (Headers s)
     x (Type_ s) (Debug s) (Stats s).
Definition set_Type (s : t) (x : ChatType) : t :=
  mk (Profile s) (Api s) (FimTmpl s) (Builder s) (Data s) (UserSet s) (Headers s)
     (Tools s) x (Debug s) (Stats s).
Definition set_Debug (s : t) (x : bool) : t :=
  mk (Profile s) (Api s) (FimTmpl s) (Builder s) (Data s) (UserSet s) (Headers s)
     (Tools s) (Type_ s) x (Stats s).
Definition set_Stats (s : t) (x : bool) : t :=
  mk (Profile s) (Api s) (FimTmpl s) (Builder s) (Data s) (UserSet s) (Headers s)
     (Tools s) (Type_ s) (Debug s) x.

End ChatState.

(** [NewChatState(token)] *)
Definition NewChatState (token : string) : ChatState.t :=
let headers : gmap string string := {[ "content-type" := "application/json" ]} in
ChatState.mk "" InvalidUrl "" Builder.zero
  {[ "max_tokens" := VInt 2000 ]}
  ∅
  (if negb (String.eqb token "")
   then <["authorization" := "Bearer " ++ token]> headers else headers)
  [] TypeChat false false.

Definition Profiles : list (string * list string) := [
("llama.cpp", [
  "!api http://localhost:8080/v1";
  "!:cache_prompt true";
  "!:stop [" ++ dq ++ "<|im_end|>" ++ dq ++ "]" ]);
("huggingface.co", [
  "!api https://api-inference.huggingface.co/models/{model}/v1";
  "!:model meta-llama/Llama-3.3-70B-Instruct";
  "!>x-use-cache false" ]);
("together", [
  "!api https://huggingface.co/api/inference-proxy/together/v1";
  "!:model deepseek-ai/DeepSeek-R1";
  "!profile fim:deepseek";
  "!:temperature 0.6";
  "!:max_tokens 10000" ]);
("fim:deepseek", [
  "!infill <｜begin▁of▁sentence｜>" ++
    "<｜fim▁begin｜>{prefix}<｜fim▁hole｜>{suffix}<｜fim▁end｜>" ]);
("fim:qwen", [
  "!infill <|fim_prefix|>{prefix}<|fim_suffix|>{suffix}<|fim_middle|>" ]);
("fim:granite", [
  "!infill <fim_prefix>{prefix}<fim_suffix>{suffix}<fim_middle>" ]);
("fim:mistral", [
  "!infill [SUFFIX]{suffix}[PREFIX]{prefix}" ]);
("fim:codellama", [
  "!infill  <PRE> {prefix} <SUF>{suffix} <MID>";
  "!:stop [" ++ dq ++ "<EOT>" ++ dq ++ "]" ])
].

(** The tool description [!tool:readfile] registers. *)
Definition readfile_tool : value :=
VObject (<["type" := VString "function"]> {[
  "function" := VObject (<["name" := VString "readfile"]> (
    <["description" := VString "Read the contents of a file."]> (
    <["parameters" := VObject (<["type" := VString "object"]> {[
        "properties" := VObject {[
          "path" := VObject (<["type" := VString "string"]> {[
            "description" := VString "Path to an existing file." ]}) ]} ]})]> {[
    "required" := VArray [VString "path"] ]}))) ]}).

(** [command[6:]] *)
Definition from6 (s : string) : string :=
String.substring 6 (String.length s - 6) s.

Section Interpreter.
Context {W : World}.
Import ChatState.

Definition set_body_field (key args : string) (depth : nat) (s : t) : t :=
if (0 <? depth)%nat && hard (UserSet s) key then s
else
  let args := TrimSpace args in
  let s :=
    set_Data s
      (if String.eqb args "" then delete key (Data s)
       else
         <[key := match json_Unmarshal args with
                  | None => VString args
                  | Some value => value
                  end]> (Data s)) in
  set_UserSet s (<[key := (depth =? 0)%nat]> (UserSet s)).

Definition set_header (key args : string) (s : t) : t :=
let args := TrimSpace args in
set_Headers s
  (if String.eqb args "" then delete key (Headers s)
   else <[key := args]> (Headers s)).

Definition set_token (args : string) (s : t) : t :=
let token := TrimSpace args in
set_Headers s
  (if String.eqb token "" then delete "authorization" (Headers s)
   else <["authorization" := "Bearer " ++ token]> (Headers s)).

Section Loop.
Variable LoadProfile : string -> nat -> t -> run t.

Definition do_line (name line : string) (depth : nat) (lineno : Z) (s : t)
  : flow t :=
let '(command, args, _) := cut line " " in
if strings.HasPrefix line "!!" then
  Next (set_Builder s (Builder.Append (Builder s) (from1 line)))
else if String.eqb command "!profile" then
  match LoadProfile (TrimSpace args) depth s with
  | Done s => Next s
  | Failed err => Raise (ErrAt name lineno err)
  | Panic | Timeout => Stuck
  end
else if String.eqb command "!token" then Next (set_token args s)
else if String.eqb command "!debug" then Next (set_Debug s true)
else if String.eqb command "!stats" then Next (set_Stats s true)
else if String.eqb command "!completion" then Next (set_Type s TypeCompletion)
else if String.eqb command "!context" then
  match addcontext (Builder.Content (Builder s)) line with
  | (_, Some err) => Raise (ErrAt name lineno err)
  | (buf, None) =>
      Next (set_Builder s (Builder.mk (Builder.Messages (Builder s))
                                      (Builder.Role (Builder s)) buf))
  end
else if String.eqb command "!note" then Next s
else if String.eqb command "!begin" then Next (set_Builder s Builder.zero)
else if String.eqb command "!end" then Stop s
else if String.eqb command "!api" then
  if String.eqb (Api s) InvalidUrl || (depth =? 0)%nat
  then Next (set_Api s (TrimSpace args))
  else Next s
else if String.eqb command "!assistant" || String.eqb command "!user" then
  Next (set_Builder s (Builder.New (Builder s) (from1 command)))
else if String.eqb command "!tool" then
  Next (set_Builder s
          (Builder.WriteString (Builder.New (Builder s) "tool")
                               ("<tool_response>" ++ nl)))
else if String.eqb command "!infill" then
  if String.eqb args "" then
    let s := if (0 <? String.length (FimTmpl s))%nat then set_Type s TypeFim
             else set_Type s TypeInfill in
    Next (set_Builder s (Builder.New (Builder s) "infill"))
  else Next (set_FimTmpl s args)
else if strings.HasPrefix command "!tool:" then
  if String.eqb (from6 command) "readfile"
  then Next (set_Tools s (Tools s ++ [readfile_tool]))
  else Next s
else if (2 <? String.length command)%nat && String.eqb (prefix2 command) "!>" then
  Next (set_header (from2 command) args s)
else if (2 <? String.length command)%nat && String.eqb (prefix2 command) "!:" then
  Next (set_body_field (from2 command) args depth s)
else
  Next (set_Builder s (Builder.Append (Builder s) line)).

Fixpoint Load_loop (n : nat) (name lines : string) (depth : nat) (lineno : Z)
  (s : t) : run t :=
if String.eqb lines "" then Done s
else
  match n with
  | O => Timeout
  | S n =>
      let '(line, lines, _) := cut lines LF in
      match do_line name line depth lineno s with
      | Next s => Load_loop n name lines depth (lineno + 1) s
      | Stop s => Done s
      | Raise e => Failed e
      | Stuck => Timeout
      end
  end.

End Loop.

Definition profile_body (profile : string) : result string :=
match lookup_profile Profiles profile with
| Some lines => Ok (unlines lines)
| None => ReadFile profile
end.

Definition LoadProfile_body (Load : string -> string -> nat -> t -> run t)
  (profile : string) (depth : nat) (s : t) : run t :=
match profile_body profile with
| Err err => Failed err
| Ok body => Load profile body (S depth) (set_Profile s profile)
end.

Fixpoint Load (fuel : nat) (name txt : string) (depth : nat) (s : t) : run t :=
match fuel with
| O => Timeout
| S fuel =>
    Load_loop (LoadProfile_body (Load fuel)) (String.length txt)
              name txt depth 1 s
end.

End Interpreter.

End Tools.

(** ** Templates: the keys a template refers to *)

Section Templates.
(** Read off with the same two cuts as [interpolate]. *)
Fixpoint placeholders_loop (fuel : nat) (s : string) : list string :=
  match fuel with
  | O => []
  | S fuel =>
      let '(_, key, ok) := cut s "{" in
      if negb ok then []
      else
        let '(key, s, ok) := cut key "}" in
        if negb ok then [] else key :: placeholders_loop fuel s
  end.

Definition placeholders (s : string) : list string :=
  placeholders_loop (S (String.length s)) s.

End Templates.

(** ** A world for worked examples

    No files, an empty environment, and a codec that knows nothing but
    integers and the two shapes of a reasoning stream,
    [{"delta":{"thinking":"..."}}] and [{"delta":{"text":"..."}}], with
    fragments free of quotes and backslashes: enough to run the program on
    documents and streams that need no more. *)

Definition sample_json_text (v : value) : string :=
  match v with
  | VInt n => pretty n
  | VBool true => "true"
  | VBool false => "false"
  | VNil => "null"
  | _ => ""
  end.

Definition thinking_open : string :=
  "{" ++ dq ++ "delta" ++ dq ++ ":{" ++ dq ++ "thinking" ++ dq ++ ":" ++ dq.
Definition text_open : string :=
  "{" ++ dq ++ "delta" ++ dq ++ ":{" ++ dq ++ "text" ++ dq ++ ":" ++ dq.
Definition delta_close : string := dq ++ "}}".

(** The text of [s] between [pre] and [suf]. *)
Definition between (pre suf s : string) : option string :=
  let n := String.length s in
  let a := String.length pre in
  let b := String.length suf in
  if strings.HasPrefix s pre && strings.HasSuffix s suf && (a + b <=? n)%nat then
    let t := String.substring a (n - a - b) s in
    if strings.ContainsAny t (dq ++ "\") then None else Some t
  else None.

Definition sample_decode (p : string) : option Response.t :=
  match between thinking_open delta_close p with
  | Some t => Some (Response.mk "" [] (Response.Anthropic.mk "" t))
  | None =>
      match between text_open delta_close p with
      | Some x => Some (Response.mk "" [] (Response.Anthropic.mk x ""))
      | None => None
      end
  end.

Definition sample_world : World := {|
  json_Unmarshal := fun _ => None;
  json_Unmarshal_string := fun _ => None;
  json_Valid := fun p => bool_decide (is_Some (sample_decode p));
  json_decode_Response := fun p => default Response.zero (sample_decode p);
  json_text := sample_json_text;
  TrimFunc_IsSpace := fun s => s;
  TrimRightFunc_IsSpace := fun s => s;
  ExpandEnv := fun s => s;
  Getenv := fun _ => "";
  Executable := Err (ErrOS "no executable");
  ReadFile := fun path => Err (ErrOS ("open " ++ path ++ ": no such file or directory"));
  Dir := fun s => s;
  Join := fun a b => a ++ "/" ++ b;
  addcontext := fun buf _ => (buf, Some (ErrOS "no such file or directory"));
  emitreddit := fun buf _ _ => (buf, Some (ErrOS "no such file or directory"));
  emitgithub := fun buf _ => (buf, Some (ErrOS "no such file or directory"))
|}.

(** ** Documents that never mention a body field

    [never_sets fuel key txt]: no line of [txt] is a [!:key] directive, and
    the same holds, [fuel] levels down, for the body of every profile a
    [!profile] line of [txt] names.  Lines are taken as they stand, whether
    the interpreter would skip them or not. *)

Section Mentions.
Context {W : World}.

Fixpoint never_sets_loop (quiet_profile : string -> bool) (n : nat)
    (key lines : string) : bool :=
  if String.eqb lines "" then true
  else
    match n with
    | O => false
    | S n =>
        let '(line, lines, _) := cut lines LF in
        let '(command, args, _) := cut line " " in
        negb (String.eqb command ("!:" ++ key))
        && (if String.eqb command "!profile" then quiet_profile (TrimSpace args)
            else true)
        && never_sets_loop quiet_profile n key lines
    end.

Definition never_sets_profile (never_sets : string -> bool) (profile : string)
    : bool :=
  match profile_body profile with
  | Ok body => never_sets body
  | Err _ => true
  end.

Fixpoint never_sets (fuel : nat) (key txt : string) : bool :=
  match fuel with
  | O => false
  | S fuel =>
      never_sets_loop (never_sets_profile (never_sets fuel key))
                      (String.length txt) key txt
  end.

(** Neither the document nor the profile [query] loads by default. *)
Definition never_mentions (fuel : nat) (key txt : string) : bool :=
  never_sets fuel key txt
  && never_sets_profile (never_sets fuel key)
       (let profile := Getenv "ILLUME_PROFILE" in
        if String.eqb profile "" then DefaultProfile else profile).

End Mentions.

(** ** Documents used in the examples *)

Definition hello_document : string :=
  unlines ["!user"; "Hello"; "!assistant"; "Hi there"].

(** A body field, and the URL, of the request of a run. *)
Definition field_of (r : run (string * ChatState.t)) (key : string)
    : option value :=
  match r with
  | Done (_, state) => ChatState.Data state !! key
  | _ => None
  end.

Definition url_of (r : run (string * ChatState.t)) : option string :=
  match r with
  | Done (url, _) => Some url
  | _ => None
  end.


(** ** Results of [interpolate], composed

    [prepend b r]: the result [r] with [b] written before its text;
    [value_text v]: the text [interpolate] writes for a value. *)

Section InterpolationParts.
Context {W : World}.

Definition prepend (b : string) (r : option (result string))
    : option (result string) :=
  match r with
  | Some (Ok text) => Some (Ok (b ++ text))
  | other => other
  end.

Definition value_text (v : value) : string :=
  match v with
  | VString svalue => svalue
  | _ => marshal v
  end.

End InterpolationParts.

(** ** A world with a profile that includes itself *)

Definition loop_world : World := {|
  json_Unmarshal := @json_Unmarshal sample_world;
  json_Unmarshal_string := @json_Unmarshal_string sample_world;
  json_Valid := @json_Valid sample_world;
  json_decode_Response := @json_decode_Response sample_world;
  json_text := @json_text sample_world;
  TrimFunc_IsSpace := @TrimFunc_IsSpace sample_world;
  TrimRightFunc_IsSpace := @TrimRightFunc_IsSpace sample_world;
  ExpandEnv := @ExpandEnv sample_world;
  Getenv := @Getenv sample_world;
  Executable := @Executable sample_world;
  ReadFile := fun path =>
    if String.eqb path "loop" then Ok ("!profile loop" ++ nl)
    else @ReadFile sample_world path;
  Dir := @Dir sample_world;
  Join := @Join sample_world;
  addcontext := @addcontext sample_world;
  emitreddit := @emitreddit sample_world;
  emitgithub := @emitgithub sample_world
|}.

(** ** Well-formed transcripts

    [turn_role]: a role a directive can switch to.  [sound_content]: a
    content that is not empty and has nothing left to trim.
    [sound_roles]: only the first message may be a system message.
    [tidy]: what the interpreter keeps true of its builder. *)

Definition turn_role (role : string) : Prop :=
  role = "user" \/ role = "assistant" \/ role = "infill".

Definition sound_content (m : Message.t) : Prop :=
  Message.Content m <> "" /\
  strings.Trim (Message.Content m) (String CR nl) = Message.Content m.

Definition sound_roles (messages : list Message.t) : Prop :=
  match messages with
  | [] => True
  | m :: rest =>
      (Message.Role m = "system" \/ turn_role (Message.Role m)) /\
      Forall (fun m => turn_role (Message.Role m)) rest
  end.

Definition tidy (b : Builder.t) : Prop :=
  (Builder.Role b = "" \/ turn_role (Builder.Role b))
  /\ (Builder.Role b = "" -> Builder.Messages b = [])
  /\ Forall sound_content (Builder.Messages b)
  /\ sound_roles (Builder.Messages b).

(** ** The endpoint of a request

    [quoted api]: the URL is written in quotes, to be taken as it stands;
    [mode_suffix]: the path [query] adds for a mode otherwise. *)

Definition quoted (api : string) : bool :=
  let n := String.length api in
  (2 <? n)%nat && byte_at api 0 "034" && byte_at api (n - 1) "034".

Definition mode_suffix (type : ChatType) : string :=
  match type with
  | TypeChat => "chat/completions"
  | TypeCompletion => "completions"
  | TypeInfill => "infill"
  | TypeFim => "completions"
  end.

(** ** Frames of a response *)

Section Frames.
Context {W : World}.

(** [is_data line]: the line is a data frame. *)
Definition is_data (line : string) : bool := strings.HasPrefix line "data: ".

(** A frame outside the reasoning channel, with the text [x] it carries: the
    delta of its first choice, or the text of that choice when the delta is
    empty; or, without choices, thinking or text, its content field. *)
Definition plain_frame (p x : string) : Prop :=
  p <> "[DONE]" /\
  match Response.Choices (Unmarshal_Response p) with
  | c :: _ =>
      x = if String.eqb (Response.Choice.Content (Response.Choice.Delta c)) ""
          then Response.Choice.Text c
          else Response.Choice.Content (Response.Choice.Delta c)
  | [] =>
      Response.Anthropic.Thinking (Response.Delta (Unmarshal_Response p)) = "" /\
      Response.Anthropic.Text (Response.Delta (Unmarshal_Response p)) = "" /\
      x = Response.Content (Unmarshal_Response p)
  end.

(** The data frames the loop reads: those before the end-of-stream line. *)
Fixpoint frames_read (lines : list string) : nat :=
  match lines with
  | [] => 0
  | line :: rest =>
      if negb (is_data line) then frames_read rest
      else if String.eqb (from6 line) "[DONE]" then 0
      else S (frames_read rest)
  end.

End Frames.

(** ** A world that decodes chat deltas

    The sample world, with a decoder for the shape
    [{"choices":[{"delta":{"content":"..."}}]}]. *)

Definition chat_open : string :=
  "{" ++ dq ++ "choices" ++ dq ++ ":[{" ++ dq ++ "delta" ++ dq ++ ":{"
  ++ dq ++ "content" ++ dq ++ ":" ++ dq.
Definition chat_close : string := dq ++ "}}]}".

Definition chat_decode (p : string) : option Response.t :=
  match between chat_open chat_close p with
  | Some x =>
      Some (Response.mk ""
              [Response.Choice.mk "" (Response.Choice.mkdelta x)]
              (Response.Anthropic.mk "" ""))
  | None => None
  end.

Definition chat_world : World := {|
  json_Unmarshal := @json_Unmarshal sample_world;
  json_Unmarshal_string := @json_Unmarshal_string sample_world;
  json_Valid := fun p => bool_decide (is_Some (chat_decode p));
  json_decode_Response := fun p => default Response.zero (chat_decode p);
  json_text := @json_text sample_world;
  TrimFunc_IsSpace := @TrimFunc_IsSpace sample_world;
  TrimRightFunc_IsSpace := @TrimRightFunc_IsSpace sample_world;
  ExpandEnv := @ExpandEnv sample_world;
  Getenv := @Getenv sample_world;
  Executable := @Executable sample_world;
  ReadFile := @ReadFile sample_world;
  Dir := @Dir sample_world;
  Join := @Join sample_world;
  addcontext := @addcontext sample_world;
  emitreddit := @emitreddit sample_world;
  emitgithub := @emitgithub sample_world
|}.

(** ** [addfile]: a file as a fenced block *)

Section Embedding.
Context {W : World}.

(** The inner loop of [addfile]: the backticks a line begins with. *)
Fixpoint backticks (line : string) : nat :=
  match line with
  | String "`" rest => S (backticks rest)
  | _ => 0
  end.

(** The outer loop of [addfile] over the lines of the file; [n] bounds its
    turns as in [Load_loop]. *)
Fixpoint widest_run (n : nat) (lines : string) (max : nat) : nat :=
  if String.eqb lines "" then max
  else
    match n with
    | O => max
    | S n =>
        let '(line, lines, _) := cut lines LF in
        let k := backticks line in
        widest_run n lines (if (max <? k)%nat then k else max)
    end.

(** [k] backticks. *)
Fixpoint fence (k : nat) : string :=
  match k with
  | O => ""
  | S k => String "`" (fence k)
  end.

(** [addfile(w, path, name)]: the buffer it leaves and its error. *)
Definition addfile (w path name : string) : string * option error :=
  match ReadFile path with
  | Err err => (w, Some err)
  | Ok txt =>
      let w := w ++ "**`" ++ name ++ "`**" ++ nl in
      let max := widest_run (String.length txt) txt 2 in
      let w := w ++ fence (max + 1) ++ nl in
      let w := w ++ txt in
      let w := w ++ fence (max + 1) ++ nl ++ nl in
      (w, None)
  end.

End Embedding.

(** ** Keys a text leaves to its profiles

    [own_lines_silent key txt]: no line of [txt] itself has the command
    [!:key]; the profiles it includes may have one. *)

Section OwnLines.
Context {W : World}.

Definition own_lines_silent (key txt : string) : bool :=
  never_sets_loop (fun _ => true) (String.length txt) key txt.

End OwnLines.

(** ** Templates and their replacements, as the specification words them

    [replacement v]: what stands for a placeholder whose value is [v]: a
    string as it is, any other value as its JSON text and a newline.
    [template parts tail]: the template that has, for every part, a text
    and a placeholder, and then [tail].  [filled vars parts tail]: the same
    with every placeholder replaced. *)

Section Replacements.
Context {W : World}.

Definition replacement (v : value) : string :=
  match v with
  | VString svalue => svalue
  | _ => json_text v ++ nl
  end.

Fixpoint template (parts : list (string * string)) (tail : string) : string :=
  match parts with
  | [] => tail
  | (pre, key) :: parts => pre ++ "{" ++ key ++ "}" ++ template parts tail
  end.

Fixpoint filled (vars : gmap string value) (parts : list (string * string))
    (tail : string) : string :=
  match parts with
  | [] => tail
  | (pre, key) :: parts =>
      pre ++ from_option replacement "" (vars !! key) ++ filled vars parts tail
  end.

End Replacements.

(** ** The reasoning markup, as the specification words it

    A fragment is what a frame carries: thinking, text, or anything else.
    [markup thinking fs] is the text for the fragments [fs], [thinking]
    telling whether thinking is going on: the opening marker goes before a
    thinking fragment when none is going on, the closing marker before a
    text fragment when one is. *)

Inductive fragment :=
  | Thinking (t : string)
  | Text (x : string)
  | Plain (x : string).

Definition is_thinking (f : fragment) : bool :=
  match f with Thinking _ => true | _ => false end.

Definition is_text (f : fragment) : bool :=
  match f with Text _ => true | _ => false end.

Definition fragment_text (f : fragment) : string :=
  match f with Thinking t => t | Text x => x | Plain x => x end.

Fixpoint texts (fs : list fragment) : string :=
  match fs with
  | [] => ""
  | f :: fs => fragment_text f ++ texts fs
  end.

Fixpoint markup (thinking : bool) (fs : list fragment) : string :=
  match fs with
  | [] => ""
  | Thinking t :: fs =>
      (if thinking then "" else "<think>" ++ nl) ++ t ++ markup true fs
  | Text x :: fs =>
      (if thinking then nl ++ "</think>" ++ nl ++ nl else "") ++ x
      ++ markup false fs
  | Plain x :: fs => x ++ markup thinking fs
  end.

Fixpoint still_thinking (thinking : bool) (fs : list fragment) : bool :=
  match fs with
  | [] => thinking
  | Thinking _ :: fs => still_thinking true fs
  | Text _ :: fs => still_thinking false fs
  | Plain _ :: fs => still_thinking thinking fs
  end.

Section Fragments.
Context {W : World}.

(** [carries p f]: the payload [p] carries the fragment [f]. *)
Definition carries (p : string) (f : fragment) : Prop :=
  match f with
  | Thinking t => thinking_frame p t
  | Text x => text_frame p x
  | Plain x => plain_frame p x
  end.

(** [reads line f]: the loop reads [line] as the fragment [f], or, for
    [None], passes over it because it is no data frame. *)
Definition reads (line : string) (f : option fragment) : Prop :=
  match f with
  | None => is_data line = false
  | Some f => exists p, line = data p /\ carries p f
  end.

(** The fragments of the lines of a stream. *)
Fixpoint fragments (lines : list (string * option fragment)) : list fragment :=
  match lines with
  | [] => []
  | (_, Some f) :: lines => f :: fragments lines
  | (_, None) :: lines => fragments lines
  end.

End Fragments.

(** * Properties *)

(** ** [cut] and [interpolate] *)

Section Interpolation.
Context {W : World}.

Lemma append_cons c (s1 s2 : string) : String c s1 ++ s2 = String c (s1 ++ s2).
Proof. reflexivity. Qed.

Lemma length_append (s1 s2 : string) :
  String.length (s1 ++ s2) = String.length s1 + String.length s2.
Proof.
  induction s1 as [|c s1 IH]; [reflexivity|].
  rewrite append_cons. simpl. by rewrite IH.
Qed.

Lemma append_empty_r (s : string) : s ++ "" = s.
Proof.
  induction s as [|c s IH]; [reflexivity|]. rewrite append_cons. by f_equal.
Qed.

Lemma cut_found s b pre post :
  cut s b = (pre, post, true) ->
  s = pre ++ String b post /\ strings.IndexByte pre b = false.
Proof.
  revert pre post. induction s as [|c s IH]; intros pre post; simpl.
  - discriminate.
  - destruct (Ascii.eqb_spec c b) as [->|Hne].
    + intros [= <- <-]. auto.
    + destruct (cut s b) as [[p q] ok]. intros [= <- <- ->].
      destruct (IH p q eq_refl) as [-> Hp]. split; [reflexivity|].
      simpl. rewrite Hp. by destruct (Ascii.eqb_spec c b).
Qed.

Lemma cut_missing s b pre post :
  cut s b = (pre, post, false) -> pre = s /\ post = "".
Proof.
  revert pre post. induction s as [|c s IH]; intros pre post; simpl.
  - intros [= <- <-]. auto.
  - destruct (Ascii.eqb c b); [discriminate|].
    destruct (cut s b) as [[p q] ok]. intros [= <- <- ->].
    destruct (IH p q eq_refl) as [-> ->]. auto.
Qed.

(** Cutting finds the first [b]. *)
Lemma cut_app pre b post :
  strings.IndexByte pre b = false ->
  cut (pre ++ String b post) b = (pre, post, true).
Proof.
  induction pre as [|c pre IH]; simpl.
  - by rewrite Ascii.eqb_refl.
  - intros H. apply orb_false_iff in H as [Hc Hpre].
    rewrite Hc, (IH Hpre). reflexivity.
Qed.

Lemma cut_length s b pre post :
  cut s b = (pre, post, true) ->
  String.length s = S (String.length pre + String.length post).
Proof.
  intros H. apply cut_found in H as [-> _].
  rewrite length_append. simpl. lia.
Qed.

Lemma cut_shorter s b pre post ok :
  cut s b = (pre, post, ok) -> s <> "" -> String.length post < String.length s.
Proof.
  intros H Hs. destruct ok.
  - apply cut_length in H. lia.
  - apply cut_missing in H as [-> ->]. destruct s; [done|simpl; lia].
Qed.

Lemma interpolate_loop_total fuel s vars b :
  String.length s < fuel -> is_Some (interpolate_loop fuel s vars b).
Proof.
  revert s b. induction fuel as [|fuel IH]; intros s b Hlen; [lia|].
  simpl. destruct (cut s "{") as [[pre key] ok] eqn:E1.
  destruct ok; simpl; [|eauto].
  destruct (cut key "}") as [[k rest] ok] eqn:E2.
  destruct ok; simpl; [|eauto].
  apply cut_length in E1. apply cut_length in E2.
  destruct (vars !! k) as [v|]; [|eauto].
  destruct v; apply IH; lia.
Qed.

(** [interpolate] returns for every template and mapping. *)
Lemma interpolate_total s vars : is_Some (interpolate s vars).
Proof. apply interpolate_loop_total. lia. Qed.

Lemma interpolate_loop_missing fuel s vars key :
  key ∈ placeholders_loop fuel s ->
  vars !! key = None ->
  exists k, k ∈ placeholders_loop fuel s /\ vars !! k = None /\
    forall b, interpolate_loop fuel s vars b = Some (Err (ErrMissingKey k)).
Proof.
  revert s. induction fuel as [|fuel IH]; intros s Hin Hnone; simpl in *.
  - by apply elem_of_nil in Hin.
  - destruct (cut s "{") as [[pre rest] ok]. destruct ok; simpl in *;
      [|by apply elem_of_nil in Hin].
    destruct (cut rest "}") as [[k rest'] ok]. destruct ok; simpl in *;
      [|by apply elem_of_nil in Hin].
    destruct (vars !! k) as [v|] eqn:Hk.
    + apply elem_of_cons in Hin as [->|Hin]; [congruence|].
      destruct (IH rest' Hin Hnone) as (k' & Hk' & Hn & Hrun).
      exists k'. split; [by apply elem_of_cons; right|]. split; [done|].
      intros b. destruct v; apply Hrun.
    + exists k. split; [by apply elem_of_cons; left|]. done.
Qed.

(** C2. With [a] bound to ["x"] and [b] to ["y"], the template ["{a}/{b}"]
    interpolates to ["x/y"].  A template that refers to a key the mapping
    lacks fails with a missing-key error, naming a key it refers to and the
    mapping lacks; so does ["{a}/{b}"] without [b], naming [b].  The
    template ["{a"], whose brace is never closed, fails with the
    unmatched-brace error, whatever the mapping. *)
Theorem interpolate_spec :
  interpolate "{a}/{b}" {[ "a" := VString "x"; "b" := VString "y" ]}
    = Some (Ok "x/y")
  /\ (forall s vars key,
        key ∈ placeholders s -> vars !! key = None ->
        exists k, k ∈ placeholders s /\ vars !! k = None /\
                  interpolate s vars = Some (Err (ErrMissingKey k)))
  /\ interpolate "{a}/{b}" {[ "a" := VString "x" ]}
       = Some (Err (ErrMissingKey "b"))
  /\ (forall vars, interpolate "{a" vars = Some (Err ErrUnmatched)).
Proof.
  split; [reflexivity|]. split; [|split; [reflexivity|reflexivity]].
  intros s vars key Hin Hnone.
  destruct (interpolate_loop_missing _ _ _ _ Hin Hnone) as (k & Hk & Hn & Hrun).
  exists k. split; [exact Hk|]. split; [exact Hn|]. apply Hrun.
Qed.

Lemma interpolate_single key v vars :
  strings.IndexByte key "}" = false ->
  vars !! key = Some v ->
  interpolate ("{" ++ key ++ "}") vars
  = Some (Ok (match v with VString svalue => svalue | _ => marshal v end)).
Proof.
  intros Hkey Hv. unfold interpolate.
  change ("{" ++ key ++ "}") with (String "{" (key ++ "}")).
  cbn [String.length interpolate_loop].
  cbn [cut Ascii.eqb Bool.eqb negb]. rewrite (cut_app key "}" "" Hkey).
  cbn [negb]. rewrite Hv.
  destruct v; cbn [cut negb]; rewrite !append_empty_r; reflexivity.
Qed.

End Interpolation.

(** The second part of C2 at the template ["{a}/{b}"] and a mapping without
    [b]. *)
Lemma interpolate_spec_witness :
  exists k, @interpolate sample_world "{a}/{b}" {[ "a" := VString "x" ]}
            = Some (Err (ErrMissingKey k)).
Proof.
  destruct (proj1 (proj2 (@interpolate_spec sample_world))
              "{a}/{b}" {[ "a" := VString "x" ]} "b") as (k & _ & _ & H).
  - vm_compute. apply elem_of_cons; right. apply elem_of_cons; left. reflexivity.
  - reflexivity.
  - exists k. exact H.
Defined.

(** ** The directive interpreter *)

Section InterpreterFacts.
Context {W : World}.
Import ChatState.

Lemma substring_all (s : string) : String.substring 0 (String.length s) s = s.
Proof. induction s as [|c s IH]; simpl; [reflexivity|]. by rewrite IH. Qed.

Lemma substring_none (s : string) : String.substring 0 0 s = "".
Proof. by destruct s. Qed.

(** A command longer than its two-byte prefix is the prefix and the key. *)
Lemma prefix2_from2 (command : string) :
  (2 <? String.length command)%nat = true ->
  command = prefix2 command ++ from2 command /\ from2 command <> "".
Proof.
  destruct command as [|a [|b [|c rest]]]; simpl; try discriminate.
  intros _. unfold prefix2, from2. simpl. rewrite substring_all. done.
Qed.

Lemma from2_app (key : string) : from2 ("!:" ++ key) = key.
Proof. unfold from2. simpl. rewrite Nat.sub_0_r. apply substring_all. Qed.

Lemma prefix2_app (a b : ascii) (key : string) :
  prefix2 (String a (String b key)) = String a (String b "").
Proof. unfold prefix2. simpl. by rewrite substring_none. Qed.

(** What a turn of the loop can do to the fields the override rules are
    about: hand over to a nested profile, leave them alone, take the [!api]
    branch, or take the [!:] branch. *)
Lemma do_line_inv LP name line depth lineno s s' command args ok :
  cut line " " = (command, args, ok) ->
  do_line LP name line depth lineno s = Next s' \/
  do_line LP name line depth lineno s = Stop s' ->
  (command = "!profile" /\ LP (TrimSpace args) depth s = Done s')
  \/ (Data s' = Data s /\ UserSet s' = UserSet s /\ Api s' = Api s)
  \/ (command = "!api" /\
        (String.eqb (Api s) InvalidUrl || (depth =? 0)%nat) = true /\
        s' = set_Api s (TrimSpace args))
  \/ (exists key, command = "!:" ++ key /\ key <> "" /\
        s' = set_body_field key args depth s).
Proof.
  intros Hcut. unfold do_line. rewrite Hcut.
  destruct (exclude_step line s) as [s0|] eqn:Hex.
  { unfold exclude_step in Hex.
    repeat match type of Hex with
           | context [if ?c then _ else _] => destruct c
           end; try discriminate; injection Hex as <-;
      (intros [[= <-]|[=]]; right; left; done). }
  destruct (LP (TrimSpace args) depth s) as [s1|e| |];
  repeat match goal with
         | |- context [if ?c then _ else _] => destruct c eqn:?
         | |- context [embed _ _ _ ?r] =>
             destruct r as [? [?|]]; unfold embed
         end;
    (intros [[= <-]|[= <-]] || intros [[=]|[=]]);
    try (right; left; done);
    try (left;
         match goal with
         | H : String.eqb command "!profile" = true |- _ =>
             apply String.eqb_eq in H
         end; done);
    try (right; right; left;
         match goal with
         | H : String.eqb command "!api" = true |- _ => apply String.eqb_eq in H
         end; done);
    (right; right; right;
     match goal with
     | H : (_ && String.eqb (prefix2 command) "!:")%bool = true |- _ =>
         apply andb_prop in H as [Hlen Hpre]
     end;
     apply String.eqb_eq in Hpre;
     destruct (prefix2_from2 _ Hlen) as [Hc Hne]; rewrite Hpre in Hc;
     exists (from2 command); done).
Qed.

(** A turn of the loop is stuck only when a nested profile is. *)
Lemma do_line_Stuck LP name line depth lineno s :
  do_line LP name line depth lineno s = Stuck ->
  exists p, LP p depth s = Panic \/ LP p depth s = Timeout.
Proof.
  unfold do_line. destruct (cut line " ") as [[command args] ok].
  destruct (exclude_step line s); [discriminate|].
  destruct (LP (TrimSpace args) depth s) as [s1|e| |] eqn:E;
  repeat match goal with
         | |- context [if ?c then _ else _] => destruct c
         | |- context [embed _ _ _ ?r] =>
             destruct r as [? [?|]]; unfold embed
         end; try discriminate; intros _; eauto.
Qed.

(** The loop of [Load] has turns enough: it runs out of budget only when a
    nested profile does. *)
Lemma Load_loop_returns LP n name lines depth lineno s :
  String.length lines <= n ->
  (forall p s0, LP p depth s0 <> Panic /\ LP p depth s0 <> Timeout) ->
  Load_loop LP n name lines depth lineno s <> Timeout.
Proof.
  intros Hn HLP. revert lines lineno s Hn.
  induction n as [|n IH]; intros lines lineno s Hn; simpl.
  - destruct lines; [done|simpl in Hn; lia].
  - destruct (String.eqb_spec lines "") as [->|Hne]; [done|].
    destruct (cut lines LF) as [[line rest] ok] eqn:Hcut.
    apply cut_shorter in Hcut; [|done].
    destruct (do_line LP name line depth lineno s) as [s1|s1|e|] eqn:E;
      try done.
    + apply IH. lia.
    + apply do_line_Stuck in E as [p [E|E]]; by destruct (HLP p s).
Qed.

(** A line is its command, then a space and its arguments if it has one. *)
Lemma cut_line line command args ok :
  cut line " " = (command, args, ok) ->
  line = if ok then command ++ String " " args else command.
Proof.
  destruct ok; intros H.
  - by apply cut_found in H as [-> _].
  - by apply cut_missing in H as [-> _].
Qed.

(** A [!:KEY] line that is not skipped takes the [!:] branch. *)
Lemma do_line_body LP name line depth lineno s key args ok :
  cut line " " = ("!:" ++ key, args, ok) -> key <> "" ->
  exclude_step line s = None ->
  do_line LP name line depth lineno s = Next (set_body_field key args depth s).
Proof.
  intros Hcut Hkey Hex. unfold do_line. rewrite Hcut, Hex.
  assert (strings.HasPrefix line "!!" = false) as ->.
  { rewrite (cut_line _ _ _ _ Hcut). by destruct ok. }
  destruct key as [|c key]; [done|].
  change ("!:" ++ String c key) with (String "!" (String ":" (String c key))).
  cbn [String.eqb Ascii.eqb Bool.eqb orb andb]. rewrite !prefix2_app.
  cbn [String.eqb Ascii.eqb Bool.eqb orb andb String.length Nat.ltb Nat.leb].
  change (String "!" (String ":" (String c key))) with ("!:" ++ String c key).
  by rewrite from2_app.
Qed.

(** An [!api] line that is not skipped takes the [!api] branch. *)
Lemma do_line_api LP name line depth lineno s args ok :
  cut line " " = ("!api", args, ok) ->
  exclude_step line s = None ->
  do_line LP name line depth lineno s
  = Next (if String.eqb (Api s) InvalidUrl || (depth =? 0)%nat
          then set_Api s (TrimSpace args) else s).
Proof.
  intros Hcut Hex. unfold do_line. rewrite Hcut, Hex.
  assert (strings.HasPrefix line "!!" = false) as ->.
  { rewrite (cut_line _ _ _ _ Hcut). by destruct ok. }
  cbn [String.eqb Ascii.eqb Bool.eqb orb andb].
  by destruct (String.eqb (Api s) InvalidUrl || (depth =? 0)%nat).
Qed.

(** *** What the [!:] branch does *)

Lemma hard_spec userset key : hard userset key = true <-> userset !! key = Some true.
Proof. unfold hard. destruct (userset !! key) as [[]|]; split; congruence. Qed.

Lemma set_body_field_skip key args depth s :
  (0 < depth)%nat -> hard (UserSet s) key = true ->
  set_body_field key args depth s = s.
Proof.
  intros Hd Hh. unfold set_body_field. rewrite Hh.
  apply Nat.ltb_lt in Hd as ->. reflexivity.
Qed.

Lemma set_body_field_effect key args depth s :
  depth = 0%nat \/ hard (UserSet s) key = false ->
  Data (set_body_field key args depth s) !! key = body_value args /\
  UserSet (set_body_field key args depth s) !! key = Some (depth =? 0)%nat.
Proof.
  intros Hc. unfold set_body_field, body_value.
  assert ((0 <? depth)%nat && hard (UserSet s) key = false) as ->.
  { destruct Hc as [->| ->]; [reflexivity|apply andb_false_r]. }
  cbn. split; [|apply lookup_insert_eq].
  destruct (String.eqb (TrimSpace args) "").
  - apply lookup_delete_eq.
  - apply lookup_insert_eq.
Qed.

Lemma set_body_field_other key key' args depth s :
  key <> key' ->
  Data (set_body_field key args depth s) !! key' = Data s !! key' /\
  UserSet (set_body_field key args depth s) !! key' = UserSet s !! key'.
Proof.
  intros Hne. unfold set_body_field.
  destruct ((0 <? depth)%nat && hard (UserSet s) key); [done|]. cbn.
  split; [|by apply lookup_insert_ne].
  destruct (String.eqb (TrimSpace args) "").
  - by apply lookup_delete_ne.
  - by apply lookup_insert_ne.
Qed.

Lemma set_body_field_Api key args depth s :
  Api (set_body_field key args depth s) = Api s.
Proof.
  unfold set_body_field.
  by destruct ((0 <? depth)%nat && hard (UserSet s) key).
Qed.

(** A hard key stays hard through the [!:] branch, whatever the depth and
    the key of the directive. *)
Lemma set_body_field_hard key key' args depth s :
  hard (UserSet s) key' = true ->
  hard (UserSet (set_body_field key args depth s)) key' = true.
Proof.
  intros Hh. destruct (decide (key = key')) as [->|Hne].
  - destruct depth as [|depth].
    + apply hard_spec.
      by destruct (set_body_field_effect key' args 0 s (or_introl eq_refl)).
    + rewrite set_body_field_skip; [done|lia|done].
  - apply hard_spec. destruct (set_body_field_other key key' args depth s Hne)
      as [_ ->]. by apply hard_spec.
Qed.

(** *** Invariants of a load

    [I] is kept by a whole [Load], profiles included, at every depth in [D],
    as soon as one turn of the loop keeps it. *)
Section Invariant.
Variable D : nat -> Prop.
Variable I : t -> Prop.
Hypothesis D_deeper : forall depth, D depth -> D (S depth).
Hypothesis I_Profile : forall s profile, I s -> I (set_Profile s profile).
Hypothesis I_line :
  forall LP name line depth lineno s s',
    D depth -> I s ->
    (forall p s0 s1, I s0 -> LP p depth s0 = Done s1 -> I s1) ->
    do_line LP name line depth lineno s = Next s' \/
    do_line LP name line depth lineno s = Stop s' ->
    I s'.

Lemma Load_loop_keeps LP n name lines depth lineno s s' :
  D depth ->
  (forall p s0 s1, I s0 -> LP p depth s0 = Done s1 -> I s1) ->
  I s -> Load_loop LP n name lines depth lineno s = Done s' -> I s'.
Proof.
  intros HD HLP. revert lines lineno s.
  induction n as [|n IH]; intros lines lineno s Hs; simpl.
  - destruct (String.eqb lines ""); [by intros [= <-]|discriminate].
  - destruct (String.eqb lines ""); [by intros [= <-]|].
    destruct (cut lines LF) as [[line rest] ok].
    destruct (do_line LP name line depth lineno s) as [s1|s1|e|] eqn:E;
      try discriminate.
    + apply IH. eapply I_line; eauto.
    + intros [= <-]. eapply I_line; eauto.
Qed.

Lemma Load_keeps fuel name txt depth s s' :
  D depth -> I s -> Load fuel name txt depth s = Done s' -> I s'.
Proof.
  revert name txt depth s s'.
  induction fuel as [|fuel IH]; intros name txt depth s s' HD Hs; simpl;
    [discriminate|].
  apply Load_loop_keeps; [done| |done].
  intros p s0 s1 Hs0. unfold LoadProfile_body.
  destruct (profile_body p) as [body|err]; [|discriminate].
  apply IH; auto.
Qed.

Lemma LoadProfile_keeps fuel profile depth s s' :
  D depth -> I s -> LoadProfile fuel profile depth s = Done s' -> I s'.
Proof.
  intros HD Hs. unfold LoadProfile, LoadProfile_body.
  destruct (profile_body profile) as [body|err]; [|discriminate].
  apply Load_keeps; auto.
Qed.

End Invariant.

End InterpreterFacts.

(** ** Override rules *)

Section Overrides.
Context {W : World}.
Import ChatState.

Lemma hard_kept_by_line key LP name line depth lineno s s' :
  hard (UserSet s) key = true ->
  (forall p s0 s1, hard (UserSet s0) key = true -> LP p depth s0 = Done s1 ->
                   hard (UserSet s1) key = true) ->
  do_line LP name line depth lineno s = Next s' \/
  do_line LP name line depth lineno s = Stop s' ->
  hard (UserSet s') key = true.
Proof.
  intros Hs HLP Hrun.
  destruct (cut line " ") as [[command args] ok] eqn:Hcut.
  destruct (do_line_inv _ _ _ _ _ _ _ _ _ _ Hcut Hrun)
    as [[_ Hp]|[(_ & HU & _)|[(_ & _ & ->)|(k & _ & _ & ->)]]].
  - eauto.
  - by rewrite HU.
  - done.
  - by apply set_body_field_hard.
Qed.

Lemma hard_value_kept_by_line key v LP name line depth lineno s s' :
  (0 < depth)%nat ->
  hard (UserSet s) key = true /\ Data s !! key = v ->
  (forall p s0 s1,
     hard (UserSet s0) key = true /\ Data s0 !! key = v ->
     LP p depth s0 = Done s1 ->
     hard (UserSet s1) key = true /\ Data s1 !! key = v) ->
  do_line LP name line depth lineno s = Next s' \/
  do_line LP name line depth lineno s = Stop s' ->
  hard (UserSet s') key = true /\ Data s' !! key = v.
Proof.
  intros Hd [Hh Hv] HLP Hrun.
  destruct (cut line " ") as [[command args] ok] eqn:Hcut.
  destruct (do_line_inv _ _ _ _ _ _ _ _ _ _ Hcut Hrun)
    as [[_ Hp]|[(HD & HU & _)|[(_ & _ & ->)|(k & _ & _ & ->)]]].
  - eauto.
  - by rewrite HD, HU.
  - done.
  - destruct (decide (k = key)) as [->|Hne].
    + by rewrite set_body_field_skip.
    + split; [by apply set_body_field_hard|].
      by destruct (set_body_field_other k key args depth s Hne) as [-> _].
Qed.

Lemma Load_keeps_hard key fuel name txt depth s s' :
  hard (UserSet s) key = true ->
  Load fuel name txt depth s = Done s' ->
  hard (UserSet s') key = true.
Proof.
  apply (Load_keeps (fun _ => True) (fun s => hard (UserSet s) key = true));
    [done|done| |done].
  intros LP name' line d lineno s0 s1 _. apply hard_kept_by_line.
Qed.

Lemma Load_keeps_hard_value key fuel name txt depth s s' :
  (0 < depth)%nat ->
  hard (UserSet s) key = true ->
  Load fuel name txt depth s = Done s' ->
  Data s' !! key = Data s !! key.
Proof.
  intros Hd Hh Hrun.
  apply (Load_keeps (fun d => 0 < d)%nat
           (fun s0 => hard (UserSet s0) key = true /\ Data s0 !! key = Data s !! key)
           (fun d _ => Nat.lt_0_succ d) (fun _ _ H => H)) in Hrun; [by destruct Hrun| |done|done].
  intros LP name' line d lineno s0 s1 Hd0. by apply hard_value_kept_by_line.
Qed.

(** A key that is not hard stays so through the [!:] branch at a depth
    above 0, whatever the key of the directive. *)
Lemma set_body_field_soft key key' args depth s :
  (0 < depth)%nat -> hard (UserSet s) key' = false ->
  hard (UserSet (set_body_field key args depth s)) key' = false.
Proof.
  intros Hd Hs. destruct (decide (key = key')) as [->|Hne].
  - destruct (set_body_field_effect key' args depth s (or_intror Hs))
      as [_ HU]. unfold hard. rewrite HU.
    by destruct depth; [lia|].
  - unfold hard.
    destruct (set_body_field_other key key' args depth s Hne) as [_ ->].
    exact Hs.
Qed.

Lemma soft_kept_by_line key LP name line depth lineno s s' :
  (0 < depth)%nat ->
  hard (UserSet s) key = false ->
  (forall p s0 s1, hard (UserSet s0) key = false -> LP p depth s0 = Done s1 ->
                   hard (UserSet s1) key = false) ->
  do_line LP name line depth lineno s = Next s' \/
  do_line LP name line depth lineno s = Stop s' ->
  hard (UserSet s') key = false.
Proof.
  intros Hd Hs HLP Hrun.
  destruct (cut line " ") as [[command args] ok] eqn:Hcut.
  destruct (do_line_inv _ _ _ _ _ _ _ _ _ _ Hcut Hrun)
    as [[_ Hp]|[(_ & HU & _)|[(_ & _ & ->)|(k & _ & _ & ->)]]].
  - eauto.
  - by rewrite HU.
  - done.
  - by apply set_body_field_soft.
Qed.

Lemma Load_keeps_soft key fuel name txt depth s s' :
  (0 < depth)%nat ->
  hard (UserSet s) key = false ->
  Load fuel name txt depth s = Done s' ->
  hard (UserSet s') key = false.
Proof.
  intros Hd.
  apply (Load_keeps (fun d => 0 < d)%nat
           (fun s0 => hard (UserSet s0) key = false)
           (fun d _ => Nat.lt_0_succ d) (fun _ _ H => H)); [|done].
  intros LP name' line d lineno s0 s1 Hd0. by apply soft_kept_by_line.
Qed.

Lemma LoadProfile_keeps_soft key fuel profile depth s s' :
  hard (UserSet s) key = false ->
  LoadProfile fuel profile depth s = Done s' ->
  hard (UserSet s') key = false.
Proof.
  intros Hs. unfold LoadProfile, LoadProfile_body.
  destruct (profile_body profile) as [body|err]; [|discriminate].
  apply Load_keeps_soft; [lia|done].
Qed.

(** At any depth, lines that are no [!:key] directive leave [key] as soft as
    it is, the profiles they include too. *)
Lemma Load_loop_silent key LP n m name lines depth lineno s s' :
  never_sets_loop (fun _ => true) n key lines = true ->
  (forall p s0 s1, hard (UserSet s0) key = false -> LP p depth s0 = Done s1 ->
                   hard (UserSet s1) key = false) ->
  hard (UserSet s) key = false ->
  Load_loop LP m name lines depth lineno s = Done s' ->
  hard (UserSet s') key = false.
Proof.
  intros Hq HLP. revert n lines lineno s Hq.
  induction m as [|m IH]; intros n lines lineno s Hq Hs; simpl.
  - destruct (String.eqb lines ""); [by intros [= <-]|discriminate].
  - destruct n as [|n]; simpl in Hq;
      destruct (String.eqb lines ""); try (by intros [= <-]); try discriminate.
    destruct (cut lines LF) as [[line rest] ok].
    destruct (cut line " ") as [[command args] ok'] eqn:Hcut.
    apply andb_prop in Hq as [Hq Hrest]. apply andb_prop in Hq as [Hkey _].
    assert (forall s1, do_line LP name line depth lineno s = Next s1 \/
                       do_line LP name line depth lineno s = Stop s1 ->
                       hard (UserSet s1) key = false) as Hstep.
    { intros s1 Hrun.
      destruct (do_line_inv _ _ _ _ _ _ _ _ _ _ Hcut Hrun)
        as [[_ Hp]|[(_ & HU & _)|[(_ & _ & ->)|(k & -> & _ & ->)]]].
      - eauto.
      - by rewrite HU.
      - done.
      - destruct (decide (k = key)) as [->|Hne].
        + by rewrite String.eqb_refl in Hkey.
        + unfold hard.
          by destruct (set_body_field_other k key args depth s Hne) as [_ ->]. }
    destruct (do_line LP name line depth lineno s) as [s1|s1|e|];
      try discriminate.
    + apply (IH _ _ _ _ Hrest). apply Hstep. by left.
    + intros [= <-]. apply Hstep. by right.
Qed.

Lemma Load_silent key fuel name txt depth s s' :
  own_lines_silent key txt = true ->
  hard (UserSet s) key = false ->
  Load fuel name txt depth s = Done s' ->
  hard (UserSet s') key = false.
Proof.
  destruct fuel as [|fuel]; [discriminate|]. intros Hq Hs. cbn [Load].
  apply (Load_loop_silent key _ _ _ _ _ _ _ _ _ Hq); [|done].
  intros p s0 s1 Hs0 Hrun. by apply (LoadProfile_keeps_soft key fuel p depth s0).
Qed.

(** C1. A [!:KEY] directive takes effect when it is read at depth 0 or the
    key is not hard, and then the key is hard exactly when the depth is 0; a
    [!:KEY] directive read at a depth above 0 for a hard key leaves the whole
    state as it is.  A hard key stays hard through every load, at every
    depth, and keeps its value (or its absence) through every load at a depth
    above 0 and through every inclusion of a profile.

    A key is hard by a [!:KEY] line at depth 0 and by nothing else: no key
    is hard in the initial state, and a key that is not hard stays so
    through every load at a depth above 0, through every inclusion of a
    profile, whatever the lines for other keys in it, and through every
    load, at any depth, of a text that has no [!:KEY] line of its own.  So
    a key set inside profiles only is overridden by the next [!:KEY] line,
    in a later profile or in the document. *)
Theorem override_invariant (key : string) :
  (forall LP name line depth lineno s args ok,
     cut line " " = ("!:" ++ key, args, ok) -> key <> "" ->
     exclude_step line s = None ->
     depth = 0%nat \/ hard (UserSet s) key = false ->
     exists s',
       do_line LP name line depth lineno s = Next s' /\
       Data s' !! key = body_value args /\
       hard (UserSet s') key = (depth =? 0)%nat)
  /\ (forall LP name line depth lineno s args ok,
        cut line " " = ("!:" ++ key, args, ok) -> key <> "" ->
        exclude_step line s = None ->
        (0 < depth)%nat -> hard (UserSet s) key = true ->
        do_line LP name line depth lineno s = Next s)
  /\ (forall fuel name txt depth s s',
        hard (UserSet s) key = true ->
        Load fuel name txt depth s = Done s' ->
        hard (UserSet s') key = true)
  /\ (forall fuel name txt depth s s',
        (0 < depth)%nat -> hard (UserSet s) key = true ->
        Load fuel name txt depth s = Done s' ->
        Data s' !! key = Data s !! key)
  /\ (forall fuel profile depth s s',
        hard (UserSet s) key = true ->
        LoadProfile fuel profile depth s = Done s' ->
        Data s' !! key = Data s !! key)
  /\ hard (UserSet NewChatState) key = false
  /\ (forall fuel name txt depth s s',
        (0 < depth)%nat -> hard (UserSet s) key = false ->
        Load fuel name txt depth s = Done s' ->
        hard (UserSet s') key = false)
  /\ (forall fuel profile depth s s',
        hard (UserSet s) key = false ->
        LoadProfile fuel profile depth s = Done s' ->
        hard (UserSet s') key = false)
  /\ (forall fuel name txt depth s s',
        own_lines_silent key txt = true -> hard (UserSet s) key = false ->
        Load fuel name txt depth s = Done s' ->
        hard (UserSet s') key = false)
  /\ (forall fuel profile depth s s' LP name line depth' lineno args ok,
        hard (UserSet s) key = false ->
        LoadProfile fuel profile depth s = Done s' ->
        cut line " " = ("!:" ++ key, args, ok) -> key <> "" ->
        exclude_step line s' = None ->
        exists s'',
          do_line LP name line depth' lineno s' = Next s'' /\
          Data s'' !! key = body_value args /\
          hard (UserSet s'') key = (depth' =? 0)%nat).
Proof.
  assert (forall LP name line depth lineno s args ok,
     cut line " " = ("!:" ++ key, args, ok) -> key <> "" ->
     exclude_step line s = None ->
     depth = 0%nat \/ hard (UserSet s) key = false ->
     exists s',
       do_line LP name line depth lineno s = Next s' /\
       Data s' !! key = body_value args /\
       hard (UserSet s') key = (depth =? 0)%nat) as Hset.
  { intros LP name line depth lineno s args ok Hcut Hkey Hex Hc.
    exists (set_body_field key args depth s).
    split; [by eapply do_line_body|].
    destruct (set_body_field_effect key args depth s Hc) as [HD HU].
    split; [done|]. unfold hard. rewrite HU. by destruct (depth =? 0)%nat. }
  split; [exact Hset|].
  split; [|split; [|split; [|split; [|split; [|split; [|split; [|split]]]]]]].
  - intros LP name line depth lineno s args ok Hcut Hkey Hex Hd Hh.
    rewrite (do_line_body _ _ _ _ _ _ _ _ _ Hcut Hkey Hex).
    by rewrite set_body_field_skip.
  - intros fuel name txt depth s s'. apply Load_keeps_hard.
  - intros fuel name txt depth s s'. apply Load_keeps_hard_value.
  - intros fuel profile depth s s' Hh. unfold LoadProfile, LoadProfile_body.
    destruct (profile_body profile) as [body|err]; [|discriminate].
    intros Hrun. apply (Load_keeps_hard_value key) in Hrun; [done|lia|done].
  - unfold hard. cbn [NewChatState UserSet]. by rewrite lookup_empty.
  - intros fuel name txt depth s s'. apply Load_keeps_soft.
  - intros fuel profile depth s s'. apply LoadProfile_keeps_soft.
  - intros fuel name txt depth s s'. apply Load_silent.
  - intros fuel profile depth s s' LP name line depth' lineno args ok
      Hs Hrun Hcut Hkey Hex.
    apply (Hset LP name line depth' lineno s' args ok Hcut Hkey Hex).
    right. by apply (LoadProfile_keeps_soft key fuel profile depth s).
Qed.

Lemma Api_kept_by_line url LP name line depth lineno s s' :
  url <> InvalidUrl -> (0 < depth)%nat ->
  Api s = url ->
  (forall p s0 s1, Api s0 = url -> LP p depth s0 = Done s1 -> Api s1 = url) ->
  do_line LP name line depth lineno s = Next s' \/
  do_line LP name line depth lineno s = Stop s' ->
  Api s' = url.
Proof.
  intros Hurl Hd Hs HLP Hrun.
  destruct (cut line " ") as [[command args] ok] eqn:Hcut.
  destruct (do_line_inv _ _ _ _ _ _ _ _ _ _ Hcut Hrun)
    as [[_ Hp]|[(_ & _ & HA)|[(_ & Hc & ->)|(k & _ & _ & ->)]]].
  - eauto.
  - by rewrite HA.
  - apply orb_prop in Hc as [Hc|Hc].
    + apply String.eqb_eq in Hc. congruence.
    + apply Nat.eqb_eq in Hc. lia.
  - by rewrite set_body_field_Api.
Qed.

Lemma Load_keeps_Api fuel name txt depth s s' :
  (0 < depth)%nat -> Api s <> InvalidUrl ->
  Load fuel name txt depth s = Done s' -> Api s' = Api s.
Proof.
  intros Hd Hurl.
  apply (Load_keeps (fun d => 0 < d)%nat (fun s0 => Api s0 = Api s)
           (fun d _ => Nat.lt_0_succ d) (fun _ _ H => H)); [|done|done].
  intros LP name' line d lineno s0 s1 Hd0. by apply Api_kept_by_line.
Qed.

(** C6. An [!api] directive stores its trimmed argument as the base URL when
    the stored URL is still the initial one, [InvalidUrl], or the directive
    is read at depth 0, and leaves the state as it is otherwise.  So once
    the URL differs from [InvalidUrl], nothing read at a depth above 0, and
    no inclusion of a profile, changes it, while a directive at depth 0
    always sets it. *)
Theorem api_precedence :
  Api NewChatState = InvalidUrl
  /\ (forall LP name line depth lineno s args ok,
        cut line " " = ("!api", args, ok) ->
        exclude_step line s = None ->
        do_line LP name line depth lineno s
        = Next (if String.eqb (Api s) InvalidUrl || (depth =? 0)%nat
                then set_Api s (TrimSpace args) else s))
  /\ (forall fuel name txt depth s s',
        (0 < depth)%nat -> Api s <> InvalidUrl ->
        Load fuel name txt depth s = Done s' -> Api s' = Api s)
  /\ (forall fuel profile depth s s',
        Api s <> InvalidUrl ->
        LoadProfile fuel profile depth s = Done s' -> Api s' = Api s).
Proof.
  split; [reflexivity|]. split; [|split].
  - intros. by eapply do_line_api.
  - intros fuel name txt depth s s'. apply Load_keeps_Api.
  - intros fuel profile depth s s' Hurl. unfold LoadProfile, LoadProfile_body.
    destruct (profile_body profile) as [body|err]; [|discriminate].
    intros Hrun. apply Load_keeps_Api in Hrun; [done|lia|done].
Qed.

End Overrides.

(** C1 in the sample world: [max_tokens] set by the document keeps its value
    through the inclusion of the profile [claude], which sets it too; and
    [max_tokens], set by the profile [claude] only, is not hard after the
    inclusion, so that the line of a later profile sets it. *)
Lemma override_invariant_witness :
  (exists s',
     @LoadProfile sample_world 2 "claude" 0
       (@set_body_field sample_world "max_tokens" "5" 0 NewChatState) = Done s'
     /\ ChatState.Data s' !! "max_tokens" = Some (VString "5"))
  /\ (exists s' s'',
        @LoadProfile sample_world 2 "claude" 0 NewChatState = Done s'
        /\ ChatState.Data s' !! "max_tokens" = Some (VString "10000")
        /\ @do_line sample_world (fun _ _ _ => Timeout) "later"
             "!:max_tokens 20000" 1 5 s' = Next s''
        /\ ChatState.Data s'' !! "max_tokens" = Some (VString "20000")).
Proof.
  split.
  - destruct (@LoadProfile sample_world 2 "claude" 0
                (@set_body_field sample_world "max_tokens" "5" 0 NewChatState))
      as [s'| | |] eqn:E.
    + exists s'. split; [reflexivity|].
      rewrite (proj1 (proj2 (proj2 (proj2 (proj2
                 (@override_invariant sample_world "max_tokens")))))
                 2 "claude" 0%nat
                 (@set_body_field sample_world "max_tokens" "5" 0 NewChatState)
                 s' ltac:(vm_compute; reflexivity) E).
      reflexivity.
    + vm_compute in E. discriminate.
    + vm_compute in E. discriminate.
    + vm_compute in E. discriminate.
  - destruct (@LoadProfile sample_world 2 "claude" 0 NewChatState)
      as [s'| | |] eqn:E; try (vm_compute in E; discriminate).
    destruct (proj2 (proj2 (proj2 (proj2 (proj2 (proj2 (proj2 (proj2 (proj2
                (@override_invariant sample_world "max_tokens")))))))))
                2 "claude" 0%nat NewChatState s'
                (fun _ _ _ => Timeout) "later" "!:max_tokens 20000" 1%nat 5%Z
                "20000" true eq_refl E eq_refl ltac:(discriminate))
      as (s'' & Hrun & Hv & _).
    + injection E as <-. vm_compute. reflexivity.
    + exists s', s''. split; [reflexivity|]. split; [|split; [exact Hrun|]].
      * injection E as <-. vm_compute. reflexivity.
      * rewrite Hv. vm_compute. reflexivity.
Defined.

(** C6 in the sample world: a URL set by the document survives the
    inclusion of the profile [claude], which has an [!api] line. *)
Lemma api_precedence_witness :
  exists s',
    @LoadProfile sample_world 2 "claude" 0
      (ChatState.set_Api NewChatState "http://localhost:1234/v1") = Done s'
    /\ ChatState.Api s' = "http://localhost:1234/v1".
Proof.
  destruct (@LoadProfile sample_world 2 "claude" 0
              (ChatState.set_Api NewChatState "http://localhost:1234/v1"))
    as [s'| | |] eqn:E.
  - exists s'. split; [reflexivity|].
    rewrite (proj2 (proj2 (proj2 (@api_precedence sample_world)))
               2 "claude" 0%nat
               (ChatState.set_Api NewChatState "http://localhost:1234/v1") s'
               ltac:(discriminate) E).
    reflexivity.
  - vm_compute in E. discriminate.
  - vm_compute in E. discriminate.
  - vm_compute in E. discriminate.
Defined.

(** ** The request assembler *)

(** Runs the three stages of [query] on a document that is given in full:
    the load of the document, the load of the default profile, the
    assembly. *)
Ltac run_stage t :=
  let r := fresh "r" in
  set (r := t); vm_compute in r; subst r; cbv beta iota.

Ltac run_query :=
  match goal with |- context [Load ?f ?n ?t ?d ?s] => run_stage (Load f n t d s) end;
  cbn [ChatState.Profile String.eqb];
  match goal with |- context [LoadProfile ?f ?p ?d ?s] =>
    run_stage (LoadProfile f p d s) end;
  match goal with |- context [assemble ?s] => run_stage (assemble s) end.

Section AssemblerFacts.
Context {W : World}.
Import ChatState.

(** C4. In chat mode the document
    [!user / Hello / !assistant / Hi there] gives the message list
    [user "Hello", assistant "Hi there"]: the empty segment before [!user]
    gives no system message, the default profile adds no content, and the
    final [New("")] finalizes the assistant segment.  The environment names
    no profile, so the default one is loaded; two levels of nesting
    budget are enough, and more change nothing. *)
Theorem hello_messages (fuel : nat) :
  Getenv "ILLUME_PROFILE" = "" ->
  exists api state,
    query_request (S (S fuel)) hello_document = Done (api, state)
    /\ Data state !! "messages"
       = Some (VMessages [Message.mk "user" "Hello";
                          Message.mk "assistant" "Hi there"])
    /\ Builder.Messages (Builder state)
       = [Message.mk "user" "Hello"; Message.mk "assistant" "Hi there"].
Proof.
  intros Henv. unfold query_request, query_load.
  set (r := Load _ _ _ _ _). vm_compute in r. subst r.
  cbv beta iota. cbn [Profile String.eqb]. rewrite Henv. cbn [String.eqb].
  set (r := LoadProfile _ _ _ _). vm_compute in r. subst r. cbv beta iota.
  set (r := assemble _). vm_compute in r. subst r.
  eexists _, _. split; [reflexivity|]. split; vm_compute; reflexivity.
Qed.

Lemma New_empty_iff (b : Builder.t) :
  Builder.Messages (Builder.New b "") = [] <->
  Builder.Messages b = [] /\ strings.Trim (Builder.Content b) (String CR nl) = "".
Proof.
  unfold Builder.New.
  destruct (String.eqb_spec (strings.Trim (Builder.Content b) (String CR nl)) "")
    as [->|Hne]; cbn.
  - tauto.
  - split; [|tauto]. destruct (String.eqb (Builder.Role b) ""); cbn;
      intros H; by apply app_eq_nil in H as [_ ?].
Qed.

Lemma assemble_empty state api :
  interpolate (Api state) (Data state) = Some (Ok api) ->
  Builder.Messages (Builder.New (Builder state) "") = [] ->
  match Type_ state with
  | TypeChat =>
      exists url st, assemble state = Done (url, st) /\
                     Data st !! "messages" = Some (VMessages [])
  | _ => assemble state = Panic
  end.
Proof.
  intros Hurl Hnil. unfold assemble. rewrite Hurl.
  destruct (Type_ state); unfold flush; cbn [Builder set_field set_Data];
    rewrite Hnil; [|reflexivity..].
  eexists _, _. split; [reflexivity|]. cbn.
  rewrite lookup_insert_ne by done. apply lookup_insert_eq.
Qed.

Lemma assemble_nonempty state api :
  interpolate (Api state) (Data state) = Some (Ok api) ->
  Builder.Messages (Builder.New (Builder state) "") <> [] ->
  assemble state <> Panic.
Proof.
  intros Hurl Hne. unfold assemble. rewrite Hurl.
  destruct (Builder.Messages (Builder.New (Builder state) "")) as [|m rest] eqn:E;
    [done|].
  destruct (Type_ state); unfold flush; cbn [Builder set_field set_Data];
    rewrite E; try done.
  by destruct (interpolate (FimTmpl _) _) as [[?|?]|].
Qed.

(** C8. Outside chat mode [assemble] takes element 0 of the finalized
    message list without looking at its length: when the URL interpolates
    and the list is empty, chat mode returns a request whose [messages] is
    the empty list and every other mode panics; when the list is not empty
    no mode panics.  The list is empty exactly when no message was finalized
    before and the last segment trims to nothing.  So documents made of
    directives only panic in raw-completion, generic-infill and template
    mode, and give an empty message list in chat mode. *)
Theorem first_message_unguarded :
  (forall state api,
     interpolate (Api state) (Data state) = Some (Ok api) ->
     Builder.Messages (Builder.New (Builder state) "") = [] ->
     match Type_ state with
     | TypeChat =>
         exists url st, assemble state = Done (url, st) /\
                        Data st !! "messages" = Some (VMessages [])
     | _ => assemble state = Panic
     end)
  /\ (forall state api,
        interpolate (Api state) (Data state) = Some (Ok api) ->
        Builder.Messages (Builder.New (Builder state) "") <> [] ->
        assemble state <> Panic)
  /\ (forall b,
        Builder.Messages (Builder.New b "") = [] <->
        Builder.Messages b = [] /\
        strings.Trim (Builder.Content b) (String CR nl) = "")
  /\ (Getenv "ILLUME_PROFILE" = "" ->
      forall fuel,
        query_request (S (S fuel)) (unlines ["!completion"]) = Panic
        /\ query_request (S (S fuel)) (unlines ["!infill"]) = Panic
        /\ query_request (S (S fuel))
             (unlines ["!infill <PRE>{prefix}<SUF>{suffix}<MID>"; "!infill"])
           = Panic
        /\ exists url st,
             query_request (S (S fuel)) (unlines ["!note nothing to say"])
             = Done (url, st)
             /\ Data st !! "messages" = Some (VMessages [])).
Proof.
  split; [exact assemble_empty|]. split; [exact assemble_nonempty|].
  split; [exact New_empty_iff|].
  intros Henv fuel.
  assert (forall txt,
            query_request (S (S fuel)) txt
            = match Load (S (S fuel)) "<stdin>" txt 0 NewChatState with
              | Done state =>
                  if String.eqb (Profile state) "" then
                    match LoadProfile (S (S fuel)) DefaultProfile 1 state with
                    | Done state => assemble state
                    | Failed err => Failed err
                    | Panic => Panic
                    | Timeout => Timeout
                    end
                  else assemble state
              | Failed err => Failed err
              | Panic => Panic
              | Timeout => Timeout
              end) as Hq.
  { intros txt. unfold query_request, query_load. rewrite Henv. cbn [String.eqb].
    destruct (Load _ _ _ _ _); try reflexivity.
    by destruct (String.eqb (Profile a) ""). }
  rewrite !Hq. split; [|split; [|split]].
  - run_query. reflexivity.
  - run_query. reflexivity.
  - run_query. reflexivity.
  - run_query. eexists _, _. split; [reflexivity|]. vm_compute. reflexivity.
Qed.

End AssemblerFacts.

(** ** The initial state *)

Section InitialState.
Context {W : World}.
Import ChatState.

Lemma Load_loop_never_sets key qp LP n m name lines depth lineno s s' :
  never_sets_loop qp n key lines = true ->
  (forall p s0 s1, qp p = true -> LP p depth s0 = Done s1 ->
                   Data s1 !! key = Data s0 !! key) ->
  Load_loop LP m name lines depth lineno s = Done s' ->
  Data s' !! key = Data s !! key.
Proof.
  intros Hq HLP. revert n lines lineno s Hq.
  induction m as [|m IH]; intros n lines lineno s Hq; simpl.
  - destruct (String.eqb lines ""); [by intros [= <-]|discriminate].
  - destruct n as [|n]; simpl in Hq;
      destruct (String.eqb lines ""); try (by intros [= <-]); try discriminate.
    destruct (cut lines LF) as [[line rest] ok].
    destruct (cut line " ") as [[command args] ok'] eqn:Hcut.
    apply andb_prop in Hq as [Hq Hrest]. apply andb_prop in Hq as [Hkey Hprof].
    assert (forall s1, do_line LP name line depth lineno s = Next s1 \/
                       do_line LP name line depth lineno s = Stop s1 ->
                       Data s1 !! key = Data s !! key) as Hstep.
    { intros s1 Hrun.
      destruct (do_line_inv _ _ _ _ _ _ _ _ _ _ Hcut Hrun)
        as [[-> Hp]|[(HD & _ & _)|[(_ & _ & ->)|(k & -> & _ & ->)]]].
      - eapply HLP; [|exact Hp]. exact Hprof.
      - by rewrite HD.
      - done.
      - destruct (decide (k = key)) as [->|Hne].
        + by rewrite String.eqb_refl in Hkey.
        + by destruct (set_body_field_other k key args depth s Hne) as [-> _]. }
    destruct (do_line LP name line depth lineno s) as [s1|s1|e|];
      try discriminate.
    + intros Hrun. rewrite (IH _ _ _ _ Hrest Hrun). apply Hstep. by left.
    + intros [= <-]. apply Hstep. by right.
Qed.

Lemma Load_never_sets key fuel fuel' name txt depth s s' :
  never_sets fuel key txt = true ->
  Load fuel' name txt depth s = Done s' ->
  Data s' !! key = Data s !! key.
Proof.
  revert fuel name txt depth s s'.
  induction fuel' as [|fuel' IH]; intros fuel name txt depth s s' Hq; simpl;
    [discriminate|].
  destruct fuel as [|fuel]; [discriminate|]. simpl in Hq.
  apply (Load_loop_never_sets key _ _ _ _ _ _ _ _ _ _ Hq).
  intros p s0 s1 Hp. unfold never_sets_profile in Hp. unfold LoadProfile_body.
  destruct (profile_body p) as [body|err]; [|discriminate].
  intros Hrun. by rewrite (IH _ _ _ _ _ _ Hp Hrun).
Qed.

Lemma assemble_keeps key state url st :
  key <> "messages" -> key <> "prompt" -> key <> "input_prefix" ->
  key <> "input_suffix" -> key <> "stream" ->
  assemble state = Done (url, st) ->
  Data st !! key = Data state !! key.
Proof.
  intros H1 H2 H3 H4 H5. unfold assemble.
  destruct (interpolate (Api state) (Data state)) as [[api|err]|];
    try discriminate.
  destruct (Type_ state); unfold flush; cbn [Builder set_field set_Data];
    destruct (Builder.Messages (Builder.New (Builder state) "")) as [|m [|m' rest]];
    try discriminate;
    try destruct (interpolate (FimTmpl _) _) as [[?|?]|]; try discriminate;
    intros [= <- <-]; cbn; by rewrite !lookup_insert_ne.
Qed.

(** C10. [NewChatState] has the body fields [max_tokens: 2000] and nothing
    else, the header [content-type: application/json] and nothing else, chat
    mode, and the URL [InvalidUrl]; [query] loads every document into it.
    So when neither the document, nor the default profile, nor any profile
    they include has a [!:max_tokens] line, the request [query] builds
    carries [max_tokens] 2000. *)
Theorem initial_state :
  Data NewChatState = {[ "max_tokens" := VInt 2000 ]}
  /\ Headers NewChatState = {[ "content-type" := "application/json" ]}
  /\ Type_ NewChatState = TypeChat
  /\ Api NewChatState = InvalidUrl
  /\ (forall n fuel txt url state,
        never_mentions n "max_tokens" txt = true ->
        query_request fuel txt = Done (url, state) ->
        Data state !! "max_tokens" = Some (VInt 2000)).
Proof.
  do 4 (split; [reflexivity|]).
  intros n fuel txt url state Hq. unfold query_request, query_load.
  apply andb_prop in Hq as [Hdoc Hdef].
  destruct (Load fuel "<stdin>" txt 0 NewChatState) as [s1|e| |] eqn:E1;
    try discriminate.
  apply (Load_never_sets "max_tokens" n) in E1; [|exact Hdoc].
  destruct (String.eqb (Profile s1) "").
  - unfold LoadProfile, LoadProfile_body. unfold never_sets_profile in Hdef.
    cbv zeta in Hdef.
    destruct (profile_body _) as [body|err]; [|discriminate].
    destruct (Load fuel _ body 2 _) as [s2|e| |] eqn:E2; try discriminate.
    apply (Load_never_sets "max_tokens" n) in E2; [|exact Hdef].
    intros Hrun. apply (assemble_keeps "max_tokens") in Hrun; try done.
    rewrite Hrun, E2. cbn [Data set_Profile]. by rewrite E1.
  - intros Hrun. apply (assemble_keeps "max_tokens") in Hrun; try done.
    by rewrite Hrun, E1.
Qed.

End InitialState.

(** C10 in the sample world, for the two-message document. *)
Lemma initial_state_witness :
  exists url state,
    @query_request sample_world 2 hello_document = Done (url, state)
    /\ ChatState.Data state !! "max_tokens" = Some (VInt 2000).
Proof.
  destruct (@query_request sample_world 2 hello_document)
    as [[url state]| | |] eqn:E.
  - exists url, state. split; [reflexivity|].
    apply (proj2 (proj2 (proj2 (proj2 (@initial_state sample_world))))
             2%nat 2%nat hello_document url state); [|exact E].
    vm_compute. reflexivity.
  - vm_compute in E. discriminate.
  - vm_compute in E. discriminate.
  - vm_compute in E. discriminate.
Defined.

(** C4 in the sample world, whose environment names no profile. *)
Lemma hello_messages_witness :
  exists api state,
    @query_request sample_world 2 hello_document = Done (api, state)
    /\ ChatState.Data state !! "messages"
       = Some (VMessages [Message.mk "user" "Hello";
                          Message.mk "assistant" "Hi there"])
    /\ Builder.Messages (ChatState.Builder state)
       = [Message.mk "user" "Hello"; Message.mk "assistant" "Hi there"].
Proof. apply (@hello_messages sample_world 0). reflexivity. Defined.

(** C8 in the sample world: [!completion] and nothing to complete. *)
Lemma first_message_unguarded_witness :
  @query_request sample_world 2 (unlines ["!completion"]) = Panic.
Proof.
  exact (proj1 (proj2 (proj2 (proj2 (@first_message_unguarded sample_world)))
                  eq_refl 0%nat)).
Defined.

(** ** The streaming-response normaliser *)

Section NormaliserFacts.
Context {W : World}.

Lemma wrap64_small (n : Z) : (- 2^63 <= n < 2^63)%Z -> wrap64 n = n.
Proof. intros H. unfold wrap64. rewrite Z.mod_small; lia. Qed.

Lemma from6_data (p : string) : from6 (data p) = p.
Proof. unfold from6, data. simpl. rewrite Nat.sub_0_r. apply substring_all. Qed.

Lemma stream_loop_data p rest st :
  stream_loop (data p :: rest) st
  = if String.eqb p "[DONE]" then st else stream_loop rest (do_frame p st).
Proof.
  cbn [stream_loop]. change (strings.HasPrefix (data p) "data: ") with true.
  cbn [negb]. by rewrite from6_data.
Qed.

Lemma append_assoc (a b c : string) : (a ++ b) ++ c = a ++ b ++ c.
Proof.
  induction a as [|x a IH]; [reflexivity|]. rewrite !append_cons. by f_equal.
Qed.

Lemma length_pos (s : string) : s <> "" -> (0 <? String.length s)%nat = true.
Proof. by destruct s. Qed.

(** The first thinking fragment opens the markup; the following ones do
    not. *)
Lemma do_frame_thinking p t st :
  thinking_frame p t -> (0 <= Stream.nthinking st < 2^63 - 1)%Z ->
  do_frame p st
  = Stream.mk (Stream.nthinking st + 1) (wrap64 (Stream.nevents st + 1))
      (Stream.w st ++
       (if (Stream.nthinking st =? 0)%Z then "<think>" ++ nl else "") ++ t).
Proof.
  intros (_ & HC & HT & Ht) Hn. unfold do_frame. rewrite HC, HT.
  rewrite (length_pos _ Ht), wrap64_small by lia.
  destruct (Stream.nthinking st =? 0)%Z; [by rewrite append_assoc|reflexivity].
Qed.

(** The first text fragment after thinking closes the markup. *)
Lemma do_frame_text p x st :
  text_frame p x ->
  do_frame p st
  = Stream.mk 0 (wrap64 (Stream.nevents st + 1))
      (Stream.w st ++ nl ++ "</think>" ++ nl ++ nl ++ x)
    /\ (0 < Stream.nthinking st)%Z
  \/ do_frame p st
     = Stream.mk (Stream.nthinking st) (wrap64 (Stream.nevents st + 1))
         (Stream.w st ++ x)
     /\ (Stream.nthinking st <= 0)%Z.
Proof.
  intros (_ & HC & HT & HX & Hx). unfold do_frame. rewrite HC, HT, HX.
  rewrite (length_pos _ Hx). cbn [String.length Nat.ltb Nat.leb].
  destruct (Z.ltb_spec 0 (Stream.nthinking st)); [left|right]; split; try done.
  by rewrite !append_assoc.
Qed.

(** A run of thinking frames. *)
Lemma stream_loop_thinking (frames : list (string * string)) rest st :
  Forall (fun f => thinking_frame f.1 f.2) frames ->
  (0 <= Stream.nthinking st)%Z ->
  (Stream.nthinking st + Z.of_nat (length frames) < 2^63)%Z ->
  exists st',
    stream_loop (map (fun f => data f.1) frames ++ rest) st = stream_loop rest st'
    /\ Stream.nthinking st' = (Stream.nthinking st + Z.of_nat (length frames))%Z
    /\ Stream.w st'
       = Stream.w st ++
         (if (Stream.nthinking st =? 0)%Z && negb (Nat.eqb (length frames) 0)
          then "<think>" ++ nl else "") ++
         String.concat "" (map snd frames).
Proof.
  intros HF. revert st. induction HF as [|[p t] frames Hf HF IH]; intros st H0 Hn.
  - exists st. split; [reflexivity|]. split; [cbn; lia|].
    rewrite andb_false_r. cbn. by rewrite append_empty_r.
  - cbn [map app length fst snd] in *. rewrite stream_loop_data.
    destruct Hf as (Hp & Hf). apply String.eqb_neq in Hp as Hp'. rewrite Hp'.
    rewrite (do_frame_thinking p t st) by (done || lia).
    destruct (IH (Stream.mk (Stream.nthinking st + 1)
                    (wrap64 (Stream.nevents st + 1))
                    (Stream.w st ++
                     (if (Stream.nthinking st =? 0)%Z then "<think>" ++ nl else "")
                     ++ t))) as (st' & Hrun & Hnt & Hw);
      cbn [Stream.nthinking Stream.w] in *; [lia|lia|].
    exists st'. split; [exact Hrun|]. split; [lia|]. rewrite Hw.
    assert ((Stream.nthinking st + 1 =? 0)%Z = false) as -> by lia.
    cbn [andb negb Nat.eqb]. rewrite andb_true_r.
    assert (String.concat "" (t :: map snd frames)
            = t ++ String.concat "" (map snd frames)) as ->.
    { destruct frames as [|f frames]; cbn; [by rewrite append_empty_r|done]. }
    cbn. by rewrite !append_assoc.
Qed.

Lemma do_frame_same_text p a b :
  same_text a b -> same_text (do_frame p a) (do_frame p b).
Proof.
  intros [Hw Hn]. unfold do_frame. rewrite Hw, Hn.
  repeat match goal with
         | |- context [match ?x with _ => _ end] => destruct x
         end; by split.
Qed.

Lemma stream_loop_same_text lines a b :
  same_text a b -> same_text (stream_loop lines a) (stream_loop lines b).
Proof.
  revert a b. induction lines as [|line lines IH]; intros a b H; [done|].
  cbn [stream_loop].
  destruct (negb (strings.HasPrefix line "data: ")); [by apply IH|].
  destruct (String.eqb (from6 line) "[DONE]"); [done|].
  apply IH. by apply do_frame_same_text.
Qed.

(** C7. A data frame whose payload is not valid JSON decodes to the zero
    record: it writes nothing, leaves the markup state alone and counts as
    one event; there is no error to return.  The loop goes on: with the
    frame anywhere in a stream, the text written and the markup state are
    those of the stream without it. *)
Theorem malformed_frame_absorbed :
  (forall p, json_Valid p = false -> Unmarshal_Response p = Response.zero)
  /\ (forall p st,
        json_Valid p = false ->
        do_frame p st
        = Stream.mk (Stream.nthinking st) (wrap64 (Stream.nevents st + 1))
                    (Stream.w st))
  /\ (forall p before after st,
        json_Valid p = false -> p <> "[DONE]" ->
        Stream.w (stream_loop (before ++ data p :: after) st)
        = Stream.w (stream_loop (before ++ after) st)
        /\ Stream.nthinking (stream_loop (before ++ data p :: after) st)
           = Stream.nthinking (stream_loop (before ++ after) st)).
Proof.
  assert (forall p st,
        json_Valid p = false ->
        do_frame p st
        = Stream.mk (Stream.nthinking st) (wrap64 (Stream.nevents st + 1))
                    (Stream.w st)) as Hframe.
  { intros p st Hp. unfold do_frame, Unmarshal_Response. rewrite Hp. cbn.
    by rewrite append_empty_r. }
  split; [|split; [exact Hframe|]].
  - intros p Hp. unfold Unmarshal_Response. by rewrite Hp.
  - intros p before after st Hp Hdone.
    change (same_text (stream_loop (before ++ data p :: after) st)
                      (stream_loop (before ++ after) st)).
    revert st. induction before as [|line before IH]; intros st.
    + cbn [app]. rewrite stream_loop_data.
      apply String.eqb_neq in Hdone as ->. apply stream_loop_same_text.
      rewrite (Hframe p st Hp). by split.
    + cbn [app stream_loop].
      destruct (negb (strings.HasPrefix line "data: ")); [apply IH|].
      destruct (String.eqb (from6 line) "[DONE]"); [by split|]. apply IH.
Qed.

End NormaliserFacts.

(** C7 in the sample world: a frame that is not JSON before a text frame. *)
Lemma malformed_frame_absorbed_witness :
  Stream.w (@stream_loop sample_world
              [data "garbage"; data (text_open ++ "def" ++ delta_close)]
              Stream.init)
  = Stream.w (@stream_loop sample_world
                [data (text_open ++ "def" ++ delta_close)] Stream.init).
Proof.
  exact (proj1 (proj2 (proj2 (@malformed_frame_absorbed sample_world))
                  "garbage" [] [data (text_open ++ "def" ++ delta_close)]
                  Stream.init eq_refl ltac:(discriminate))).
Defined.

(** ** The tool-calling revision *)

Section ToolFacts.
Context {W : World}.

Lemma list_ascii_app (a b : string) :
  list_ascii_of_string (a ++ b)
  = (list_ascii_of_string a ++ list_ascii_of_string b)%list.
Proof.
  induction a as [|c a IH]; [reflexivity|].
  rewrite append_cons. cbn. by rewrite IH.
Qed.

Lemma string_of_list_app (a b : list ascii) :
  string_of_list_ascii (a ++ b)
  = string_of_list_ascii a ++ string_of_list_ascii b.
Proof.
  induction a as [|c a IH]; [reflexivity|].
  cbn. rewrite append_cons. by rewrite IH.
Qed.

Lemma string_rev_app (a b : string) :
  string_rev (a ++ b) = string_rev b ++ string_rev a.
Proof.
  unfold string_rev. by rewrite list_ascii_app, rev_app_distr, string_of_list_app.
Qed.

Lemma string_rev_involutive (a : string) : string_rev (string_rev a) = a.
Proof.
  unfold string_rev.
  by rewrite list_ascii_of_string_of_list_ascii, rev_involutive,
    string_of_list_ascii_of_string.
Qed.

Lemma TrimLeft_app x c m cutset :
  strings.IndexByte cutset c = false ->
  strings.TrimLeft (x ++ String c m) cutset
  = strings.TrimLeft x cutset ++ String c m.
Proof.
  intros Hc. induction x as [|a x IH].
  - change (strings.TrimLeft (String c m) cutset = String c m).
    cbn [strings.TrimLeft]. by rewrite Hc.
  - rewrite append_cons. cbn [strings.TrimLeft].
    destruct (strings.IndexByte cutset a); [exact IH|].
    by rewrite append_cons.
Qed.

Lemma TrimRight_keep y m c m' cutset :
  string_rev m = String c m' ->
  strings.IndexByte cutset c = false ->
  strings.TrimRight (y ++ m) cutset = y ++ m.
Proof.
  intros Hm Hc. unfold strings.TrimRight.
  rewrite string_rev_app, Hm, append_cons. cbn [strings.TrimLeft]. rewrite Hc.
  by rewrite <- append_cons, <- Hm, <- string_rev_app, string_rev_involutive.
Qed.

(** A tool response, once closed, keeps its closing marker through the
    trim. *)
Lemma Trim_closed x :
  strings.Trim (x ++ "</tool_response>") (String CR nl)
  = strings.TrimLeft x (String CR nl) ++ "</tool_response>".
Proof.
  unfold strings.Trim.
  rewrite (TrimLeft_app x "<" "/tool_response>") by reflexivity.
  by apply (TrimRight_keep _ _ ">" "esnopser_loot/<").
Qed.

Lemma New_messages b role :
  Tools.Builder.Messages (Tools.Builder.New b role)
  = (Tools.Builder.Messages b ++ Tools.Builder.segment b
       ++ Tools.Builder.companion role)%list
  /\ Tools.Builder.Role (Tools.Builder.New b role) = role
  /\ Tools.Builder.Content (Tools.Builder.New b role) = "".
Proof.
  unfold Tools.Builder.New, Tools.Builder.segment, Tools.Builder.companion,
    Tools.Builder.closed_content, Tools.Builder.WriteString.
  split; [|done].
  destruct (String.eqb (Tools.Builder.Role b) "tool") eqn:Htool;
    cbn [Tools.Builder.Content Tools.Builder.Role Tools.Builder.Messages].
  - apply String.eqb_eq in Htool. rewrite Htool.
    change (String.eqb "tool" "") with false. cbv iota.
    destruct (String.eqb (strings.Trim _ _) ""), (String.eqb role "tool");
      cbn; by rewrite ?app_nil_r, <- ?app_assoc.
  - rewrite append_empty_r.
    destruct (String.eqb (strings.Trim _ _) ""), (String.eqb role "tool"),
      (String.eqb (Tools.Builder.Role b) "");
      cbn; by rewrite ?app_nil_r, <- ?app_assoc.
Qed.

(** A [!tool] line takes the [!tool] branch. *)
Lemma do_line_tool LP name line depth lineno s args ok :
  cut line " " = ("!tool", args, ok) ->
  Tools.do_line LP name line depth lineno s
  = Next (Tools.ChatState.set_Builder s
            (Tools.Builder.mk
               (Tools.Builder.Messages
                  (Tools.Builder.New (Tools.ChatState.Builder s) "tool"))
               "tool" ("<tool_response>" ++ nl))).
Proof.
  intros Hcut. unfold Tools.do_line. rewrite Hcut.
  assert (strings.HasPrefix line "!!" = false) as ->.
  { rewrite (cut_line _ _ _ _ Hcut). by destruct ok. }
  reflexivity.
Qed.

(** C3. [New] adds to the message list the segment it finalizes and then,
    when the new role is [tool], an empty assistant message, whether or not
    the segment was empty; the segment is the content, with the closing
    marker appended first when the previous role is [tool], then trimmed.
    A tool response is therefore never dropped and ends with its closing
    marker.  The [!tool] directive calls [New] and then opens the new
    segment with the opening marker and a newline. *)
Theorem tool_role_transitions :
  (forall b role,
     Tools.Builder.Messages (Tools.Builder.New b role)
     = (Tools.Builder.Messages b ++ Tools.Builder.segment b
          ++ Tools.Builder.companion role)%list
     /\ Tools.Builder.Role (Tools.Builder.New b role) = role
     /\ Tools.Builder.Content (Tools.Builder.New b role) = "")
  /\ (forall b,
        Tools.Builder.Role b = "tool" ->
        Tools.Builder.segment b
        = [Tools.Message.mk "tool"
             (strings.TrimLeft (Tools.Builder.Content b) (String CR nl)
              ++ "</tool_response>") []])
  /\ (forall b,
        Tools.Builder.Messages (Tools.Builder.New b "tool")
        = (Tools.Builder.Messages b ++ Tools.Builder.segment b
             ++ [Tools.Message.mk "assistant" "" []])%list)
  /\ (forall LP name line depth lineno s args ok,
        cut line " " = ("!tool", args, ok) ->
        Tools.do_line LP name line depth lineno s
        = Next (Tools.ChatState.set_Builder s
                  (Tools.Builder.mk
                     (Tools.Builder.Messages (Tools.ChatState.Builder s)
                        ++ Tools.Builder.segment (Tools.ChatState.Builder s)
                        ++ [Tools.Message.mk "assistant" "" []])
                     "tool" ("<tool_response>" ++ nl)))).
Proof.
  split; [exact New_messages|]. split; [|split].
  - intros b Hb. unfold Tools.Builder.segment, Tools.Builder.closed_content.
    rewrite Hb. change (String.eqb "tool" "tool") with true.
    change (String.eqb "tool" "") with false. cbv iota.
    rewrite Trim_closed.
    destruct (strings.TrimLeft (Tools.Builder.Content b) (String CR nl)); done.
  - intros b. by destruct (New_messages b "tool") as [-> _].
  - intros LP name line depth lineno s args ok Hcut.
    rewrite (do_line_tool _ _ _ _ _ _ _ _ Hcut).
    by destruct (New_messages (Tools.ChatState.Builder s) "tool") as [-> _].
Qed.

End ToolFacts.

(** C3 in the sample world: [!tool] after an empty first segment. *)
Lemma tool_role_transitions_witness :
  @Tools.do_line sample_world (fun _ _ _ => Timeout) "<stdin>" "!tool" 0 1
    (Tools.NewChatState "")
  = Next (Tools.ChatState.set_Builder (Tools.NewChatState "")
            (Tools.Builder.mk [Tools.Message.mk "assistant" "" []]
               "tool" ("<tool_response>" ++ nl))).
Proof.
  exact (proj2 (proj2 (proj2 (@tool_role_transitions sample_world)))
           (fun _ _ _ => Timeout) "<stdin>" "!tool" 0%nat 1%Z
           (Tools.NewChatState "") "" false eq_refl).
Defined.

(** ** Worked examples in the sample world *)

Section Examples.
Import ChatState.

(** The profile [claude] raises [max_tokens] when the document says
    nothing, and gives way to the document wherever its line stands. *)
Example profile_sets_max_tokens :
  field_of (@query_request sample_world 2 (unlines ["!profile claude"; "hi"]))
           "max_tokens" = Some (VString "10000").
Proof. vm_compute. reflexivity. Qed.

Example document_before_profile :
  field_of (@query_request sample_world 2
              (unlines ["!:max_tokens 5"; "!profile claude"; "hi"]))
           "max_tokens" = Some (VString "5").
Proof. vm_compute. reflexivity. Qed.

Example document_after_profile :
  field_of (@query_request sample_world 2
              (unlines ["!profile claude"; "!:max_tokens 5"; "hi"]))
           "max_tokens" = Some (VString "5").
Proof. vm_compute. reflexivity. Qed.

(** A profile that includes a profile needs one more level, and overrides
    what the profile it includes has set. *)
Example nested_profile :
  @query_request sample_world 2 (unlines ["!profile claude-extended"; "hi"])
  = Timeout
  /\ field_of (@query_request sample_world 3
                 (unlines ["!profile claude-extended"; "hi"]))
              "max_tokens" = Some (VString "20000").
Proof. split; vm_compute; reflexivity. Qed.

(** The quoted URL of [claude] is taken as it stands; the default one gets
    the suffix of the mode. *)
Example strict_url :
  url_of (@query_request sample_world 2 (unlines ["!profile claude"; "hi"]))
  = Some "https://api.anthropic.com/v1/messages"
  /\ url_of (@query_request sample_world 2 (unlines ["hi"]))
     = Some "http://localhost:8080/chat/completions"
  /\ url_of (@query_request sample_world 2 (unlines ["!completion"; "hi"]))
     = Some "http://localhost:8080/completions".
Proof. repeat split; vm_compute; reflexivity. Qed.

(** A template fill-in-the-middle request. *)
Example fim_prompt :
  field_of (@query_request sample_world 2
              (unlines ["!profile fim:granite"; "!api http://localhost:8080/";
                        "int x;"; "!infill"; "int y;"]))
           "prompt"
  = Some (VString ("<fim_prefix>int x;" ++ nl ++ "<fim_suffix>" ++ nl
                   ++ "int y;<fim_middle>")).
Proof. vm_compute. reflexivity. Qed.

Example tagmatch_examples :
  tagmatch "<think>" "think" = TagOpen
  /\ tagmatch "</think>" "think" = TagClose
  /\ tagmatch "<thank>" "think" = TagNone
  /\ tagmatch "think" "think" = TagNone.
Proof. repeat split. Qed.

Example cut_examples :
  cut "!api http://h/ x" " " = ("!api", "http://h/ x", true)
  /\ cut "!end" " " = ("!end", "", false)
  /\ cut "" " " = ("", "", false).
Proof. repeat split. Qed.

End Examples.

(** ** More about [cut] and [interpolate] *)

Section InterpolationMore.
Context {W : World}.

Lemma cut_missing_absent s b pre post :
  cut s b = (pre, post, false) -> strings.IndexByte s b = false.
Proof.
  revert pre post. induction s as [|c s IH]; intros pre post; simpl; [done|].
  destruct (Ascii.eqb c b); [discriminate|].
  destruct (cut s b) as [[p q] ok]. intros [= <- <- ->]. simpl. eauto.
Qed.

(** X1. [cut] splits at the first [b]: when it finds one, the string is the
    part before, [b], and the part after, and the part before has no [b];
    when it finds none, the string has no [b], the part before is the whole
    string and the part after is empty. *)
Theorem cut_spec s b :
  match cut s b with
  | (pre, post, true) =>
      s = pre ++ String b post /\ strings.IndexByte pre b = false
  | (pre, post, false) =>
      pre = s /\ post = "" /\ strings.IndexByte s b = false
  end.
Proof.
  destruct (cut s b) as [[pre post] [|]] eqn:E.
  - by apply cut_found.
  - destruct (cut_missing _ _ _ _ E) as [-> ->].
    split; [done|]. split; [done|]. by eapply cut_missing_absent.
Qed.

Lemma cut_absent s b :
  strings.IndexByte s b = false -> cut s b = (s, "", false).
Proof.
  induction s as [|c s IH]; simpl; [done|].
  intros H. apply orb_false_iff in H as [-> Hs]. by rewrite (IH Hs).
Qed.

(** The loop needs no more turns than the template has bytes, plus one. *)
Lemma interpolate_loop_fuel f1 f2 s vars b :
  String.length s < f1 -> String.length s < f2 ->
  interpolate_loop f1 s vars b = interpolate_loop f2 s vars b.
Proof.
  revert f2 s b. induction f1 as [|f1 IH]; intros f2 s b H1 H2; [lia|].
  destruct f2 as [|f2]; [lia|]. simpl.
  destruct (cut s "{") as [[pre key] ok] eqn:E1. destruct ok; simpl; [|done].
  destruct (cut key "}") as [[k rest] ok] eqn:E2. destruct ok; simpl; [|done].
  apply cut_length in E1. apply cut_length in E2.
  destruct (vars !! k) as [v|]; [|done].
  destruct v; apply IH; lia.
Qed.

Lemma interpolate_loop_buffer fuel s vars b :
  interpolate_loop fuel s vars b = prepend b (interpolate_loop fuel s vars "").
Proof.
  revert s b. induction fuel as [|fuel IH]; intros s b; simpl; [done|].
  destruct (cut s "{") as [[pre key] ok]. destruct ok; simpl; [|done].
  destruct (cut key "}") as [[k rest] ok]. destruct ok; simpl; [|done].
  destruct (vars !! k) as [v|]; [|done].
  assert (forall x, interpolate_loop fuel rest vars ((b ++ pre) ++ x)
                    = prepend b (interpolate_loop fuel rest vars (("" ++ pre) ++ x)))
    as H.
  { intros x. rewrite (IH rest ((b ++ pre) ++ x)), (IH rest (("" ++ pre) ++ x)).
    destruct (interpolate_loop fuel rest vars "") as [[r|e]|]; simpl; [|done..].
    change ("" ++ pre) with pre. by rewrite !append_assoc. }
  destruct v; apply H.
Qed.

(** X2. A template without an opening brace is returned as it is, closing
    braces included, whatever the mapping. *)
Theorem interpolate_plain s vars :
  strings.IndexByte s "{" = false -> interpolate s vars = Some (Ok s).
Proof.
  intros H. unfold interpolate. cbn [interpolate_loop].
  by rewrite (cut_absent _ _ H).
Qed.

(** The first placeholder of a template. *)
Lemma interpolate_first pre key rest v vars :
  strings.IndexByte pre "{" = false ->
  strings.IndexByte key "}" = false ->
  vars !! key = Some v ->
  interpolate (pre ++ "{" ++ key ++ "}" ++ rest) vars
  = prepend (pre ++ value_text v) (interpolate rest vars).
Proof.
  intros Hpre Hkey Hv. unfold interpolate at 1. cbn [interpolate_loop].
  change (pre ++ "{" ++ key ++ "}" ++ rest)
    with (pre ++ String "{" (key ++ String "}" rest)).
  rewrite (cut_app _ _ _ Hpre). cbn [negb]. rewrite (cut_app _ _ _ Hkey).
  cbn [negb]. rewrite Hv.
  assert (forall x,
            interpolate_loop
              (String.length (pre ++ String "{" (key ++ String "}" rest)))
              rest vars (("" ++ pre) ++ x)
            = prepend (pre ++ x) (interpolate rest vars)) as H.
  { intros x. rewrite interpolate_loop_buffer. unfold interpolate.
    rewrite (interpolate_loop_fuel _ (S (String.length rest))); [done| |lia].
    rewrite !length_append. simpl. rewrite !length_append. simpl. lia. }
  destruct v; apply H.
Qed.

(** X3. One placeholder at a time, from the left: what stands before the
    first opening brace is copied, the key up to the next closing brace is
    replaced by the text of its value, and the rest is interpolated on its
    own; the value is not read for placeholders, and an error in the rest is
    the error of the whole. *)
Theorem interpolate_step pre key rest v vars :
  strings.IndexByte pre "{" = false ->
  strings.IndexByte key "}" = false ->
  vars !! key = Some v ->
  interpolate (pre ++ "{" ++ key ++ "}" ++ rest) vars
  = prepend (pre ++ value_text v) (interpolate rest vars).
Proof. apply interpolate_first. Qed.

Lemma interpolate_loop_outcomes fuel s vars b :
  String.length s < fuel ->
  (exists text, interpolate_loop fuel s vars b = Some (Ok text))
  \/ interpolate_loop fuel s vars b = Some (Err ErrUnmatched)
  \/ (exists key, key ∈ placeholders_loop fuel s /\ vars !! key = None /\
        interpolate_loop fuel s vars b = Some (Err (ErrMissingKey key))).
Proof.
  revert s b. induction fuel as [|fuel IH]; intros s b Hlen; [lia|]. simpl.
  destruct (cut s "{") as [[pre key] ok] eqn:E1. destruct ok; simpl; [|eauto].
  destruct (cut key "}") as [[k rest] ok] eqn:E2. destruct ok; simpl; [|eauto].
  apply cut_length in E1. apply cut_length in E2.
  destruct (vars !! k) as [v|] eqn:Hk.
  - assert (forall x,
      (exists text, interpolate_loop fuel rest vars x = Some (Ok text))
      \/ interpolate_loop fuel rest vars x = Some (Err ErrUnmatched)
      \/ (exists key0, key0 ∈ k :: placeholders_loop fuel rest /\
            vars !! key0 = None /\
            interpolate_loop fuel rest vars x = Some (Err (ErrMissingKey key0))))
      as H.
    { intros x. destruct (IH rest x) as [H|[H|(k0 & Hin & Hn & H)]];
        [lia|eauto..]. right; right. exists k0.
      split; [by apply elem_of_cons; right|done]. }
    destruct v; apply H.
  - right; right. exists k. split; [by apply elem_of_cons; left|done].
Qed.

(** X4. [interpolate] returns for every template and mapping, and has three
    outcomes: a text, the unmatched-brace error, or a missing-key error for a
    key that the template refers to and the mapping lacks. *)
Theorem interpolate_outcomes s vars :
  (exists text, interpolate s vars = Some (Ok text))
  \/ interpolate s vars = Some (Err ErrUnmatched)
  \/ (exists key, key ∈ placeholders s /\ vars !! key = None /\
        interpolate s vars = Some (Err (ErrMissingKey key))).
Proof. apply interpolate_loop_outcomes. lia. Qed.

Lemma replacement_value_text v : replacement v = value_text v.
Proof. by destruct v. Qed.

(** C9. A placeholder whose value is not a string is replaced by the JSON
    text of the value followed by a newline: the encoder ends what it writes
    with one.  So ["{k}"], with [k] bound to a number whose JSON text is
    ["5"], interpolates to ["5"] and a newline, not to ["5"].  This holds
    for a placeholder anywhere in a template: the first placeholder is
    replaced so whatever stands before and after it, and the rest of the
    template is interpolated in the same way; so a template of texts and
    bound placeholders becomes the texts and, for every placeholder, its
    replacement, the newline included after every value that is not a
    string, in the middle of a URL too. *)
Theorem interpolate_non_string_newline :
  (forall key v vars,
     strings.IndexByte key "}" = false ->
     vars !! key = Some v -> is_string v = false ->
     interpolate ("{" ++ key ++ "}") vars = Some (Ok (json_text v ++ nl)))
  /\ (forall v,
        is_string v = false -> json_text v = "5" ->
        interpolate "{k}" {[ "k" := v ]} = Some (Ok (String "5" nl))
        /\ interpolate "{k}" {[ "k" := v ]} <> Some (Ok "5"))
  /\ (forall pre key rest v vars,
        strings.IndexByte pre "{" = false ->
        strings.IndexByte key "}" = false ->
        vars !! key = Some v -> is_string v = false ->
        interpolate (pre ++ "{" ++ key ++ "}" ++ rest) vars
        = prepend (pre ++ json_text v ++ nl) (interpolate rest vars))
  /\ (forall parts tail vars,
        Forall (fun part => strings.IndexByte part.1 "{" = false /\
                            strings.IndexByte part.2 "}" = false /\
                            is_Some (vars !! part.2)) parts ->
        strings.IndexByte tail "{" = false ->
        interpolate (template parts tail) vars
        = Some (Ok (filled vars parts tail)))
  /\ (forall v,
        is_string v = false -> json_text v = "5" ->
        interpolate "http://h/{n}/v1" {[ "n" := v ]}
        = Some (Ok ("http://h/5" ++ nl ++ "/v1"))).
Proof.
  assert (forall key v vars,
     strings.IndexByte key "}" = false ->
     vars !! key = Some v -> is_string v = false ->
     interpolate ("{" ++ key ++ "}") vars = Some (Ok (json_text v ++ nl))) as H.
  { intros key v vars Hkey Hv Hs. rewrite (interpolate_single key v vars Hkey Hv).
    destruct v; try reflexivity. discriminate. }
  assert (forall pre key rest v vars,
        strings.IndexByte pre "{" = false ->
        strings.IndexByte key "}" = false ->
        vars !! key = Some v -> is_string v = false ->
        interpolate (pre ++ "{" ++ key ++ "}" ++ rest) vars
        = prepend (pre ++ json_text v ++ nl) (interpolate rest vars)) as Hfirst.
  { intros pre key rest v vars Hpre Hkey Hv Hs.
    rewrite (interpolate_first pre key rest v vars Hpre Hkey Hv).
    destruct v; try reflexivity. discriminate. }
  split; [exact H|]. split; [|split; [exact Hfirst|split]].
  - intros v Hs H5.
    assert (interpolate "{k}" {[ "k" := v ]} = Some (Ok (String "5" nl))) as E.
    { change "{k}" with ("{" ++ "k" ++ "}").
      rewrite (H "k" v {[ "k" := v ]} eq_refl (lookup_singleton_eq _ _) Hs).
      rewrite H5. reflexivity. }
    split; [exact E|]. rewrite E. discriminate.
  - intros parts tail vars HF Htail.
    induction HF as [|[pre key] parts (Hpre & Hkey & [v Hv]) HF IH].
    + cbn [template filled]. unfold interpolate. cbn [interpolate_loop].
      by rewrite (cut_absent _ _ Htail).
    + cbn [template filled fst snd] in *.
      rewrite (interpolate_first pre key _ v vars Hpre Hkey Hv), IH, Hv.
      cbn [prepend from_option]. rewrite append_assoc.
      by rewrite <- (replacement_value_text v).
  - intros v Hs H5.
    change "http://h/{n}/v1" with ("http://h/" ++ "{" ++ "n" ++ "}" ++ "/v1").
    rewrite (Hfirst "http://h/" "n" "/v1" v {[ "n" := v ]} eq_refl eq_refl
               (lookup_singleton_eq _ _) Hs).
    rewrite H5. reflexivity.
Qed.

End InterpolationMore.

Lemma interpolate_plain_witness :
  @interpolate sample_world "a}b" ∅ = Some (Ok "a}b").
Proof. exact (@interpolate_plain sample_world "a}b" ∅ eq_refl). Defined.

Lemma interpolate_step_witness :
  @interpolate sample_world "v={k};" {[ "k" := VString "{x}" ]}
  = Some (Ok "v={x};").
Proof.
  exact (@interpolate_step sample_world "v=" "k" ";" (VString "{x}")
           {[ "k" := VString "{x}" ]} eq_refl eq_refl eq_refl).
Defined.

(** C9 for the integer 5 of the sample world, alone and inside a URL. *)
Lemma interpolate_non_string_newline_witness :
  @interpolate sample_world "{k}" {[ "k" := VInt 5 ]} = Some (Ok (String "5" nl))
  /\ @interpolate sample_world "http://h/{n}/v1" {[ "n" := VInt 5 ]}
     = Some (Ok ("http://h/5" ++ nl ++ "/v1")).
Proof.
  split.
  - apply (proj1 (proj2 (@interpolate_non_string_newline sample_world))
             (VInt 5)); reflexivity.
  - apply (proj2 (proj2 (proj2 (proj2
             (@interpolate_non_string_newline sample_world)))) (VInt 5));
      reflexivity.
Defined.

(** ** Tags and excluded regions *)

Section Exclusion.
Context {W : World}.
Import ChatState.

Lemma get_app_length (t : string) c r :
  String.get (String.length t) (t ++ String c r) = Some c.
Proof. induction t as [|x t IH]; [done|]. rewrite append_cons. exact IH. Qed.

Lemma substring_app_length (t r : string) :
  String.substring 0 (String.length t) (t ++ r) = t.
Proof.
  induction t as [|x t IH]; [by destruct r|].
  rewrite append_cons. simpl. by rewrite IH.
Qed.

Lemma substring_split (m : nat) (s t : string) c :
  String.length s = S m ->
  String.substring 0 m s = t ->
  String.get m s = Some c ->
  s = t ++ String c "".
Proof.
  revert s t. induction m as [|m IH]; intros s t Hlen Hsub Hget.
  - destruct s as [|x [|y s]]; try discriminate. simpl in *.
    injection Hget as ->. by subst t.
  - destruct s as [|x s]; [discriminate|]. simpl in *.
    destruct t as [|y t]; [discriminate|]. injection Hsub as -> Hsub.
    rewrite append_cons. f_equal. apply IH; [lia|done|done].
Qed.

Lemma byte_at_spec s i c : byte_at s i c = true <-> String.get i s = Some c.
Proof.
  unfold byte_at. destruct (String.get i s) as [x|]; [|done].
  destruct (Ascii.eqb_spec x c); split; congruence.
Qed.

Lemma tagmatch_open_tag tag :
  tag <> "" -> tagmatch ("<" ++ tag ++ ">") tag = TagOpen.
Proof.
  intros Hne. unfold tagmatch.
  change ("<" ++ tag ++ ">") with (String "<" (tag ++ ">")).
  cbn [String.length]. rewrite length_append. cbn [String.length].
  replace (2 <? S (String.length tag + 1))%nat with true
    by (destruct tag; [done|symmetry; apply Nat.ltb_lt; simpl; lia]).
  replace (S (String.length tag + 1) - 1) with (S (String.length tag)) by lia.
  rewrite (proj2 (byte_at_spec _ 0 "<")) by done.
  rewrite (proj2 (byte_at_spec _ (S (String.length tag)) ">"))
    by (simpl; apply get_app_length).
  replace (S (String.length tag + 1) =? String.length tag + 2)%nat with true
    by (symmetry; apply Nat.eqb_eq; lia).
  cbn [String.substring andb]. rewrite substring_app_length.
  by rewrite String.eqb_refl.
Qed.

Lemma tagmatch_close_tag tag : tagmatch ("</" ++ tag ++ ">") tag = TagClose.
Proof.
  unfold tagmatch.
  change ("</" ++ tag ++ ">") with (String "<" (String "/" (tag ++ ">"))).
  cbn [String.length]. rewrite length_append. cbn [String.length].
  replace (2 <? S (S (String.length tag + 1)))%nat with true
    by (symmetry; apply Nat.ltb_lt; lia).
  replace (S (S (String.length tag + 1)) - 1) with (S (S (String.length tag)))
    by lia.
  rewrite (proj2 (byte_at_spec _ 0 "<")) by done.
  rewrite (proj2 (byte_at_spec _ 1 "/")) by done.
  rewrite (proj2 (byte_at_spec _ (S (S (String.length tag))) ">"))
    by (simpl; apply get_app_length).
  replace (S (S (String.length tag + 1)) =? String.length tag + 2)%nat
    with false by (symmetry; apply Nat.eqb_neq; lia).
  replace (S (S (String.length tag + 1)) =? String.length tag + 3)%nat
    with true by (symmetry; apply Nat.eqb_eq; lia).
  cbn [String.substring andb]. rewrite substring_app_length.
  by rewrite String.eqb_refl.
Qed.

(** A line that [tagmatch] takes for the closing tag is that tag. *)
Lemma tagmatch_close_inv s tag :
  tagmatch s tag = TagClose -> s = "</" ++ tag ++ ">".
Proof.
  unfold tagmatch.
  destruct ((2 <? String.length s)%nat && byte_at s 0 "<"
            && byte_at s (String.length s - 1) ">") eqn:Hhead; [|discriminate].
  apply andb_prop in Hhead as [Hhead Hlast].
  apply andb_prop in Hhead as [Hlen Hfirst].
  apply byte_at_spec in Hfirst, Hlast.
  destruct (Nat.eqb_spec (String.length s) (String.length tag + 2)) as [Hn|Hn].
  { by destruct (String.eqb _ _). }
  destruct (Nat.eqb_spec (String.length s) (String.length tag + 3)) as [Hm|Hm];
    [|discriminate].
  destruct (String.eqb_spec (String.substring 2 (String.length tag) s) tag)
    as [Hsub|]; [|discriminate].
  destruct (byte_at s 1 "/") eqn:Hslash; [|discriminate]. intros _.
  apply byte_at_spec in Hslash.
  destruct s as [|x [|y s]]; try discriminate.
  replace (String.length (String x (String y s)) - 1)
    with (S (S (String.length tag))) in Hlast by (simpl in Hm |- *; lia).
  simpl in Hfirst, Hslash, Hm, Hsub, Hlast.
  injection Hfirst as ->. injection Hslash as ->.
  change ("</" ++ tag ++ ">") with (String "<" (String "/" (tag ++ ">"))).
  do 2 f_equal.
  apply (substring_split (String.length tag)); [lia|done|done].
Qed.

(** X5. [tagmatch] recognises the whole line and nothing else: the opening
    tag is [<], the tag, [>], for a tag that is not empty, and the closing
    tag is [</], the tag, [>]; any other line is no tag. *)
Theorem tagmatch_spec s tag :
  (tagmatch s tag = TagOpen <-> tag <> "" /\ s = "<" ++ tag ++ ">")
  /\ (tagmatch s tag = TagClose <-> s = "</" ++ tag ++ ">").
Proof.
  split; split.
  - unfold tagmatch.
    destruct ((2 <? String.length s)%nat && byte_at s 0 "<"
              && byte_at s (String.length s - 1) ">") eqn:Hhead; [|discriminate].
    apply andb_prop in Hhead as [Hhead Hlast].
    apply andb_prop in Hhead as [Hlen Hfirst].
    apply Nat.ltb_lt in Hlen. apply byte_at_spec in Hfirst, Hlast.
    destruct (Nat.eqb_spec (String.length s) (String.length tag + 2)) as [Hn|Hn].
    + destruct (String.eqb_spec (String.substring 1 (String.length tag) s) tag)
        as [Hsub|]; [|discriminate]. intros _.
      split; [destruct tag; [simpl in Hn; lia|done]|].
      destruct s as [|x s]; [discriminate|].
      replace (String.length (String x s) - 1) with (S (String.length tag))
        in Hlast by (simpl in Hn |- *; lia).
      simpl in Hfirst, Hn, Hsub, Hlast. injection Hfirst as ->.
      change ("<" ++ tag ++ ">") with (String "<" (tag ++ ">")). f_equal.
      apply (substring_split (String.length tag)); [lia|done|done].
    + destruct (String.length s =? String.length tag + 3)%nat; [|discriminate].
      by destruct (_ && _).
  - intros [Hne ->]. by apply tagmatch_open_tag.
  - apply tagmatch_close_inv.
  - intros ->. apply tagmatch_close_tag.
Qed.

Lemma IndexByte_app (a b : string) c :
  strings.IndexByte (a ++ b) c = strings.IndexByte a c || strings.IndexByte b c.
Proof.
  induction a as [|x a IH]; [done|]. rewrite append_cons. simpl.
  by rewrite IH, orb_assoc.
Qed.

(** The loop of [Load] does the same with any number of turns that covers
    the text. *)
Lemma Load_loop_fuel LP n m name lines depth lineno s :
  String.length lines <= n -> String.length lines <= m ->
  Load_loop LP n name lines depth lineno s
  = Load_loop LP m name lines depth lineno s.
Proof.
  revert m lines lineno s.
  induction n as [|n IH]; intros m lines lineno s Hn Hm.
  - destruct lines; [by destruct m|simpl in Hn; lia].
  - destruct m as [|m]; [destruct lines; [done|simpl in Hm; lia]|]. simpl.
    destruct (String.eqb_spec lines "") as [->|Hne]; [done|].
    destruct (cut lines LF) as [[line rest] ok] eqn:Hcut.
    apply cut_shorter in Hcut; [|done].
    destruct (do_line LP name line depth lineno s); try done.
    apply IH; lia.
Qed.

Lemma Load_loop_turn LP n name line rest depth lineno s :
  strings.IndexByte line LF = false ->
  Load_loop LP (S n) name (line ++ nl ++ rest) depth lineno s
  = match do_line LP name line depth lineno s with
    | Next s' => Load_loop LP n name rest depth (lineno + 1) s'
    | Stop s' => Done s'
    | Raise e => Failed e
    | Stuck => Timeout
    end.
Proof.
  intros Hline. cbn [Load_loop].
  assert (String.eqb (line ++ nl ++ rest) "" = false) as ->.
  { apply String.eqb_neq. by destruct line. }
  change (line ++ nl ++ rest) with (line ++ String LF rest).
  by rewrite (cut_app _ _ _ Hline).
Qed.

(** One turn of the loop, on a text that begins with a full line. *)
Lemma Load_loop_line LP n name line rest depth lineno s :
  strings.IndexByte line LF = false ->
  String.length (line ++ nl ++ rest) <= n ->
  Load_loop LP n name (line ++ nl ++ rest) depth lineno s
  = match do_line LP name line depth lineno s with
    | Next s' => Load_loop LP n name rest depth (lineno + 1) s'
    | Stop s' => Done s'
    | Raise e => Failed e
    | Stuck => Timeout
    end.
Proof.
  intros Hline Hn. rewrite !length_append in Hn.
  destruct n as [|n]; [simpl in Hn; lia|].
  rewrite Load_loop_turn by done.
  destruct (do_line LP name line depth lineno s); try done.
  apply Load_loop_fuel; simpl in Hn; lia.
Qed.

Lemma unlines_cons_app l ls rest :
  unlines (l :: ls) ++ rest = l ++ nl ++ unlines ls ++ rest.
Proof. cbn [unlines]. by rewrite !append_assoc. Qed.

Lemma unlines_snoc_app ls l rest :
  unlines (ls ++ [l]) ++ rest = unlines ls ++ l ++ nl ++ rest.
Proof.
  induction ls as [|x ls IH]; cbn [app].
  - rewrite unlines_cons_app. reflexivity.
  - by rewrite !unlines_cons_app, IH.
Qed.

(** While a region is excluded, a line is looked at for the closing tag and
    for nothing else. *)
Lemma do_line_excluding LP name line depth lineno s :
  Exclude s <> "" -> Excluding s = true ->
  do_line LP name line depth lineno s
  = Next (set_Excluding s
            (negb (Tag_eqb (tagmatch line (Exclude s)) TagClose))).
Proof.
  intros Hne Hex. unfold do_line, exclude_step.
  destruct (cut line " ") as [[command args] ok].
  rewrite (length_pos _ Hne), Hex. reflexivity.
Qed.

Lemma Load_loop_excluding LP n name (body : list string) rest depth lineno s :
  Exclude s <> "" -> Excluding s = true ->
  Forall (fun l => strings.IndexByte l LF = false /\
                   l <> "</" ++ Exclude s ++ ">") body ->
  String.length (unlines body ++ rest) <= n ->
  Load_loop LP n name (unlines body ++ rest) depth lineno s
  = Load_loop LP n name rest depth (lineno + Z.of_nat (length body)) s.
Proof.
  intros Hne Hex HF. revert lineno.
  induction HF as [|l body [Hl Hclose] HF IH]; intros lineno Hn.
  - cbn. by rewrite Z.add_0_r.
  - rewrite unlines_cons_app in *.
    rewrite Load_loop_line by done. rewrite do_line_excluding by done.
    assert (Tag_eqb (tagmatch l (Exclude s)) TagClose = false) as ->.
    { destruct (tagmatch l (Exclude s)) eqn:E; try done.
      by apply tagmatch_close_inv in E. }
    assert (set_Excluding s (negb false) = s) as ->.
    { destruct s. simpl in Hex. by subst. }
    rewrite IH.
    + f_equal. cbn [length]. lia.
    + rewrite !length_append in *. lia.
Qed.

(** X6. A region between the opening and the closing tag of [!exclude] is
    invisible: with the tag set and no region open, the loop of [Load] does
    with the two tag lines and everything between them, directives
    included, what it does with nothing at all, and goes on after them.  A
    region that is never closed swallows the rest of the text. *)
Theorem excluded_region LP n name (body : list string) rest depth lineno s :
  Exclude s <> "" -> strings.IndexByte (Exclude s) LF = false ->
  Excluding s = false ->
  Forall (fun l => strings.IndexByte l LF = false /\
                   l <> "</" ++ Exclude s ++ ">") body ->
  (String.length
     (unlines (("<" ++ Exclude s ++ ">") :: body ++ ["</" ++ Exclude s ++ ">"])
      ++ rest) <= n ->
   Load_loop LP n name
     (unlines (("<" ++ Exclude s ++ ">") :: body ++ ["</" ++ Exclude s ++ ">"])
      ++ rest) depth lineno s
   = Load_loop LP n name rest depth (lineno + Z.of_nat (length body) + 2) s)
  /\ (String.length (unlines (("<" ++ Exclude s ++ ">") :: body)) <= n ->
      Load_loop LP n name (unlines (("<" ++ Exclude s ++ ">") :: body))
        depth lineno s
      = Done (set_Excluding s true)).
Proof.
  intros Hne Htag Hex HF.
  assert (strings.IndexByte ("<" ++ Exclude s ++ ">") LF = false) as Hopen.
  { change ("<" ++ Exclude s ++ ">") with (String "<" (Exclude s ++ ">")).
    simpl. by rewrite IndexByte_app, Htag. }
  assert (strings.IndexByte ("</" ++ Exclude s ++ ">") LF = false) as Hclose.
  { change ("</" ++ Exclude s ++ ">")
      with (String "<" (String "/" (Exclude s ++ ">"))).
    simpl. by rewrite IndexByte_app, Htag. }
  assert (forall LP' name' depth' lineno',
            do_line LP' name' ("<" ++ Exclude s ++ ">") depth' lineno' s
            = Next (set_Excluding s true)) as Hfirst.
  { intros. unfold do_line, exclude_step.
    destruct (cut _ " ") as [[command args] ok].
    rewrite (length_pos _ Hne), Hex, (tagmatch_open_tag _ Hne). reflexivity. }
  split; intros Hn.
  - rewrite unlines_cons_app, unlines_snoc_app in *.
    rewrite Load_loop_line, Hfirst by done.
    rewrite (Load_loop_excluding _ _ _ body); [|done|done|done|].
    2:{ rewrite !length_append in *. lia. }
    rewrite Load_loop_line; [|done|].
    2:{ rewrite !length_append in *. lia. }
    rewrite do_line_excluding by done.
    cbn [Exclude set_Excluding]. rewrite tagmatch_close_tag. cbn.
    assert (set_Excluding (set_Excluding s true) false = s) as ->.
    { destruct s. simpl in Hex. by subst. }
    f_equal. lia.
  - rewrite <- (append_empty_r (unlines _)) in Hn |- *.
    rewrite unlines_cons_app in *.
    rewrite Load_loop_line, Hfirst by done.
    rewrite (Load_loop_excluding _ _ _ body); [|done|done|done|].
    2:{ rewrite !length_append in *. lia. }
    by destruct n.
Qed.

End Exclusion.

(** X6 in the sample world: an [!end] and a line of text inside the region
    [think] are not read. *)
Lemma excluded_region_witness :
  @Load_loop sample_world (fun _ _ _ => Timeout) 100 "<stdin>"
    (unlines ["<think>"; "!end"; "secret"; "</think>"; "hi"]) 0 1
    (ChatState.set_Exclude NewChatState "think")
  = @Load_loop sample_world (fun _ _ _ => Timeout) 100 "<stdin>"
      (unlines ["hi"]) 0 5 (ChatState.set_Exclude NewChatState "think").
Proof.
  refine (proj1 (@excluded_region sample_world (fun _ _ _ => Timeout) 100
                   "<stdin>" ["!end"; "secret"] (unlines ["hi"]) 0%nat 1%Z
                   (ChatState.set_Exclude NewChatState "think") _ _ _ _) _).
  - discriminate.
  - reflexivity.
  - reflexivity.
  - repeat constructor; discriminate.
  - simpl. lia.
Defined.

(** ** Lines, headers and errors of a load *)

Section Lines.
Context {W : World}.
Import ChatState.

Lemma eqb_bang c rest x :
  Ascii.eqb c "!" = false -> String.eqb (String c rest) (String "!" x) = false.
Proof. intros H. cbn [String.eqb]. by rewrite H. Qed.

(** The command of a line that does not begin with [!] does not either. *)
Lemma cut_command_plain line command args ok :
  strings.HasPrefix line "!" = false ->
  cut line " " = (command, args, ok) ->
  strings.HasPrefix command "!" = false.
Proof.
  destruct line as [|c line]; simpl; [by intros _ [= <- _ _]|].
  rewrite andb_true_r. intros Hc.
  destruct (Ascii.eqb c " "); [by intros [= <- _ _]|].
  destruct (cut line " ") as [[p q] o]. intros [= <- _ _]. simpl.
  by rewrite andb_true_r.
Qed.

Lemma HasPrefix_bang c rest :
  strings.HasPrefix (String c rest) "!" = false -> Ascii.eqb c "!" = false.
Proof.
  cbn [strings.HasPrefix]. rewrite andb_true_r, Ascii.eqb_sym. done.
Qed.

Lemma do_line_plain_command LP name line depth lineno s command args ok :
  cut line " " = (command, args, ok) ->
  strings.HasPrefix line "!!" = false ->
  strings.HasPrefix command "!" = false ->
  exclude_step line s = None ->
  do_line LP name line depth lineno s
  = Next (set_Builder s (Builder.Append (Builder s) line)).
Proof.
  intros Hcut Hesc Hcmd Hex. unfold do_line. rewrite Hcut, Hex, Hesc.
  destruct command as [|c [|c' command]].
  - reflexivity.
  - apply HasPrefix_bang in Hcmd. rewrite !(eqb_bang _ _ _ Hcmd). reflexivity.
  - apply HasPrefix_bang in Hcmd. rewrite !(eqb_bang _ _ _ Hcmd).
    rewrite !prefix2_app, !(eqb_bang _ _ _ Hcmd).
    rewrite !andb_false_r. reflexivity.
Qed.

(** X7. Text is never taken for a directive: a line that does not begin
    with [!] is appended to the segment as it stands, and a line that
    begins with [!!] is appended without its first [!], whatever follows;
    both unless the line falls in an excluded region. *)
Theorem content_lines LP name line depth lineno s :
  exclude_step line s = None ->
  (strings.HasPrefix line "!" = false ->
   do_line LP name line depth lineno s
   = Next (set_Builder s (Builder.Append (Builder s) line)))
  /\ (forall rest,
        line = "!!" ++ rest ->
        do_line LP name line depth lineno s
        = Next (set_Builder s (Builder.Append (Builder s) ("!" ++ rest)))).
Proof.
  intros Hex. split.
  - intros Hline. destruct (cut line " ") as [[command args] ok] eqn:Hcut.
    eapply do_line_plain_command; eauto.
    + destruct line as [|c line]; [done|]. apply HasPrefix_bang in Hline.
      cbn [strings.HasPrefix]. by rewrite Ascii.eqb_sym, Hline.
    + by eapply cut_command_plain.
  - intros rest ->. unfold do_line. rewrite Hex.
    destruct (cut _ " ") as [[command args] ok].
    change (strings.HasPrefix ("!!" ++ rest) "!!") with true. cbv iota.
    unfold from1. change ("!!" ++ rest) with (String "!" ("!" ++ rest)).
    cbn [String.length String.substring].
    replace (S (String.length ("!" ++ rest)) - 1)
      with (String.length ("!" ++ rest)) by lia.
    by rewrite substring_all.
Qed.

Lemma from2_header (key : string) : from2 ("!>" ++ key) = key.
Proof. unfold from2. simpl. rewrite Nat.sub_0_r. apply substring_all. Qed.

(** A [!>KEY] line that is not skipped takes the [!>] branch. *)
Lemma do_line_header LP name line depth lineno s key args ok :
  cut line " " = ("!>" ++ key, args, ok) -> key <> "" ->
  exclude_step line s = None ->
  do_line LP name line depth lineno s = Next (set_header key args s).
Proof.
  intros Hcut Hkey Hex. unfold do_line. rewrite Hcut, Hex.
  assert (strings.HasPrefix line "!!" = false) as ->.
  { rewrite (cut_line _ _ _ _ Hcut). by destruct ok. }
  destruct key as [|c key]; [done|].
  change ("!>" ++ String c key) with (String "!" (String ">" (String c key))).
  cbn [String.eqb Ascii.eqb Bool.eqb orb andb]. rewrite !prefix2_app.
  cbn [String.eqb Ascii.eqb Bool.eqb orb andb String.length Nat.ltb Nat.leb].
  change (String "!" (String ">" (String c key))) with ("!>" ++ String c key).
  by rewrite from2_header.
Qed.

(** X8. Headers have no override protection: at every depth a [!>KEY] line
    stores the expanded, trimmed value under the key, or removes the key
    when the value trims to nothing; the other headers, the body fields and
    the record of hard keys stay as they are. *)
Theorem header_directive LP name line depth lineno s key args ok :
  cut line " " = ("!>" ++ key, args, ok) -> key <> "" ->
  exclude_step line s = None ->
  exists s',
    do_line LP name line depth lineno s = Next s'
    /\ Headers s' !! key
       = (if String.eqb (TrimSpace args) "" then None
          else Some (ExpandEnv (TrimSpace args)))
    /\ (forall other, other <> key -> Headers s' !! other = Headers s !! other)
    /\ Data s' = Data s /\ UserSet s' = UserSet s.
Proof.
  intros Hcut Hkey Hex. exists (set_header key args s).
  split; [by eapply do_line_header|]. unfold set_header. cbn.
  destruct (String.eqb (TrimSpace args) "").
  - split; [apply lookup_delete_eq|]. split; [|done].
    intros other Hne. by apply lookup_delete_ne.
  - split; [apply lookup_insert_eq|]. split; [|done].
    intros other Hne. by apply lookup_insert_ne.
Qed.




End Lines.

(** X7 in the sample world. *)
Lemma content_lines_witness :
  @do_line sample_world (fun _ _ _ => Timeout) "<stdin>" "!!user is not a role"
    0 1 NewChatState
  = Next (ChatState.set_Builder NewChatState
            (Builder.Append Builder.zero "!user is not a role")).
Proof.
  exact (proj2 (@content_lines sample_world (fun _ _ _ => Timeout) "<stdin>"
                  "!!user is not a role" 0%nat 1%Z NewChatState eq_refl)
           "user is not a role" eq_refl).
Defined.

(** X8 in the sample world, inside a profile. *)
Lemma header_directive_witness :
  exists s',
    @do_line sample_world (fun _ _ _ => Timeout) "openai" "!>x-api-key  abc "
      3 1 NewChatState = Next s'
    /\ ChatState.Headers s' !! "x-api-key" = Some "abc".
Proof.
  destruct (@header_directive sample_world (fun _ _ _ => Timeout) "openai"
              "!>x-api-key  abc " 3%nat 1%Z NewChatState "x-api-key" " abc "
              true eq_refl ltac:(discriminate) eq_refl)
    as (s' & Hrun & Hkey & _).
  exists s'. split; [exact Hrun|exact Hkey].
Defined.


(** ** The end of the text, and the nesting budget *)

Section Budget.
Context {W : World}.
Import ChatState.

Lemma Load_loop_nil LP n name depth lineno s :
  Load_loop LP n name "" depth lineno s = Done s.
Proof. by destruct n. Qed.

Lemma Load_loop_last LP n1 n2 name (ls : list string) line depth lineno s :
  Forall (fun l => strings.IndexByte l LF = false) ls ->
  strings.IndexByte line LF = false -> line <> "" ->
  String.length (unlines ls ++ line) <= n1 ->
  String.length (unlines ls ++ line ++ nl) <= n2 ->
  Load_loop LP n1 name (unlines ls ++ line) depth lineno s
  = Load_loop LP n2 name (unlines ls ++ line ++ nl) depth lineno s.
Proof.
  intros HF Hline Hne. revert lineno s.
  induction HF as [|l ls Hl HF IH]; intros lineno s H1 H2.
  - cbn [unlines] in *. change ("" ++ line) with line in *.
    change ("" ++ line ++ nl) with (line ++ nl ++ "") in *.
    rewrite (Load_loop_line _ n2) by done.
    destruct n1 as [|n1]; [destruct line; [done|simpl in H1; lia]|].
    cbn [Load_loop]. apply String.eqb_neq in Hne as ->.
    rewrite (cut_absent _ _ Hline).
    destruct (do_line LP name line depth lineno s); try done.
    by rewrite !Load_loop_nil.
  - rewrite !unlines_cons_app in *.
    rewrite (Load_loop_line _ n1), (Load_loop_line _ n2) by done.
    destruct (do_line LP name l depth lineno s); try done.
    apply IH; rewrite !length_append in *; lia.
Qed.

(** X10. The newline at the end of the text is optional: a last line
    without one is read as if it had one. *)
Theorem final_newline_optional fuel name (ls : list string) line depth s :
  Forall (fun l => strings.IndexByte l LF = false) ls ->
  strings.IndexByte line LF = false -> line <> "" ->
  Load fuel name (unlines ls ++ line) depth s
  = Load fuel name (unlines (ls ++ [line])) depth s.
Proof.
  intros HF Hline Hne. destruct fuel as [|fuel]; [done|]. cbn [Load].
  rewrite <- (append_empty_r (unlines (ls ++ [line]))).
  rewrite unlines_snoc_app. apply Load_loop_last; try done.
Qed.

(** A turn of the loop either does not look at the nested load, or is the
    [!profile] branch. *)
Lemma do_line_profile name line depth lineno s :
  (forall LP1 LP2,
     do_line LP1 name line depth lineno s = do_line LP2 name line depth lineno s)
  \/ (forall LP,
        do_line LP name line depth lineno s
        = match LP (TrimSpace (cut line " ").1.2) depth s with
          | Done s => Next s
          | Failed err => Raise (ErrAt name lineno err)
          | Panic | Timeout => Stuck
          end).
Proof.
  unfold do_line. destruct (cut line " ") as [[command args] ok]. cbn [fst snd].
  destruct (exclude_step line s); [by left|].
  destruct (strings.HasPrefix line "!!"); [by left|].
  destruct (String.eqb command "!profile"); [by right|by left].
Qed.

Lemma Load_loop_budget LP1 LP2 n name lines depth lineno s :
  (forall p s0, LP1 p depth s0 <> Timeout ->
                LP2 p depth s0 = LP1 p depth s0) ->
  Load_loop LP1 n name lines depth lineno s <> Timeout ->
  Load_loop LP2 n name lines depth lineno s
  = Load_loop LP1 n name lines depth lineno s.
Proof.
  intros HLP. revert lines lineno s.
  induction n as [|n IH]; intros lines lineno s; simpl; [done|].
  destruct (String.eqb lines ""); [done|].
  destruct (cut lines LF) as [[line rest] ok].
  assert (do_line LP1 name line depth lineno s <> Stuck ->
          do_line LP2 name line depth lineno s
          = do_line LP1 name line depth lineno s) as Hline.
  { destruct (do_line_profile name line depth lineno s) as [H|H]; [by intros _|].
    rewrite (H LP1), (H LP2).
    destruct (LP1 _ depth s) as [s1|e| |] eqn:E; try done;
      intros _; by rewrite HLP, E by (rewrite E; done). }
  destruct (do_line LP1 name line depth lineno s) as [s1|s1|e|]; try done;
    rewrite Hline by done; [|done..]. apply IH.
Qed.

Lemma Load_budget_step fuel name txt depth s :
  Load fuel name txt depth s <> Timeout ->
  Load (S fuel) name txt depth s = Load fuel name txt depth s.
Proof.
  revert name txt depth s.
  induction fuel as [|fuel IH]; intros name txt depth s; [done|].
  change (Load (S (S fuel)) name txt depth s)
    with (Load_loop (LoadProfile_body (Load (S fuel))) (String.length txt)
            name txt depth 1 s).
  change (Load (S fuel) name txt depth s)
    with (Load_loop (LoadProfile_body (Load fuel)) (String.length txt)
            name txt depth 1 s).
  apply Load_loop_budget. intros p s0. unfold LoadProfile_body.
  destruct (profile_body p); [|done]. apply IH.
Qed.

Lemma Load_budget fuel extra name txt depth s :
  Load fuel name txt depth s <> Timeout ->
  Load (fuel + extra) name txt depth s = Load fuel name txt depth s.
Proof.
  intros H. induction extra as [|extra IH]; [by rewrite Nat.add_0_r|].
  rewrite Nat.add_succ_r, Load_budget_step; [done|]. by rewrite IH.
Qed.

(** Once the nesting budget is enough for a request to come out, in
    success, error or panic, a larger budget gives the same. *)
Lemma query_budget fuel extra txt :
  query_request fuel txt <> Timeout ->
  query_request (fuel + extra) txt = query_request fuel txt.
Proof.
  unfold query_request, query_load.
  destruct (Load fuel "<stdin>" txt 0 NewChatState) as [s1|e| |] eqn:E1;
    try done; rewrite Load_budget, E1 by (by rewrite E1); [|done..].
  destruct (String.eqb (Profile s1) ""); [|done].
  unfold LoadProfile, LoadProfile_body. destruct (profile_body _); [|done].
  destruct (Load fuel _ _ 2 _) as [s2|e| |] eqn:E2;
    try done; by rewrite Load_budget, E2 by (by rewrite E2).
Qed.

Lemma tagmatch_directive line tag :
  strings.HasPrefix line "!" = true -> tagmatch line tag = TagNone.
Proof.
  destruct line as [|c line]; [done|]. cbn [strings.HasPrefix].
  rewrite andb_true_r. intros Hc. apply Ascii.eqb_eq in Hc as <-.
  unfold tagmatch. cbn [byte_at String.get Ascii.eqb Bool.eqb].
  by rewrite andb_false_r.
Qed.

(** X11. Inclusion is not checked for cycles: a profile, read from a file,
    whose text is the directive that includes it, exhausts every budget
    (the program recurses until its stack overflows), unless the directive
    falls in an excluded region. *)
Theorem self_inclusion_diverges fuel profile depth s :
  lookup_profile Profiles profile = None ->
  ReadFile profile = Ok ("!profile " ++ profile ++ nl) ->
  strings.IndexByte profile LF = false ->
  TrimSpace profile = profile ->
  Excluding s = false ->
  LoadProfile fuel profile depth s = Timeout.
Proof.
  intros Htable Hfile Hlf Htrim. revert depth s.
  assert (profile_body profile = Ok ("!profile " ++ profile ++ nl)) as Hbody.
  { unfold profile_body. by rewrite Htable, Hfile. }
  unfold LoadProfile, LoadProfile_body. rewrite Hbody.
  induction fuel as [|fuel IH]; intros depth s Hex; [done|].
  cbn [Load].
  change ("!profile " ++ profile ++ nl)
    with (("!profile " ++ profile) ++ nl ++ "").
  rewrite Load_loop_line.
  - assert (cut ("!profile " ++ profile) " " = ("!profile", profile, true))
      as Hcut by reflexivity.
    unfold do_line. rewrite Hcut.
    assert (exclude_step ("!profile " ++ profile) (set_Profile s profile) = None)
      as ->.
    { unfold exclude_step. cbn [Exclude Excluding set_Profile]. rewrite Hex.
      rewrite tagmatch_directive by done. by destruct (_ <? _)%nat. }
    change (strings.HasPrefix ("!profile " ++ profile) "!!") with false.
    cbn [String.eqb Ascii.eqb Bool.eqb andb]. cbv iota.
    rewrite Htrim. unfold LoadProfile_body at 1. rewrite Hbody.
    by rewrite IH.
  - change ("!profile " ++ profile) with (String "!" ("profile " ++ profile)).
    cbn [strings.IndexByte]. by rewrite IndexByte_app, Hlf.
  - change (("!profile " ++ profile) ++ nl ++ "")
      with ("!profile " ++ profile ++ nl). lia.
Qed.

End Budget.

(** X10 in the sample world. *)
Lemma final_newline_optional_witness :
  @Load sample_world 1 "<stdin>" (unlines ["!user"] ++ "Hello") 0 NewChatState
  = @Load sample_world 1 "<stdin>" (unlines ["!user"; "Hello"]) 0 NewChatState.
Proof.
  exact (@final_newline_optional sample_world 1 "<stdin>" ["!user"] "Hello"
           0%nat NewChatState ltac:(repeat constructor) eq_refl
           ltac:(discriminate)).
Defined.

(** X11 in the world whose file [loop] includes itself. *)
Lemma self_inclusion_diverges_witness :
  @LoadProfile loop_world 7 "loop" 0 NewChatState = Timeout.
Proof.
  exact (@self_inclusion_diverges loop_world 7 "loop" 0%nat NewChatState
           eq_refl eq_refl eq_refl eq_refl eq_refl).
Defined.

(** ** The transcript *)

Section Transcript.
Context {W : World}.
Import ChatState.

Lemma TrimLeft_idem s cutset :
  strings.TrimLeft (strings.TrimLeft s cutset) cutset = strings.TrimLeft s cutset.
Proof.
  induction s as [|c s IH]; [done|]. cbn [strings.TrimLeft].
  destruct (strings.IndexByte cutset c) eqn:E; [done|].
  cbn [strings.TrimLeft]. by rewrite E.
Qed.

Lemma TrimLeft_head s cutset :
  strings.TrimLeft s cutset = ""
  \/ exists c rest, strings.TrimLeft s cutset = String c rest /\
                    strings.IndexByte cutset c = false.
Proof.
  induction s as [|c s IH]; [by left|]. cbn [strings.TrimLeft].
  destruct (strings.IndexByte cutset c) eqn:E; [done|]. right. eauto.
Qed.

Lemma string_rev_cons c s : string_rev (String c s) = string_rev s ++ String c "".
Proof. change (String c s) with (String c "" ++ s). by rewrite string_rev_app. Qed.

Lemma TrimRight_idem s cutset :
  strings.TrimRight (strings.TrimRight s cutset) cutset
  = strings.TrimRight s cutset.
Proof.
  unfold strings.TrimRight. by rewrite string_rev_involutive, TrimLeft_idem.
Qed.

Lemma TrimLeft_TrimRight c rest cutset :
  strings.IndexByte cutset c = false ->
  strings.TrimLeft (strings.TrimRight (String c rest) cutset) cutset
  = strings.TrimRight (String c rest) cutset.
Proof.
  intros Hc. unfold strings.TrimRight.
  rewrite string_rev_cons, (TrimLeft_app _ c "" cutset Hc), string_rev_app.
  change (string_rev (String c "")) with (String c "").
  rewrite append_cons. cbn [strings.TrimLeft]. by rewrite Hc.
Qed.

(** Trimming leaves nothing to trim. *)
Lemma Trim_idem s cutset :
  strings.Trim (strings.Trim s cutset) cutset = strings.Trim s cutset.
Proof.
  unfold strings.Trim.
  destruct (TrimLeft_head s cutset) as [->|(c & rest & -> & Hc)].
  - reflexivity.
  - by rewrite TrimLeft_TrimRight, TrimRight_idem.
Qed.

Lemma Forall_snoc {A} (P : A -> Prop) l x :
  Forall P l -> P x -> Forall P (l ++ [x]).
Proof. intros Hl Hx. apply Forall_app. by split; [|constructor]. Qed.

Lemma sound_roles_snoc messages role :
  sound_roles messages -> turn_role role -> forall content,
  sound_roles (messages ++ [Message.mk role content]).
Proof.
  intros Hm Hr content. destruct messages as [|m rest]; cbn.
  - split; [by right|done].
  - destruct Hm as [Hhead Hrest]. split; [done|]. by apply Forall_snoc.
Qed.

(** What [New] keeps. *)
Lemma New_sound b role :
  tidy b ->
  Forall sound_content (Builder.Messages (Builder.New b role))
  /\ sound_roles (Builder.Messages (Builder.New b role)).
Proof.
  intros (Hrole & Hfirst & Hcontent & Hroles). unfold Builder.New.
  destruct (String.eqb_spec (strings.Trim (Builder.Content b) (String CR nl)) "")
    as [Hempty|Hne]; cbn [negb]; [done|].
  destruct (String.eqb_spec (Builder.Role b) "") as [Hr|Hr]; cbn.
  - rewrite (Hfirst Hr). cbn. split.
    + constructor; [|done]. split; [done|apply Trim_idem].
    + split; [by left|done].
  - split.
    + apply Forall_snoc; [done|]. split; [done|apply Trim_idem].
    + apply sound_roles_snoc; [done|]. by destruct Hrole.
Qed.

Lemma New_tidy b role : tidy b -> turn_role role -> tidy (Builder.New b role).
Proof.
  intros Hb Hrole. destruct (New_sound b role Hb) as [Hc Hr].
  split; [by right|]. split; [|done].
  cbn. intros ->. by destruct Hrole as [?|[?|?]].
Qed.

Lemma tidy_Content b buf :
  tidy b -> tidy (Builder.mk (Builder.Messages b) (Builder.Role b) buf).
Proof. done. Qed.

Lemma tidy_zero : tidy Builder.zero.
Proof. split; [by left|]. split; [done|]. split; [constructor|exact I]. Qed.

Lemma from1_role command :
  String.eqb command "!assistant" || String.eqb command "!user" = true ->
  turn_role (from1 command).
Proof.
  intros H. apply orb_prop in H as [H|H]; apply String.eqb_eq in H as ->.
  - right. by left.
  - by left.
Qed.

(** A turn of the loop keeps the builder tidy. *)
Lemma do_line_tidy LP name line depth lineno s s' :
  tidy (Builder s) ->
  (forall p s0 s1, tidy (Builder s0) -> LP p depth s0 = Done s1 ->
                   tidy (Builder s1)) ->
  do_line LP name line depth lineno s = Next s' \/
  do_line LP name line depth lineno s = Stop s' ->
  tidy (Builder s').
Proof.
  intros Hs HLP. unfold do_line.
  destruct (cut line " ") as [[command args] ok].
  destruct (exclude_step line s) as [s0|] eqn:Hex.
  { unfold exclude_step in Hex.
    repeat match type of Hex with
           | context [if ?c then _ else _] => destruct c
           end; try discriminate; injection Hex as <-;
      by intros [[= <-]|[=]]. }
  destruct (LP (TrimSpace args) depth s) as [s1|e| |] eqn:E;
  repeat match goal with
         | |- context [if ?c then _ else _] => destruct c eqn:?
         | |- context [embed _ _ _ ?r] =>
             destruct r as [? [?|]]; unfold embed
         end;
    (intros [[= <-]|[= <-]] || intros [[=]|[=]]);
    cbn [Builder set_Builder set_Debug set_Stats set_Prepend set_Type
         set_Exclude set_Api set_FimTmpl];
    try done;
    try (by eapply HLP);
    try (apply tidy_zero);
    try (apply New_tidy; [done|by apply from1_role]);
    try (apply New_tidy; [done|by right; right]).
  all: try (unfold set_header; done).
  all: try (unfold set_body_field;
            by destruct ((0 <? depth)%nat && hard (UserSet s) (from2 command))).
Qed.

Lemma Load_tidy fuel name txt depth s s' :
  tidy (Builder s) -> Load fuel name txt depth s = Done s' -> tidy (Builder s').
Proof.
  apply (Load_keeps (fun _ => True) (fun s => tidy (Builder s)));
    [done|done| |done].
  intros LP name' line d lineno s0 s1 _. apply do_line_tidy.
Qed.

Lemma assemble_Builder state url st :
  assemble state = Done (url, st) ->
  Builder st = Builder.New (Builder state) "".
Proof.
  unfold assemble.
  destruct (interpolate (Api state) (Data state)) as [[api|err]|];
    try discriminate.
  destruct (Type_ state); unfold flush; cbn [Builder set_field set_Data];
    destruct (Builder.Messages (Builder.New (Builder state) "")) as [|m [|m' rest]];
    try discriminate;
    try destruct (interpolate (FimTmpl _) _) as [[?|?]|]; try discriminate;
    by intros [= <- <-].
Qed.

Lemma assemble_Type state url st :
  assemble state = Done (url, st) -> Type_ st = Type_ state.
Proof.
  unfold assemble.
  destruct (interpolate (Api state) (Data state)) as [[api|err]|];
    try discriminate.
  destruct (Type_ state) eqn:Hty; unfold flush; cbn [Builder set_field set_Data];
    destruct (Builder.Messages (Builder.New (Builder state) "")) as [|m [|m' rest]];
    try discriminate;
    try destruct (interpolate (FimTmpl _) _) as [[?|?]|]; try discriminate;
    by intros [= <- <-].
Qed.

Lemma assemble_messages state url st :
  assemble state = Done (url, st) -> Type_ state = TypeChat ->
  Data st !! "messages" = Some (VMessages (Builder.Messages (Builder st))).
Proof.
  intros Hrun Htype. rewrite (assemble_Builder _ _ _ Hrun). revert Hrun.
  unfold assemble.
  destruct (interpolate (Api state) (Data state)) as [[api|err]|];
    try discriminate.
  rewrite Htype. unfold flush. intros [= <- <-]. cbn.
  rewrite lookup_insert_ne by done. apply lookup_insert_eq.
Qed.

Lemma query_tidy fuel txt url st :
  query_request fuel txt = Done (url, st) ->
  exists state,
    tidy (Builder state) /\ assemble state = Done (url, st).
Proof.
  unfold query_request, query_load.
  destruct (Load fuel "<stdin>" txt 0 NewChatState) as [s1|e| |] eqn:E1;
    try discriminate.
  apply Load_tidy in E1; [|apply tidy_zero].
  destruct (String.eqb (Profile s1) "").
  - destruct (LoadProfile fuel _ 1 s1) as [s2|e| |] eqn:E2; try discriminate.
    unfold LoadProfile, LoadProfile_body in E2.
    destruct (profile_body _); [|discriminate].
    apply Load_tidy in E2; [|done]. eauto.
  - eauto.
Qed.

(** X12. No empty message is ever sent: every message of the transcript a
    request is built from has a content that is not empty and has no
    newline or carriage return left at either end; in chat mode that
    transcript is the [messages] field of the request. *)
Theorem messages_never_empty fuel txt url st :
  query_request fuel txt = Done (url, st) ->
  Forall sound_content (Builder.Messages (Builder st))
  /\ (Type_ st = TypeChat ->
      Data st !! "messages"
      = Some (VMessages (Builder.Messages (Builder st)))).
Proof.
  intros Hrun. destruct (query_tidy _ _ _ _ Hrun) as (state & Htidy & Hasm).
  split.
  - rewrite (assemble_Builder _ _ _ Hasm). by apply New_sound.
  - intros Htype. apply (assemble_messages state url); [done|].
    by rewrite <- (assemble_Type _ _ _ Hasm).
Qed.

(** X13. The roles of a transcript: a system message can only be the first
    message, and every other message is a user, assistant or infill
    message. *)
Theorem system_message_first fuel txt url st :
  query_request fuel txt = Done (url, st) ->
  sound_roles (Builder.Messages (Builder st)).
Proof.
  intros Hrun. destruct (query_tidy _ _ _ _ Hrun) as (state & Htidy & Hasm).
  rewrite (assemble_Builder _ _ _ Hasm). by apply New_sound.
Qed.

End Transcript.

(** X12 in the sample world, for the two-message document. *)
Lemma messages_never_empty_witness :
  exists url st,
    @query_request sample_world 2 hello_document = Done (url, st)
    /\ Forall sound_content (Builder.Messages (ChatState.Builder st)).
Proof.
  destruct (@query_request sample_world 2 hello_document)
    as [[url st]| | |] eqn:E.
  - exists url, st. split; [reflexivity|].
    exact (proj1 (@messages_never_empty sample_world 2 hello_document url st E)).
  - vm_compute in E. discriminate.
  - vm_compute in E. discriminate.
  - vm_compute in E. discriminate.
Defined.

(** X13 in the sample world, for a document with a system prompt. *)
Lemma system_message_first_witness :
  exists url st,
    @query_request sample_world 2
      (unlines ["Be brief."; "!user"; "Hello"]) = Done (url, st)
    /\ sound_roles (Builder.Messages (ChatState.Builder st)).
Proof.
  destruct (@query_request sample_world 2
              (unlines ["Be brief."; "!user"; "Hello"]))
    as [[url st]| | |] eqn:E.
  - exists url, st. split; [reflexivity|].
    exact (@system_message_first sample_world 2 _ url st E).
  - vm_compute in E. discriminate.
  - vm_compute in E. discriminate.
  - vm_compute in E. discriminate.
Defined.

(** ** The request *)

Section Request.
Context {W : World}.
Import ChatState.

Lemma assemble_stream state url st :
  assemble state = Done (url, st) -> Data st !! "stream" = Some (VBool true).
Proof.
  unfold assemble.
  destruct (interpolate (Api state) (Data state)) as [[api|err]|];
    try discriminate.
  destruct (Type_ state); unfold flush; cbn [Builder set_field set_Data];
    destruct (Builder.Messages (Builder.New (Builder state) "")) as [|m [|m' rest]];
    try discriminate;
    try destruct (interpolate (FimTmpl _) _) as [[?|?]|]; try discriminate;
    intros [= <- <-]; apply lookup_insert_eq.
Qed.

(** X14. Every request streams: whatever the document and the profiles
    say about [stream], the request carries [stream: true].  And the
    assembler writes five body fields at most: every field other than
    [messages], [prompt], [input_prefix], [input_suffix] and [stream] goes
    out as the interpreter left it. *)
Theorem request_fields :
  (forall fuel txt url st,
     query_request fuel txt = Done (url, st) ->
     Data st !! "stream" = Some (VBool true))
  /\ (forall state url st key,
        assemble state = Done (url, st) ->
        key <> "messages" -> key <> "prompt" -> key <> "input_prefix" ->
        key <> "input_suffix" -> key <> "stream" ->
        Data st !! key = Data state !! key).
Proof.
  split.
  - intros fuel txt url st. unfold query_request.
    destruct (query_load fuel txt); try discriminate. apply assemble_stream.
  - intros state url st key Hrun H1 H2 H3 H4 H5. by eapply assemble_keeps.
Qed.

(** X15. The endpoint: a URL written in quotes is used as it stands between
    the quotes, in every mode; any other URL gets a slash at its end unless
    it has one, and then the path of the mode.  The transcript has no part
    in it. *)
Theorem request_url state url st api :
  interpolate (Api state) (Data state) = Some (Ok api) ->
  assemble state = Done (url, st) ->
  if quoted api then url = String.substring 1 (String.length api - 2) api
  else url = (if strings.HasSuffix api "/" then api else api ++ "/")
             ++ mode_suffix (Type_ state).
Proof.
  intros Hapi. unfold assemble. rewrite Hapi. fold (quoted api).
  destruct (quoted api); cbn [negb andb];
    destruct (strings.HasSuffix api "/"); cbn [negb];
    destruct (Type_ state); unfold flush; cbn [Builder set_field set_Data];
    destruct (Builder.Messages (Builder.New (Builder state) "")) as [|m [|m' rest]];
    try discriminate;
    try destruct (interpolate (FimTmpl _) _) as [[?|?]|]; try discriminate;
    by intros [= <- <-].
Qed.

End Request.

(** X14 in the sample world: a document that asks not to stream. *)
Lemma request_fields_witness :
  exists url st,
    @query_request sample_world 2 (unlines ["!:stream false"; "hi"])
    = Done (url, st)
    /\ ChatState.Data st !! "stream" = Some (VBool true).
Proof.
  destruct (@query_request sample_world 2 (unlines ["!:stream false"; "hi"]))
    as [[url st]| | |] eqn:E.
  - exists url, st. split; [reflexivity|].
    exact (proj1 (@request_fields sample_world) 2%nat _ url st E).
  - vm_compute in E. discriminate.
  - vm_compute in E. discriminate.
  - vm_compute in E. discriminate.
Defined.

(** X15 in the sample world: a URL without a slash at its end, chat mode. *)
Lemma request_url_witness :
  exists st,
    @assemble sample_world (ChatState.set_Api NewChatState "http://host/v1")
    = Done ("http://host/v1/chat/completions", st).
Proof.
  destruct (@assemble sample_world
              (ChatState.set_Api NewChatState "http://host/v1"))
    as [[url st]| | |] eqn:E.
  - exists st.
    pose proof (@request_url sample_world
                  (ChatState.set_Api NewChatState "http://host/v1") url st
                  "http://host/v1" eq_refl E) as H.
    cbv beta iota in H. 
    change (quoted "http://host/v1") with false in H. cbv iota in H.
    rewrite H. reflexivity.
  - vm_compute in E. discriminate.
  - vm_compute in E. discriminate.
  - vm_compute in E. discriminate.
Defined.

(** ** More about the normaliser *)

Section Frames.
Context {W : World}.

(** X16. Only data frames count, and only up to the end-of-stream line:
    the loop does with a stream what it does with its data lines alone, and
    with a stream that has an end-of-stream line what it does with the part
    before that line. *)
Theorem stream_filter :
  (forall lines st,
     stream_loop lines st = stream_loop (List.filter is_data lines) st)
  /\ (forall before after st,
        stream_loop (before ++ data "[DONE]" :: after) st
        = stream_loop before st).
Proof.
  split.
  - intros lines. induction lines as [|line lines IH]; intros st; [done|].
    cbn [List.filter stream_loop]. unfold is_data at 1.
    destruct (strings.HasPrefix line "data: ") eqn:E; cbn [negb].
    + cbn [stream_loop]. rewrite E. cbn [negb].
      destruct (String.eqb (from6 line) "[DONE]"); [done|apply IH].
    + apply IH.
  - intros before after. induction before as [|line before IH]; intros st.
    + cbn [app]. rewrite stream_loop_data. reflexivity.
    + cbn [app stream_loop].
      destruct (negb (strings.HasPrefix line "data: ")); [apply IH|].
      destruct (String.eqb (from6 line) "[DONE]"); [done|apply IH].
Qed.

Lemma do_frame_plain p x st :
  plain_frame p x ->
  do_frame p st
  = Stream.mk (Stream.nthinking st) (wrap64 (Stream.nevents st + 1))
              (Stream.w st ++ x).
Proof.
  intros [_ H]. unfold do_frame.
  destruct (Response.Choices (Unmarshal_Response p)) as [|c cs].
  - destruct H as (-> & -> & ->). reflexivity.
  - subst x.
    destruct (Response.Choice.Content (Response.Choice.Delta c)) as [|a chat];
      reflexivity.
Qed.

(** X17. Outside the reasoning channel the frames are concatenated and no
    markup is written: a run of chat-delta or completion frames adds the
    texts they carry, in order, and leaves the markup state alone. *)
Theorem plain_frames_concatenate (frames : list (string * string)) rest st :
  Forall (fun f => plain_frame f.1 f.2) frames ->
  exists st',
    stream_loop (map (fun f => data f.1) frames ++ rest) st
    = stream_loop rest st'
    /\ Stream.nthinking st' = Stream.nthinking st
    /\ Stream.w st' = Stream.w st ++ String.concat "" (map snd frames).
Proof.
  intros HF. revert st. induction HF as [|[p x] frames Hf HF IH]; intros st.
  - exists st. cbn. by rewrite append_empty_r.
  - cbn [map app fst snd] in *. rewrite stream_loop_data.
    destruct Hf as [Hp Hf]. apply String.eqb_neq in Hp as Hp'. rewrite Hp'.
    rewrite (do_frame_plain p x st (conj Hp Hf)).
    destruct (IH (Stream.mk (Stream.nthinking st)
                    (wrap64 (Stream.nevents st + 1)) (Stream.w st ++ x)))
      as (st' & Hrun & Hn & Hw).
    exists st'. split; [exact Hrun|]. split; [exact Hn|].
    rewrite Hw. cbn [Stream.w]. rewrite append_assoc. f_equal.
    destruct frames as [|f frames]; cbn; [by rewrite append_empty_r|done].
Qed.

Lemma do_frame_nevents p st :
  Stream.nevents (do_frame p st) = wrap64 (Stream.nevents st + 1).
Proof.
  unfold do_frame.
  destruct (Response.Choices (Unmarshal_Response p));
  repeat match goal with
         | |- context [if ?c then _ else _] => destruct c
         end; reflexivity.
Qed.

(** X18. The event counter counts the data frames read, the end-of-stream
    line and what follows it excluded, as long as the count stays in the
    range of the counter. *)
Theorem events_counted lines st :
  (0 <= Stream.nevents st)%Z ->
  (Stream.nevents st + Z.of_nat (frames_read lines) < 2^63)%Z ->
  Stream.nevents (stream_loop lines st)
  = (Stream.nevents st + Z.of_nat (frames_read lines))%Z.
Proof.
  revert st. induction lines as [|line lines IH]; intros st H0 Hn.
  - cbn. lia.
  - cbn [stream_loop frames_read] in *. unfold is_data in *.
    destruct (negb (strings.HasPrefix line "data: ")); [by apply IH|].
    destruct (String.eqb (from6 line) "[DONE]"); [cbn; lia|].
    rewrite IH; rewrite do_frame_nevents, wrap64_small; lia.
Qed.

(** X19. A stream that ends while the model is thinking leaves the markup
    open: after a run of thinking frames and the end of the stream, the
    text is the opening marker and the fragments, with no closing marker. *)
Theorem thinking_left_open (frames : list (string * string)) rest :
  Forall (fun f => thinking_frame f.1 f.2) frames ->
  frames <> [] -> (Z.of_nat (length frames) < 2^63)%Z ->
  normalise (map (fun f => data f.1) frames ++ data "[DONE]" :: rest)
  = "<think>" ++ nl ++ String.concat "" (map snd frames).
Proof.
  intros HF Hne Hlen. unfold normalise.
  destruct (stream_loop_thinking frames (data "[DONE]" :: rest) Stream.init HF)
    as (st' & Hrun & _ & Hw); [done|cbn; lia|].
  rewrite Hrun, stream_loop_data. cbn [String.eqb Ascii.eqb Bool.eqb andb].
  rewrite Hw. by destruct frames.
Qed.

(** *** The markup of any stream *)

Lemma stream_loop_skip line rest st :
  is_data line = false -> stream_loop (line :: rest) st = stream_loop rest st.
Proof. unfold is_data. intros H. cbn [stream_loop]. by rewrite H. Qed.

Lemma carries_not_done p f : carries p f -> String.eqb p "[DONE]" = false.
Proof. destruct f; intros [Hp _]; by apply String.eqb_neq. Qed.

(** One frame, whatever it carries. *)
Lemma do_frame_carries p f st :
  carries p f -> (0 <= Stream.nthinking st < 2^63 - 1)%Z ->
  (0 <= Stream.nthinking (do_frame p st) <= Stream.nthinking st + 1)%Z
  /\ (0 <? Stream.nthinking (do_frame p st))%Z
     = still_thinking (0 <? Stream.nthinking st)%Z [f]
  /\ Stream.w (do_frame p st)
     = Stream.w st ++ markup (0 <? Stream.nthinking st)%Z [f].
Proof.
  intros Hf Hn. destruct f as [t|x|x]; cbn [carries] in Hf;
    cbn [markup still_thinking].
  - rewrite (do_frame_thinking p t st Hf Hn). cbn [Stream.nthinking Stream.w].
    split; [lia|]. split; [by apply Z.ltb_lt; lia|].
    rewrite append_empty_r.
    destruct (Z.eqb_spec (Stream.nthinking st) 0) as [E|E].
    + rewrite E. reflexivity.
    + by replace (0 <? Stream.nthinking st)%Z with true
        by (symmetry; apply Z.ltb_lt; lia).
  - destruct (do_frame_text p x st Hf) as [[-> Hpos]|[-> Hle]];
      cbn [Stream.nthinking Stream.w].
    + split; [lia|]. split; [reflexivity|].
      replace (0 <? Stream.nthinking st)%Z with true
        by (symmetry; apply Z.ltb_lt; lia).
      by rewrite append_empty_r, !append_assoc.
    + split; [lia|].
      replace (0 <? Stream.nthinking st)%Z with false
        by (symmetry; apply Z.ltb_ge; lia).
      split; [reflexivity|]. by rewrite append_empty_r.
  - rewrite (do_frame_plain p x st Hf). cbn [Stream.nthinking Stream.w].
    split; [lia|]. split; [reflexivity|]. by rewrite append_empty_r.
Qed.

Lemma markup_cons thinking f fs :
  markup thinking (f :: fs)
  = markup thinking [f] ++ markup (still_thinking thinking [f]) fs.
Proof.
  destruct f; cbn [markup still_thinking];
    by rewrite ?append_empty_r, ?append_assoc.
Qed.

Lemma still_thinking_cons thinking f fs :
  still_thinking thinking (f :: fs)
  = still_thinking (still_thinking thinking [f]) fs.
Proof. by destruct f. Qed.

Lemma markup_app thinking fs gs :
  markup thinking (fs ++ gs)
  = markup thinking fs ++ markup (still_thinking thinking fs) gs.
Proof.
  revert thinking. induction fs as [|f fs IH]; intros thinking; [done|].
  cbn [app]. rewrite (markup_cons _ f (fs ++ gs)), (markup_cons _ f fs), IH.
  by rewrite (still_thinking_cons _ f fs), append_assoc.
Qed.

(** Without a thinking fragment no markup opens; without a text fragment
    none closes. *)
Lemma markup_no_thinking fs :
  Forall (fun f => is_thinking f = false) fs ->
  markup false fs = texts fs /\ still_thinking false fs = false.
Proof.
  induction 1 as [|f fs Hf _ [IHm IHs]]; [done|].
  destruct f; try discriminate; cbn [markup still_thinking texts fragment_text];
    by rewrite IHm, IHs.
Qed.

Lemma markup_no_text fs :
  Forall (fun f => is_text f = false) fs ->
  markup true fs = texts fs /\ still_thinking true fs = true.
Proof.
  induction 1 as [|f fs Hf _ [IHm IHs]]; [done|].
  destruct f; try discriminate; cbn [markup still_thinking texts fragment_text];
    by rewrite IHm, IHs.
Qed.

(** The loop and the markup of the specification agree on every stream. *)
Lemma stream_loop_markup (lines : list (string * option fragment)) rest st :
  Forall (fun l => reads l.1 l.2) lines ->
  (0 <= Stream.nthinking st)%Z ->
  (Stream.nthinking st + Z.of_nat (length lines) < 2^63)%Z ->
  exists st',
    stream_loop (map fst lines ++ rest) st = stream_loop rest st'
    /\ (0 <= Stream.nthinking st')%Z
    /\ (0 <? Stream.nthinking st')%Z
       = still_thinking (0 <? Stream.nthinking st)%Z (fragments lines)
    /\ Stream.w st'
       = Stream.w st ++ markup (0 <? Stream.nthinking st)%Z (fragments lines).
Proof.
  intros HF. revert st.
  induction HF as [|[line [f|]] lines Hl HF IH]; intros st H0 Hn.
  - exists st. split; [reflexivity|]. split; [done|]. split; [reflexivity|].
    cbn. by rewrite append_empty_r.
  - cbn [fst snd reads] in Hl. destruct Hl as (p & -> & Hf).
    cbn [map app fst fragments length] in *.
    rewrite stream_loop_data, (carries_not_done p f Hf).
    destruct (do_frame_carries p f st Hf) as (Hn1 & Hs1 & Hw1); [lia|].
    destruct (IH (do_frame p st)) as (st' & Hrun & Hn' & Hs' & Hw'); [lia|lia|].
    exists st'. split; [exact Hrun|]. split; [exact Hn'|].
    rewrite Hs', Hw', Hs1, Hw1.
    split; [symmetry; apply still_thinking_cons|].
    by rewrite (markup_cons _ f (fragments lines)), append_assoc.
  - cbn [fst snd reads] in Hl. cbn [map app fst fragments length] in *.
    rewrite (stream_loop_skip _ _ _ Hl).
    destruct (IH st) as (st' & Hrun & Hn' & Hs' & Hw'); [lia|lia|].
    by exists st'.
Qed.

(** C5. A frame carrying the thinking fragment ["abc"], a frame carrying the
    text fragment ["def"] and the end-of-stream line normalise to
    [<think>], a newline, [abc], a newline, [</think>], two newlines and
    [def]; what follows the end-of-stream line is not read.  With no
    thinking going on, a run of thinking frames (fewer than [2^63], the
    range of the counter) followed by a text frame writes the opening marker
    before the first thinking fragment, the fragments, and the closing
    marker before the text fragment.

    In general, for every stream (of fewer than [2^63] lines) the loop
    writes the markup of the specification: the opening marker before a
    thinking fragment when no thinking is going on, the closing marker
    before a text fragment when thinking is going on, whatever lines and
    frames stand between; frames that carry neither and lines that are no
    data frames change nothing of that.  So, with no thinking going on at
    the start, the opening marker stands before the first thinking fragment
    and the closing marker before the first text fragment after it, with
    the other fragments in their places. *)
Theorem reasoning_markup :
  (forall p1 p2 rest,
     thinking_frame p1 "abc" -> text_frame p2 "def" ->
     normalise (data p1 :: data p2 :: data "[DONE]" :: rest)
     = "<think>" ++ nl ++ "abc" ++ nl ++ "</think>" ++ nl ++ nl ++ "def")
  /\ (forall (frames : list (string * string)) p x rest st,
        Forall (fun f => thinking_frame f.1 f.2) frames ->
        frames <> [] -> (Z.of_nat (length frames) < 2^63)%Z ->
        text_frame p x ->
        Stream.nthinking st = 0%Z ->
        exists st',
          stream_loop (map (fun f => data f.1) frames ++ data p :: rest) st
          = stream_loop rest st'
          /\ Stream.nthinking st' = 0%Z
          /\ Stream.w st'
             = Stream.w st ++ "<think>" ++ nl ++
               String.concat "" (map snd frames) ++
               nl ++ "</think>" ++ nl ++ nl ++ x)
  /\ (forall (lines : list (string * option fragment)) rest st,
        Forall (fun l => reads l.1 l.2) lines ->
        (0 <= Stream.nthinking st)%Z ->
        (Stream.nthinking st + Z.of_nat (length lines) < 2^63)%Z ->
        exists st',
          stream_loop (map fst lines ++ rest) st = stream_loop rest st'
          /\ (0 <? Stream.nthinking st')%Z
             = still_thinking (0 <? Stream.nthinking st)%Z (fragments lines)
          /\ Stream.w st'
             = Stream.w st
               ++ markup (0 <? Stream.nthinking st)%Z (fragments lines))
  /\ (forall (lines : list (string * option fragment)) rest,
        Forall (fun l => reads l.1 l.2) lines ->
        (Z.of_nat (length lines) < 2^63)%Z ->
        normalise (map fst lines ++ data "[DONE]" :: rest)
        = markup false (fragments lines)
        /\ normalise (map fst lines) = markup false (fragments lines))
  /\ (forall (lines : list (string * option fragment)) rest st
             before t mid x after,
        Forall (fun l => reads l.1 l.2) lines ->
        (Z.of_nat (length lines) < 2^63)%Z ->
        Stream.nthinking st = 0%Z ->
        fragments lines
        = (before ++ Thinking t :: mid ++ Text x :: after)%list ->
        Forall (fun f => is_thinking f = false) before ->
        Forall (fun f => is_text f = false) mid ->
        exists st',
          stream_loop (map fst lines ++ rest) st = stream_loop rest st'
          /\ Stream.w st'
             = Stream.w st ++ texts before ++ "<think>" ++ nl ++ t
               ++ texts mid ++ nl ++ "</think>" ++ nl ++ nl ++ x
               ++ markup false after).
Proof.
  assert (forall (frames : list (string * string)) p x rest st,
        Forall (fun f => thinking_frame f.1 f.2) frames ->
        frames <> [] -> (Z.of_nat (length frames) < 2^63)%Z ->
        text_frame p x ->
        Stream.nthinking st = 0%Z ->
        exists st',
          stream_loop (map (fun f => data f.1) frames ++ data p :: rest) st
          = stream_loop rest st'
          /\ Stream.nthinking st' = 0%Z
          /\ Stream.w st'
             = Stream.w st ++ "<think>" ++ nl ++
               String.concat "" (map snd frames) ++
               nl ++ "</think>" ++ nl ++ nl ++ x) as Hgen.
  { intros frames p x rest st HF Hne Hlen Hx H0.
    destruct (stream_loop_thinking frames (data p :: rest) st HF)
      as (st1 & Hrun & Hnt & Hw); [lia|lia|].
    rewrite Hrun, stream_loop_data.
    destruct Hx as (Hp & Hx'). apply String.eqb_neq in Hp as Hp'. rewrite Hp'.
    destruct (do_frame_text p x st1 (conj Hp Hx')) as [[-> Hpos]|[_ Hle]].
    - eexists. split; [reflexivity|]. split; [reflexivity|].
      cbn [Stream.w]. rewrite Hw, H0.
      destruct frames; [done|]. cbn [length Nat.eqb negb andb Z.eqb].
      by rewrite !append_assoc.
    - destruct frames; [done|]. cbn [length] in Hnt. lia. }
  split; [|split; [exact Hgen|split; [|split]]].
  - intros p1 p2 rest H1 H2. unfold normalise.
    destruct (Hgen [(p1, "abc")] p2 "def" (data "[DONE]" :: rest) Stream.init)
      as (st' & Hrun & _ & Hw); try done.
    { by constructor. }
    cbn [map app fst] in Hrun. rewrite Hrun, stream_loop_data. exact Hw.
  - intros lines rest st HF H0 Hn.
    destruct (stream_loop_markup lines rest st HF H0 Hn)
      as (st' & Hrun & _ & Hs & Hw).
    by exists st'.
  - intros lines rest HF Hn. unfold normalise. split.
    + destruct (stream_loop_markup lines (data "[DONE]" :: rest) Stream.init HF)
        as (st' & Hrun & _ & _ & Hw); [done|cbn; lia|].
      rewrite Hrun, stream_loop_data. exact Hw.
    + destruct (stream_loop_markup lines [] Stream.init HF)
        as (st' & Hrun & _ & _ & Hw); [done|cbn; lia|].
      rewrite app_nil_r in Hrun. rewrite Hrun. exact Hw.
  - intros lines rest st before t mid x after HF Hn H0 Hfs Hb Hm.
    destruct (stream_loop_markup lines rest st HF)
      as (st' & Hrun & _ & _ & Hw); [lia|lia|].
    exists st'. split; [exact Hrun|]. rewrite Hw, H0, Hfs.
    change (0 <? 0)%Z with false.
    destruct (markup_no_thinking before Hb) as [Eb Sb].
    destruct (markup_no_text mid Hm) as [Em Sm].
    rewrite markup_app, Eb, Sb. cbn [markup].
    rewrite markup_app, Em, Sm. cbn [markup].
    by rewrite !append_assoc.
Qed.

End Frames.

(** X17 in the world of chat deltas: the frames [He] and [llo] give
    [Hello]. *)
Lemma plain_frames_concatenate_witness :
  exists st',
    @stream_loop chat_world
      [data (chat_open ++ "He" ++ chat_close);
       data (chat_open ++ "llo" ++ chat_close); data "[DONE]"] Stream.init
    = @stream_loop chat_world [data "[DONE]"] st'
    /\ Stream.w st' = "Hello".
Proof.
  destruct (@plain_frames_concatenate chat_world
              [(chat_open ++ "He" ++ chat_close, "He");
               (chat_open ++ "llo" ++ chat_close, "llo")]
              [data "[DONE]"] Stream.init)
    as (st' & Hrun & _ & Hw).
  - repeat constructor; try discriminate; vm_compute; reflexivity.
  - exists st'. split; [exact Hrun|exact Hw].
Defined.

(** X18 in the world of chat deltas: two frames, a comment line, the end. *)
Lemma events_counted_witness :
  Stream.nevents
    (@stream_loop chat_world
       [data (chat_open ++ "He" ++ chat_close); ": keep-alive";
        data (chat_open ++ "llo" ++ chat_close); data "[DONE]";
        data (chat_open ++ "!" ++ chat_close)] Stream.init)
  = 2%Z.
Proof.
  apply (@events_counted chat_world
           [data (chat_open ++ "He" ++ chat_close); ": keep-alive";
            data (chat_open ++ "llo" ++ chat_close); data "[DONE]";
            data (chat_open ++ "!" ++ chat_close)] Stream.init).
  - simpl. lia.
  - vm_compute. reflexivity.
Defined.

(** X19 in the sample world: one thinking frame and the end. *)
Lemma thinking_left_open_witness :
  @normalise sample_world
    [data (thinking_open ++ "abc" ++ delta_close); data "[DONE]"]
  = "<think>" ++ nl ++ "abc".
Proof.
  refine (@thinking_left_open sample_world
            [(thinking_open ++ "abc" ++ delta_close, "abc")] [] _ _ _).
  - repeat constructor; try discriminate; vm_compute; reflexivity.
  - discriminate.
  - vm_compute. reflexivity.
Defined.

(** C5 in the sample world: the two frames of the example; and a thinking
    frame, a frame that is not JSON, a line that is no data frame, and a
    text frame. *)
Lemma reasoning_markup_witness :
  @normalise sample_world
    [data (thinking_open ++ "abc" ++ delta_close);
     data (text_open ++ "def" ++ delta_close);
     data "[DONE]"]
  = "<think>" ++ nl ++ "abc" ++ nl ++ "</think>" ++ nl ++ nl ++ "def"
  /\ @normalise sample_world
       [data (thinking_open ++ "a" ++ delta_close);
        data "garbage";
        ": keep-alive";
        data (text_open ++ "b" ++ delta_close);
        data "[DONE]"]
     = "<think>" ++ nl ++ "a" ++ nl ++ "</think>" ++ nl ++ nl ++ "b".
Proof.
  assert (@thinking_frame sample_world
            (thinking_open ++ "abc" ++ delta_close) "abc") as H1.
  { split; [discriminate|]. split; [vm_compute; reflexivity|].
    split; [vm_compute; reflexivity|discriminate]. }
  assert (@text_frame sample_world (text_open ++ "def" ++ delta_close) "def")
    as H2.
  { split; [discriminate|]. split; [vm_compute; reflexivity|].
    split; [vm_compute; reflexivity|].
    split; [vm_compute; reflexivity|discriminate]. }
  split; [exact (proj1 (@reasoning_markup sample_world) _ _ [] H1 H2)|].
  refine (proj1 (proj1 (proj2 (proj2 (proj2 (@reasoning_markup sample_world))))
            [(data (thinking_open ++ "a" ++ delta_close), Some (Thinking "a"));
             (data "garbage", Some (Plain ""));
             (": keep-alive", None);
             (data (text_open ++ "b" ++ delta_close), Some (Text "b"))]
            [] _ _)); [|vm_compute; reflexivity].
  repeat first [apply Forall_nil_2 | apply Forall_cons_2];
    cbn [fst snd reads].
  - eexists. split; [reflexivity|]. cbn [carries].
    split; [discriminate|]. split; [vm_compute; reflexivity|].
    split; [vm_compute; reflexivity|discriminate].
  - eexists. split; [reflexivity|]. cbn [carries].
    split; [discriminate|]. vm_compute. done.
  - reflexivity.
  - eexists. split; [reflexivity|]. cbn [carries].
    split; [discriminate|]. split; [vm_compute; reflexivity|].
    split; [vm_compute; reflexivity|].
    split; [vm_compute; reflexivity|discriminate].
Defined.

(** ** Fenced files *)

Section Fences.
Context {W : World}.

Lemma backticks_line line rest :
  backticks (line ++ String LF rest) = backticks line.
Proof.
  induction line as [|c line IH]; [done|]. rewrite append_cons.
  cbn [backticks]. by rewrite IH.
Qed.

Lemma widest_run_ge n lines max : max <= widest_run n lines max.
Proof.
  revert lines max. induction n as [|n IH]; intros lines max; simpl.
  - by destruct (String.eqb lines "").
  - destruct (String.eqb lines ""); [done|].
    destruct (cut lines LF) as [[line rest] ok].
    etransitivity; [|apply IH].
    destruct (Nat.ltb_spec max (backticks line)); lia.
Qed.

(** Two ways to split a text at a newline, the first at its first one. *)
Lemma first_line_split line rest p tail :
  strings.IndexByte line LF = false ->
  line ++ String LF rest = p ++ String LF tail ->
  (p = line /\ rest = tail)
  \/ exists p', p = line ++ String LF p' /\ rest = p' ++ String LF tail.
Proof.
  revert p. induction line as [|a line IH]; intros p Hline Heq.
  - destruct p as [|c p]; cbn in Heq.
    + left. by inversion Heq.
    + right. exists p. by inversion Heq.
  - cbn [strings.IndexByte] in Hline.
    apply orb_false_iff in Hline as [Ha Hline].
    destruct p as [|c p]; rewrite ?append_cons in Heq; cbn in Heq.
    + inversion Heq; subst. by rewrite Ascii.eqb_refl in Ha.
    + inversion Heq as [[Hc Hrest]]; subst c.
      destruct (IH p Hline Hrest) as [[-> ->]|(p' & -> & ->)].
      * by left.
      * right. by exists p'.
Qed.

Lemma append_empty_inv (pre tail : string) :
  "" = pre ++ tail -> pre = "" /\ tail = "".
Proof. destruct pre, tail; by intros [=]. Qed.

Lemma widest_run_covers n lines max pre tail :
  String.length lines <= n ->
  lines = pre ++ tail ->
  pre = "" \/ (exists p, pre = p ++ nl) ->
  backticks tail <= widest_run n lines max.
Proof.
  revert lines max pre.
  induction n as [|n IH]; intros lines max pre Hn Hsplit Hpre.
  - destruct lines; [|simpl in Hn; lia].
    apply append_empty_inv in Hsplit as [-> ->]. cbn. lia.
  - cbn [widest_run].
    destruct (String.eqb_spec lines "") as [->|Hne].
    { apply append_empty_inv in Hsplit as [-> ->]. cbn. lia. }
    destruct (cut lines LF) as [[line rest] ok] eqn:Hcut.
    pose proof (cut_shorter _ _ _ _ _ Hcut Hne) as Hshort.
    destruct Hpre as [->|[p ->]].
    + change ("" ++ tail) with tail in Hsplit. subst tail.
      etransitivity; [|apply widest_run_ge].
      assert (backticks lines = backticks line) as ->.
      { destruct ok.
        - apply cut_found in Hcut as [-> _]. apply backticks_line.
        - by apply cut_missing in Hcut as [-> _]. }
      destruct (Nat.ltb_spec max (backticks line)); lia.
    + rewrite append_assoc in Hsplit. change (nl ++ tail) with (String LF tail) in Hsplit.
      destruct ok.
      * apply cut_found in Hcut as [Hlines Hline].
        rewrite Hlines in Hsplit.
        destruct (first_line_split _ _ _ _ Hline Hsplit)
          as [[-> ->]|(p' & -> & ->)].
        -- apply (IH _ _ ""); [lia|done|by left].
        -- apply (IH _ _ (p' ++ nl)); [lia|by rewrite append_assoc|].
           right. by exists p'.
      * apply cut_missing_absent in Hcut. rewrite Hsplit, IndexByte_app in Hcut.
        cbn in Hcut. by rewrite orb_true_r in Hcut.
Qed.

(** X20. [addfile] fences a file so that no line of it can close the fence:
    it writes the name, a fence, the text and the same fence, and the
    fence has at least three backticks and more backticks than any line of
    the text begins with.  When the file cannot be read it writes nothing
    and returns the error. *)
Theorem addfile_fence w path name :
  match ReadFile path with
  | Err err => addfile w path name = (w, Some err)
  | Ok txt =>
      exists k,
        addfile w path name
        = (w ++ "**`" ++ name ++ "`**" ++ nl ++ fence k ++ nl ++ txt
             ++ fence k ++ nl ++ nl, None)
        /\ 3 <= k
        /\ forall pre tail,
             txt = pre ++ tail ->
             pre = "" \/ (exists p, pre = p ++ nl) ->
             backticks tail < k
  end.
Proof.
  unfold addfile. destruct (ReadFile path) as [txt|err]; [|done].
  exists (widest_run (String.length txt) txt 2 + 1). split; [|split].
  - by rewrite !append_assoc.
  - pose proof (widest_run_ge (String.length txt) txt 2). lia.
  - intros pre tail Hsplit Hpre.
    pose proof (widest_run_covers (String.length txt) txt 2 pre tail
                  (le_n _) Hsplit Hpre). lia.
Qed.

End Fences.
